(** * scope: the Go type analyzer and its cache

    A shallow embedding of [internal/analyzer] (the introspection model
    builder) and [internal/cache] (the key-value store with expiry),
    together with the properties the specification states about them.

    Conventions.
    - Go structs are records; each struct lives in a module of its
      name so that fields keep their Go names ([MethodInfo.Name]).
    - Go maps are [gmap]s.  A [range] over a map visits the entries in
      an order Go leaves unspecified: every function that ranges over
      a map takes the visiting order as an explicit list, and the
      operation proper is the relation "for some order that is a
      permutation of the map's entries".
    - [(T, error)] results are values of [result T].
    - The semantic front end ([go/types], [go/token], [go/doc]) is
      represented by the data it hands to the analyzer. *)

From Stdlib Require Import ZArith Ascii String List Sorted Permutation Lia.
From stdpp Require Import base list gmap strings fin_maps sorting.

(** ** Go's [strings] package *)

Module strings.

(** One byte of an ASCII string lower-cased: the letters A-Z move to
    a-z, every other byte is kept. *)
Definition lower (c : ascii) : ascii :=
  let n := nat_of_ascii c in
  if (65 <=? n)%nat && (n <=? 90)%nat then ascii_of_nat (n + 32) else c.

Fixpoint lowerBytes (s : string) : string :=
  match s with
  | EmptyString => EmptyString
  | String c s' => String (lower c) (lowerBytes s')
  end.

(** Every byte is below [utf8.RuneSelf]. *)
Fixpoint isASCII (s : string) : bool :=
  match s with
  | EmptyString => true
  | String c s' => (nat_of_ascii c <? 128)%nat && isASCII s'
  end.

(** [strings.ToLower]: an ASCII string is lower-cased byte by byte;
    any other string goes through [strings.Map(unicode.ToLower, s)],
    which decodes the string and consults the case tables of package
    [unicode].  The tables are not reproduced: [unicodeLower] stands
    for that mapping and nothing is assumed about it. *)
Section ToLower.
Context (unicodeLower : string → string).

Definition ToLower (s : string) : string :=
  if isASCII s then lowerBytes s else unicodeLower s.
End ToLower.

Fixpoint HasPrefix (s prefix : string) : bool :=
  match prefix, s with
  | EmptyString, _ => true
  | String _ _, EmptyString => false
  | String p prefix', String c s' =>
      if Ascii.eqb c p then HasPrefix s' prefix' else false
  end.

(** [strings.Contains s substr]: [substr] occurs somewhere in [s]. *)
Fixpoint Contains (s substr : string) : bool :=
  if HasPrefix s substr then true
  else match s with
       | EmptyString => false
       | String _ s' => Contains s' substr
       end.

Definition HasSuffix (s suffix : string) : bool :=
  let n := String.length s in
  let k := String.length suffix in
  (k <=? n)%nat && String.eqb (substring (n - k) k s) suffix.

Fixpoint Join (elems : list string) (sep : string) : string :=
  match elems with
  | [] => ""
  | [e] => e
  | e :: rest => e +:+ sep +:+ Join rest sep
  end.

End strings.

(** ** Go's [sort.Slice]

    The library sorts a short slice by insertion: the element at
    index [i] is swapped leftwards while it is [less] than its left
    neighbour.  [prefix] below is the already sorted part, held in
    reverse so that the left neighbour is at its head.  For longer
    slices the library switches to other strategies; what is proved
    about the callers rests only on the result being a sorted
    permutation of the input. *)

Module sort.
Section Slice.
Context {A : Type} (less : A → A → bool).

Fixpoint sink (x : A) (prefix : list A) : list A :=
  match prefix with
  | [] => [x]
  | y :: prefix' => if less x y then y :: sink x prefix' else x :: prefix
  end.

Definition Slice (data : list A) : list A :=
  rev (fold_left (λ prefix x, sink x prefix) data []).
End Slice.

(** [sort.Strings] *)
Definition Strings (x : list string) : list string := Slice String.ltb x.
End sort.

(** ** Errors returned by the analyzer *)

Inductive Error :=
| ErrNotInitialized
| ErrTypeNotFound (typeName : string)
| ErrNoExamples (topic : string)
| ErrPackageNotFound (packageName : string)
| ErrNoRepository (repoPath : string)
| ErrParseRepository (cause : string)
| ErrInitialize (cause : Error).

Fixpoint Error_message (e : Error) : string :=
  match e with
  | ErrNotInitialized => "analyzer not initialized"
  | ErrTypeNotFound n => "type " +:+ n +:+ " not found"
  | ErrNoExamples t => "no examples found for topic: " +:+ t
  | ErrPackageNotFound n => "package " +:+ n +:+ " not found"
  | ErrNoRepository p => "repository path does not exist: " +:+ p
  | ErrParseRepository c => "failed to parse repository: " +:+ c
  | ErrInitialize c => "failed to initialize analyzer: " +:+ Error_message c
  end.

Inductive result (T : Type) :=
| Ok (v : T)
| Err (e : Error).
Arguments Ok {T} v.
Arguments Err {T} e.

Definition result_map {T U : Type} (f : T → U) (r : result T) : result U :=
  match r with
  | Ok v => Ok (f v)
  | Err e => Err e
  end.

(** What a call does: it returns a value, or it panics. *)
Inductive outcome (T : Type) :=
| Returns (v : T)
| Panics.
Arguments Returns {T} v.
Arguments Panics {T}.

Definition outcome_map {T U : Type} (f : T → U) (o : outcome T) : outcome U :=
  match o with
  | Returns v => Returns (f v)
  | Panics => Panics
  end.

(** ** The semantic front end: [go/token], [go/types], [go/doc] *)

Module token.
Definition Pos := Z.

Module Position.
Record t := mk { Filename : string; Offset : Z; Line : Z; Column : Z }.
Definition IsValid (pos : t) : bool := (0 <? Line pos)%Z.
End Position.

(** A file set, seen through its one use: [fset.Position p]. *)
Definition FileSet := Pos → Position.t.

Definition NewFileSet : FileSet :=
  λ _, Position.mk "" 0 0 0.

(** Parsing a file registers it: the positions of the file become
    known to the set. *)
Definition AddFile (fset : FileSet) (file : Pos → option Position.t) : FileSet :=
  λ p, match file p with
       | Some pos => pos
       | None => fset p
       end.
End token.

Module types.

(** [*types.Var]: a field, a parameter or a package-level variable.
    [TypeString] is [v.Type().String()]. *)
Module Var.
Record t := mk {
  Name : string;
  TypeString : string;
  Exported : bool;
  Embedded : bool;
  Pos : token.Pos }.
End Var.

(** [*types.Tuple] *)
Definition Tuple := list Var.t.

Module Signature.
Record t := mk {
  Recv : option Var.t;
  Params : Tuple;
  Results : Tuple;
  String : string }.
End Signature.

(** [*types.Func]; [Type'] is [f.Type()], its signature. *)
Module Func.
Record t := mk {
  Name : string;
  Exported : bool;
  Pos : token.Pos;
  Type' : Signature.t }.
End Func.

Inductive SelectionKind := FieldVal | MethodVal | MethodExpr.

Module Selection.
Record t := mk {
  Kind : SelectionKind;
  Obj : Func.t;
  Indirect : bool }.
End Selection.

(** [*types.MethodSet], by [Len] and [At]. *)
Definition MethodSet := list Selection.t.

(** [*types.Struct]: [Tag i] is the empty string past the recorded
    tags. *)
Module Struct.
Record t := mk { fields : list Var.t; tags : list string }.
Definition NumFields (s : t) : nat := length (fields s).
Definition Field (s : t) (i : nat) : option Var.t := fields s !! i.
Definition Tag (s : t) (i : nat) : string := nth i (tags s) "".
End Struct.

(** [*types.Interface]: all its methods, by [NumMethods] and
    [Method]. *)
Module Interface.
Record t := mk { allMethods : list Func.t }.
Definition NumMethods (i : t) : nat := length (allMethods i).
Definition Method (i : t) (k : nat) : option Func.t := allMethods i !! k.
End Interface.

(** The dynamic type of [t.Underlying()]. *)
Inductive Underlying :=
| UStruct (s : Struct.t)
| UInterface (i : Interface.t)
| USlice
| UArray
| UMap
| UChan
| UPointer
| USignature
| UBasic.

(** A [types.Type] handle with what the analyzer asks of it:
    [IsPointer] tells whether the handle itself is a
    [*types.Pointer]; [MethodSet] is [types.NewMethodSet t];
    [PtrMethodSet] is [types.NewMethodSet (types.NewPointer t)];
    [Sizeof] and [Alignof] are those of [types.SizesFor "gc" "amd64"].
    These two do not return for every type: [Sizeof] asserts that a
    basic type is typed and has no case for a type parameter, so it
    panics on the type of an untyped constant and on a generic type
    laid out from a type parameter.  [Sized] tells whether the calls
    return; [Sizeof] and [Alignof] are what they return when they
    do. *)
Module Type_.
Record t := mk {
  String : string;
  Underlying : types.Underlying;
  IsPointer : bool;
  MethodSet : types.MethodSet;
  PtrMethodSet : types.MethodSet;
  Sizeof : Z;
  Alignof : Z;
  Sized : bool }.
End Type_.

(** What a [types.Object] is, by the cases the analyzer switches
    on. *)
Inductive ObjectClass :=
| IsTypeName
| IsFunc (sig : Signature.t)
| IsVar
| IsConst (val : string)
| IsOther.

Module Object.
Record t := mk {
  Name : string;
  Exported : bool;
  Pos : token.Pos;
  Type' : Type_.t;
  Class : ObjectClass }.
End Object.

(** [*types.Scope]: [Names] lists the element names in sorted
    order. *)
Module Scope.
Record t := mk { elems : gmap string Object.t }.
Definition Lookup (s : t) (name : string) : option Object.t := elems s !! name.
Definition Names (s : t) : list string :=
  sort.Strings (map_to_list (elems s)).*1.
End Scope.

Module Package.
Record t := mk { Path : string; Scope : Scope.t }.
End Package.

End types.

Module doc.
Module Example.
Record t := mk { Name : string; Code : string; Doc : string }.
End Example.

Module Type_.
Record t := mk { Name : string; Doc : string; Examples : list Example.t }.
End Type_.

Module Func.
Record t := mk { Name : string; Examples : list Example.t }.
End Func.

Module Package.
Record t := mk {
  Name : string;
  Doc : string;
  Types : list Type_.t;
  Funcs : list Func.t;
  Examples : list Example.t }.
End Package.
End doc.

(** ** The analyzer's descriptors *)

Module Position.
Record t := mk { Filename : string; Line : Z; Column : Z }.
Definition zero : t := mk "" 0 0.
End Position.

Module ParamInfo.
Record t := mk { Name : string; Type' : string }.
End ParamInfo.

Module MethodInfo.
Record t := mk {
  Name : string;
  Signature : string;
  Doc : string;
  Receiver : string;
  Parameters : list ParamInfo.t;
  Results : list ParamInfo.t;
  Position : Position.t;
  Exported : bool;
  IsPointer : bool }.
End MethodInfo.

Module FieldInfo.
Record t := mk {
  Name : string;
  Type' : string;
  Tag : string;
  Doc : string;
  Position : Position.t;
  Exported : bool;
  Embedded : bool }.
End FieldInfo.

(** [Interfaces], [Examples], [Dependencies], [UsedBy] and [Tags] are
    never assigned by the analyzer and are left out. *)
Module TypeInfo.
Record t := mk {
  Name : string;
  Kind : string;
  Package : string;
  ImportPath : string;
  Doc : string;
  Methods : list MethodInfo.t;
  Fields : list FieldInfo.t;
  Position : Position.t;
  Exported : bool;
  Size : Z;
  Alignment : Z }.
End TypeInfo.

Module FunctionInfo.
Record t := mk {
  Name : string;
  Signature : string;
  Doc : string;
  Package : string;
  Parameters : list ParamInfo.t;
  Results : list ParamInfo.t;
  Position : Position.t;
  Exported : bool;
  IsMethod : bool }.
End FunctionInfo.

Module VariableInfo.
Record t := mk {
  Name : string;
  Type' : string;
  Package : string;
  Position : Position.t;
  Exported : bool }.
End VariableInfo.

Module ConstantInfo.
Record t := mk {
  Name : string;
  Type' : string;
  Value : string;
  Package : string;
  Position : Position.t;
  Exported : bool }.
End ConstantInfo.

Module PackageInfo.
Record t := mk {
  Name : string;
  ImportPath : string;
  Doc : string;
  Files : list string;
  IsMain : bool }.
End PackageInfo.

(** The counts of [AnalysisMetrics]; [AnalysisTime] is wall-clock time
    and is not represented. *)
Module AnalysisMetrics.
Record t := mk {
  TotalTypes : nat;
  TotalFunctions : nat;
  TotalPackages : nat }.
End AnalysisMetrics.

(** [Timestamp] and [Duration] are wall-clock readings and are not
    represented; [Imports], [Errors] and [Warnings] are never
    assigned. *)
Module AnalysisResult.
Record t := mk {
  Types : list TypeInfo.t;
  Functions : list FunctionInfo.t;
  Variables : list VariableInfo.t;
  Constants : list ConstantInfo.t;
  Packages : list PackageInfo.t;
  Metrics : AnalysisMetrics.t }.
Definition empty : t :=
  mk [] [] [] [] [] (AnalysisMetrics.mk 0 0 0).
End AnalysisResult.

Module Config.
Record t := mk {
  IncludeTests : bool;
  ExcludePatterns : list string;
  MaxFileSize : Z }.
End Config.

Definition DefaultConfig : Config.t :=
  Config.mk false [".git"; "node_modules"; "vendor"] (10 * 1024 * 1024).

(** ** The analyzer

    The lock [mu] and the logger are not part of the state: the
    embedding is sequential and log lines are not observed. *)

Module Analyzer.
Record t := mk {
  repoPath : string;
  fset : token.FileSet;
  pkgs : gmap string types.Package.t;
  docPkgs : gmap string doc.Package.t;
  initialized : bool;
  config : Config.t;
  files : gmap string (list string) }.
End Analyzer.

(** [order] is a legitimate visiting order for a [range] over [m]. *)
Definition range_order {V : Type} (m : gmap string V) (order : list (string * V)) : Prop :=
  order ≡ₚ map_to_list m.

(** [a.fset.Position(p)] copied into a [Position] when valid. *)
Definition position (a : Analyzer.t) (p : token.Pos) : Position.t :=
  let pos := Analyzer.fset a p in
  if token.Position.IsValid pos
  then Position.mk (token.Position.Filename pos) (token.Position.Line pos)
         (token.Position.Column pos)
  else Position.zero.

Definition analyzeSignatureParams (tuple : types.Tuple) : list ParamInfo.t :=
  fold_left
    (λ params param,
       params ++ [ParamInfo.mk (types.Var.Name param) (types.Var.TypeString param)])
    tuple [].

(** The descriptor of field [i]. *)
Definition fieldInfo (a : Analyzer.t) (structType : types.Struct.t) (i : nat)
    (field : types.Var.t) : FieldInfo.t :=
  {| FieldInfo.Name := types.Var.Name field;
     FieldInfo.Type' := types.Var.TypeString field;
     FieldInfo.Tag := types.Struct.Tag structType i;
     FieldInfo.Doc := "";
     FieldInfo.Position := position a (types.Var.Pos field);
     FieldInfo.Exported := types.Var.Exported field;
     FieldInfo.Embedded := types.Var.Embedded field |}.

(** The loop [for i := 0; i < structType.NumFields(); i++]; [n] counts
    the iterations left. *)
Fixpoint analyzeStructFields_loop (a : Analyzer.t) (structType : types.Struct.t)
    (n i : nat) (fields : list FieldInfo.t) : list FieldInfo.t :=
  match n with
  | O => fields
  | S n' =>
      match types.Struct.Field structType i with
      | Some field =>
          analyzeStructFields_loop a structType n' (S i)
            (fields ++ [fieldInfo a structType i field])
      | None => fields
      end
  end.

Definition analyzeStructFields (a : Analyzer.t) (structType : types.Struct.t)
    (namedType : types.Type_.t) : list FieldInfo.t :=
  analyzeStructFields_loop a structType (types.Struct.NumFields structType) 0 [].

Definition interfaceMethodInfo (a : Analyzer.t) (method : types.Func.t) : MethodInfo.t :=
  let sig := types.Func.Type' method in
  {| MethodInfo.Name := types.Func.Name method;
     MethodInfo.Signature := types.Signature.String sig;
     MethodInfo.Doc := "";
     MethodInfo.Receiver := "";
     MethodInfo.Parameters := analyzeSignatureParams (types.Signature.Params sig);
     MethodInfo.Results := analyzeSignatureParams (types.Signature.Results sig);
     MethodInfo.Position := position a (types.Func.Pos method);
     MethodInfo.Exported := types.Func.Exported method;
     MethodInfo.IsPointer := false |}.

Definition analyzeInterfaceMethods (a : Analyzer.t) (interfaceType : types.Interface.t)
    : list MethodInfo.t :=
  fold_left (λ methods method, methods ++ [interfaceMethodInfo a method])
    (types.Interface.allMethods interfaceType) [].

(** The descriptor both passes of [getTypeMethods] build from a
    selection; the passes differ in the [IsPointer] flag only. *)
Definition methodInfo (a : Analyzer.t) (selection : types.Selection.t)
    (isPointer : bool) : MethodInfo.t :=
  let method := types.Selection.Obj selection in
  let sig := types.Func.Type' method in
  {| MethodInfo.Name := types.Func.Name method;
     MethodInfo.Signature := types.Signature.String sig;
     MethodInfo.Doc := "";
     MethodInfo.Receiver :=
       match types.Signature.Recv sig with
       | Some recv => types.Var.TypeString recv
       | None => ""
       end;
     MethodInfo.Parameters := analyzeSignatureParams (types.Signature.Params sig);
     MethodInfo.Results := analyzeSignatureParams (types.Signature.Results sig);
     MethodInfo.Position := position a (types.Func.Pos method);
     MethodInfo.Exported := types.Func.Exported method;
     MethodInfo.IsPointer := isPointer |}.

Definition isMethodVal (selection : types.Selection.t) : bool :=
  match types.Selection.Kind selection with
  | types.MethodVal => true
  | _ => false
  end.

(** First loop of [getTypeMethods]: the method set of [t] itself. *)
Definition valuePass (a : Analyzer.t) (mset : types.MethodSet)
    (methods : list MethodInfo.t) : list MethodInfo.t :=
  fold_left
    (λ methods selection,
       if isMethodVal selection
       then methods ++ [methodInfo a selection (types.Selection.Indirect selection)]
       else methods)
    mset methods.

(** The scan [for _, existing := range methods] of the second loop. *)
Definition found (methods : list MethodInfo.t) (name : string) : bool :=
  existsb (λ existing, String.eqb (MethodInfo.Name existing) name) methods.

(** Second loop: the method set of the pointer form, skipping every
    name already collected. *)
Definition pointerPass (a : Analyzer.t) (ptrMset : types.MethodSet)
    (methods : list MethodInfo.t) : list MethodInfo.t :=
  fold_left
    (λ methods selection,
       if isMethodVal selection
       then if found methods (types.Func.Name (types.Selection.Obj selection))
            then methods
            else methods ++ [methodInfo a selection true]
       else methods)
    ptrMset methods.

Definition lessByName (x y : MethodInfo.t) : bool :=
  String.ltb (MethodInfo.Name x) (MethodInfo.Name y).

Definition getTypeMethods (a : Analyzer.t) (t : types.Type_.t) : list MethodInfo.t :=
  let methods := valuePass a (types.Type_.MethodSet t) [] in
  let methods :=
    if types.Type_.IsPointer t then methods
    else pointerPass a (types.Type_.PtrMethodSet t) methods in
  sort.Slice lessByName methods.

(** *** LookupType *)

(** The scan of [docPkg.Types] for the documentation of [typeName]. *)
Definition typeDoc (a : Analyzer.t) (pkgName typeName : string) : string :=
  match Analyzer.docPkgs a !! pkgName with
  | Some docPkg =>
      match find (λ docType, String.eqb (doc.Type_.Name docType) typeName)
              (doc.Package.Types docPkg) with
      | Some docType => doc.Type_.Doc docType
      | None => ""
      end
  | None => ""
  end.

Definition setKind (kind : string) (ti : TypeInfo.t) : TypeInfo.t :=
  TypeInfo.mk (TypeInfo.Name ti) kind (TypeInfo.Package ti) (TypeInfo.ImportPath ti)
    (TypeInfo.Doc ti) (TypeInfo.Methods ti) (TypeInfo.Fields ti) (TypeInfo.Position ti)
    (TypeInfo.Exported ti) (TypeInfo.Size ti) (TypeInfo.Alignment ti).

Definition setMethods (methods : list MethodInfo.t) (ti : TypeInfo.t) : TypeInfo.t :=
  TypeInfo.mk (TypeInfo.Name ti) (TypeInfo.Kind ti) (TypeInfo.Package ti)
    (TypeInfo.ImportPath ti) (TypeInfo.Doc ti) methods (TypeInfo.Fields ti)
    (TypeInfo.Position ti) (TypeInfo.Exported ti) (TypeInfo.Size ti)
    (TypeInfo.Alignment ti).

Definition setFields (fields : list FieldInfo.t) (ti : TypeInfo.t) : TypeInfo.t :=
  TypeInfo.mk (TypeInfo.Name ti) (TypeInfo.Kind ti) (TypeInfo.Package ti)
    (TypeInfo.ImportPath ti) (TypeInfo.Doc ti) (TypeInfo.Methods ti) fields
    (TypeInfo.Position ti) (TypeInfo.Exported ti) (TypeInfo.Size ti)
    (TypeInfo.Alignment ti).

Definition setSizes (size alignment : Z) (ti : TypeInfo.t) : TypeInfo.t :=
  TypeInfo.mk (TypeInfo.Name ti) (TypeInfo.Kind ti) (TypeInfo.Package ti)
    (TypeInfo.ImportPath ti) (TypeInfo.Doc ti) (TypeInfo.Methods ti)
    (TypeInfo.Fields ti) (TypeInfo.Position ti) (TypeInfo.Exported ti) size alignment.

(** The [switch] on the underlying type. *)
Definition analyzeUnderlying (a : Analyzer.t) (obj : types.Object.t)
    (typeInfo : TypeInfo.t) : TypeInfo.t :=
  match types.Type_.Underlying (types.Object.Type' obj) with
  | types.UStruct t =>
      setFields (analyzeStructFields a t (types.Object.Type' obj))
        (setKind "struct" typeInfo)
  | types.UInterface t =>
      setMethods (analyzeInterfaceMethods a t) (setKind "interface" typeInfo)
  | types.USlice => setKind "slice" typeInfo
  | types.UArray => setKind "array" typeInfo
  | types.UMap => setKind "map" typeInfo
  | types.UChan => setKind "channel" typeInfo
  | types.UPointer => setKind "pointer" typeInfo
  | types.USignature => setKind "function" typeInfo
  | types.UBasic => setKind "other" typeInfo
  end.

(** The descriptor the package loop of [LookupType] builds once
    [obj] is found in [pkg]. *)
Definition buildTypeInfo (a : Analyzer.t) (typeName pkgName : string)
    (pkg : types.Package.t) (obj : types.Object.t) : TypeInfo.t :=
  let typeInfo :=
    {| TypeInfo.Name := typeName;
       TypeInfo.Kind := "";
       TypeInfo.Package := pkgName;
       TypeInfo.ImportPath := types.Package.Path pkg;
       TypeInfo.Doc := typeDoc a pkgName typeName;
       TypeInfo.Methods := [];
       TypeInfo.Fields := [];
       TypeInfo.Position := position a (types.Object.Pos obj);
       TypeInfo.Exported := types.Object.Exported obj;
       TypeInfo.Size := 0;
       TypeInfo.Alignment := 0 |} in
  let typeInfo := analyzeUnderlying a obj typeInfo in
  let typeInfo := setMethods (getTypeMethods a (types.Object.Type' obj)) typeInfo in
  setSizes (types.Type_.Sizeof (types.Object.Type' obj))
    (types.Type_.Alignof (types.Object.Type' obj)) typeInfo.

(** [for pkgName, pkg := range a.pkgs], visiting in [order]: the first
    package whose scope has the name decides.  The descriptor is
    returned when [sizes.Sizeof] and [sizes.Alignof] return for the
    type of the object found; the call panics when they do not. *)
Fixpoint LookupType_range (a : Analyzer.t) (order : list (string * types.Package.t))
    (typeName : string) : outcome (result TypeInfo.t) :=
  match order with
  | [] => Returns (Err (ErrTypeNotFound typeName))
  | (pkgName, pkg) :: rest =>
      match types.Scope.Lookup (types.Package.Scope pkg) typeName with
      | None => LookupType_range a rest typeName
      | Some obj =>
          if types.Type_.Sized (types.Object.Type' obj)
          then Returns (Ok (buildTypeInfo a typeName pkgName pkg obj))
          else Panics
      end
  end.

Definition LookupType_in (a : Analyzer.t) (order : list (string * types.Package.t))
    (typeName : string) : outcome (result TypeInfo.t) :=
  if negb (Analyzer.initialized a) then Returns (Err ErrNotInitialized)
  else LookupType_range a order typeName.

(** [LookupType a typeName r]: a call may return [r]. *)
Definition LookupType (a : Analyzer.t) (typeName : string) (r : result TypeInfo.t) : Prop :=
  ∃ order, range_order (Analyzer.pkgs a) order ∧ LookupType_in a order typeName = Returns r.

(** A call of [LookupType] may panic. *)
Definition LookupType_panics (a : Analyzer.t) (typeName : string) : Prop :=
  ∃ order, range_order (Analyzer.pkgs a) order ∧ LookupType_in a order typeName = Panics.

(** *** ListMethods *)

Definition ListMethods_in (a : Analyzer.t) (order : list (string * types.Package.t))
    (typeName : string) : outcome (result (list MethodInfo.t)) :=
  match LookupType_in a order typeName with
  | Returns (Err err) => Returns (Err err)
  | Returns (Ok typeInfo) => Returns (Ok (TypeInfo.Methods typeInfo))
  | Panics => Panics
  end.

Definition ListMethods (a : Analyzer.t) (typeName : string)
    (r : result (list MethodInfo.t)) : Prop :=
  ∃ order,
    range_order (Analyzer.pkgs a) order ∧ ListMethods_in a order typeName = Returns r.

Definition ListMethods_panics (a : Analyzer.t) (typeName : string) : Prop :=
  ∃ order, range_order (Analyzer.pkgs a) order ∧ ListMethods_in a order typeName = Panics.

(** *** GetExample *)

Definition newline : string := String "010"%char EmptyString.

Definition exampleText (example : doc.Example.t) : string :=
  "Example: " +:+ doc.Example.Name example +:+ newline +:+
  doc.Example.Code example +:+ newline +:+ doc.Example.Doc example.

Section GetExample.
Context (unicodeLower : string → string).

Definition matchesTopic (name topic : string) : bool :=
  strings.Contains (strings.ToLower unicodeLower name) (strings.ToLower unicodeLower topic).

Definition packageExamples (docPkg : doc.Package.t) (topic : string)
    (examples : list string) : list string :=
  let examples :=
    fold_left
      (λ examples docType,
         if matchesTopic (doc.Type_.Name docType) topic
         then examples ++ map exampleText (doc.Type_.Examples docType)
         else examples)
      (doc.Package.Types docPkg) examples in
  let examples :=
    fold_left
      (λ examples docFunc,
         if matchesTopic (doc.Func.Name docFunc) topic
         then examples ++ map exampleText (doc.Func.Examples docFunc)
         else examples)
      (doc.Package.Funcs docPkg) examples in
  fold_left
    (λ examples example,
       if matchesTopic (doc.Example.Name example) topic
       then examples ++ [exampleText example]
       else examples)
    (doc.Package.Examples docPkg) examples.

Definition GetExample_in (a : Analyzer.t) (order : list (string * doc.Package.t))
    (topic : string) : result string :=
  let examples :=
    fold_left (λ examples entry, packageExamples entry.2 topic examples) order [] in
  match examples with
  | [] => Err (ErrNoExamples topic)
  | _ => Ok (strings.Join examples (newline +:+ newline))
  end.

Definition GetExample (a : Analyzer.t) (topic : string) (r : result string) : Prop :=
  ∃ order, range_order (Analyzer.docPkgs a) order ∧ GetExample_in a order topic = r.
End GetExample.

(** *** Loops whose body calls [LookupType]

    Such a body has several possible outcomes, one per visiting order
    of the nested [range]; the loop is the relational fold of its
    body.  A body relates the state before to each state a completed
    pass may leave: a pass in which [LookupType] panics completes
    nothing, and neither does the loop. *)

Inductive range_fold {X S : Type} (body : X → S → S → Prop) : list X → S → S → Prop :=
| range_fold_nil s : range_fold body [] s s
| range_fold_cons x xs s s' s'' :
    body x s s' → range_fold body xs s' s'' → range_fold body (x :: xs) s s''.

(** The loop panics: the body does on some element, the passes
    before it having completed. *)
Inductive range_panics {X S : Type} (body : X → S → S → Prop) (panics : X → S → Prop)
    : list X → S → Prop :=
| range_panics_here x xs s : panics x s → range_panics body panics (x :: xs) s
| range_panics_later x xs s s' :
    body x s s' → range_panics body panics xs s' → range_panics body panics (x :: xs) s.

(** *** SearchTypes *)

Section SearchTypes.
Context (unicodeLower : string → string).

(** The body of [for _, name := range scope.Names()]; [query] is
    already lower case. *)
Definition searchName (a : Analyzer.t) (query : string) (scope : types.Scope.t)
    (name : string) (results results' : list TypeInfo.t) : Prop :=
  match types.Scope.Lookup scope name with
  | None => results' = results
  | Some obj =>
      match types.Object.Class obj with
      | types.IsTypeName =>
          if strings.Contains (strings.ToLower unicodeLower (types.Object.Name obj)) query
          then ∃ r, LookupType a (types.Object.Name obj) r ∧
                 results' = match r with
                            | Ok typeInfo => results ++ [typeInfo]
                            | Err _ => results
                            end
          else results' = results
      | _ => results' = results
      end
  end.

(** The body panics: the call of [LookupType] does. *)
Definition searchName_panics (a : Analyzer.t) (query : string) (scope : types.Scope.t)
    (name : string) (results : list TypeInfo.t) : Prop :=
  match types.Scope.Lookup scope name with
  | None => False
  | Some obj =>
      match types.Object.Class obj with
      | types.IsTypeName =>
          if strings.Contains (strings.ToLower unicodeLower (types.Object.Name obj)) query
          then LookupType_panics a (types.Object.Name obj)
          else False
      | _ => False
      end
  end.

Definition searchPackage (a : Analyzer.t) (query : string)
    (entry : string * types.Package.t) (results results' : list TypeInfo.t) : Prop :=
  let scope := types.Package.Scope entry.2 in
  range_fold (searchName a query scope) (types.Scope.Names scope) results results'.

Definition searchPackage_panics (a : Analyzer.t) (query : string)
    (entry : string * types.Package.t) (results : list TypeInfo.t) : Prop :=
  let scope := types.Package.Scope entry.2 in
  range_panics (searchName a query scope) (searchName_panics a query scope)
    (types.Scope.Names scope) results.

(** [SearchTypes a query r]: a call may return [r]. *)
Definition SearchTypes (a : Analyzer.t) (query : string)
    (r : result (list TypeInfo.t)) : Prop :=
  ∃ order results,
    range_order (Analyzer.pkgs a) order ∧
    range_fold (searchPackage a (strings.ToLower unicodeLower query)) order [] results ∧
    r = Ok results.

(** A call of [SearchTypes] may panic. *)
Definition SearchTypes_panics (a : Analyzer.t) (query : string) : Prop :=
  ∃ order,
    range_order (Analyzer.pkgs a) order ∧
    range_panics (searchPackage a (strings.ToLower unicodeLower query))
      (searchPackage_panics a (strings.ToLower unicodeLower query)) order [].
End SearchTypes.

(** *** AnalyzeRepository *)

Definition analyzeFunctionObject (a : Analyzer.t) (fn : types.Object.t)
    (sig : types.Signature.t) (pkgName : string) : FunctionInfo.t :=
  {| FunctionInfo.Name := types.Object.Name fn;
     FunctionInfo.Signature := types.Signature.String sig;
     FunctionInfo.Doc := "";
     FunctionInfo.Package := pkgName;
     FunctionInfo.Parameters := analyzeSignatureParams (types.Signature.Params sig);
     FunctionInfo.Results := analyzeSignatureParams (types.Signature.Results sig);
     FunctionInfo.Position := position a (types.Object.Pos fn);
     FunctionInfo.Exported := types.Object.Exported fn;
     FunctionInfo.IsMethod :=
       match types.Signature.Recv sig with
       | Some _ => true
       | None => false
       end |}.

Definition analyzeVariableObject (a : Analyzer.t) (v : types.Object.t)
    (pkgName : string) : VariableInfo.t :=
  {| VariableInfo.Name := types.Object.Name v;
     VariableInfo.Type' := types.Type_.String (types.Object.Type' v);
     VariableInfo.Package := pkgName;
     VariableInfo.Position := position a (types.Object.Pos v);
     VariableInfo.Exported := types.Object.Exported v |}.

Definition analyzeConstantObject (a : Analyzer.t) (c : types.Object.t)
    (val : string) (pkgName : string) : ConstantInfo.t :=
  {| ConstantInfo.Name := types.Object.Name c;
     ConstantInfo.Type' := types.Type_.String (types.Object.Type' c);
     ConstantInfo.Value := val;
     ConstantInfo.Package := pkgName;
     ConstantInfo.Position := position a (types.Object.Pos c);
     ConstantInfo.Exported := types.Object.Exported c |}.

Definition addType (typeInfo : TypeInfo.t) (r : AnalysisResult.t) : AnalysisResult.t :=
  AnalysisResult.mk (AnalysisResult.Types r ++ [typeInfo]) (AnalysisResult.Functions r)
    (AnalysisResult.Variables r) (AnalysisResult.Constants r)
    (AnalysisResult.Packages r) (AnalysisResult.Metrics r).

Definition addFunction (f : FunctionInfo.t) (r : AnalysisResult.t) : AnalysisResult.t :=
  AnalysisResult.mk (AnalysisResult.Types r) (AnalysisResult.Functions r ++ [f])
    (AnalysisResult.Variables r) (AnalysisResult.Constants r)
    (AnalysisResult.Packages r) (AnalysisResult.Metrics r).

Definition addVariable (v : VariableInfo.t) (r : AnalysisResult.t) : AnalysisResult.t :=
  AnalysisResult.mk (AnalysisResult.Types r) (AnalysisResult.Functions r)
    (AnalysisResult.Variables r ++ [v]) (AnalysisResult.Constants r)
    (AnalysisResult.Packages r) (AnalysisResult.Metrics r).

Definition addConstant (c : ConstantInfo.t) (r : AnalysisResult.t) : AnalysisResult.t :=
  AnalysisResult.mk (AnalysisResult.Types r) (AnalysisResult.Functions r)
    (AnalysisResult.Variables r) (AnalysisResult.Constants r ++ [c])
    (AnalysisResult.Packages r) (AnalysisResult.Metrics r).

Definition addPackage (p : PackageInfo.t) (r : AnalysisResult.t) : AnalysisResult.t :=
  AnalysisResult.mk (AnalysisResult.Types r) (AnalysisResult.Functions r)
    (AnalysisResult.Variables r) (AnalysisResult.Constants r)
    (AnalysisResult.Packages r ++ [p]) (AnalysisResult.Metrics r).

Definition setMetrics (r : AnalysisResult.t) : AnalysisResult.t :=
  AnalysisResult.mk (AnalysisResult.Types r) (AnalysisResult.Functions r)
    (AnalysisResult.Variables r) (AnalysisResult.Constants r)
    (AnalysisResult.Packages r)
    {| AnalysisMetrics.TotalTypes := length (AnalysisResult.Types r);
       AnalysisMetrics.TotalFunctions := length (AnalysisResult.Functions r);
       AnalysisMetrics.TotalPackages := length (AnalysisResult.Packages r) |}.

(** The body of the scope loop: the [switch] on the object's class. *)
Definition analyzeName (a : Analyzer.t) (pkgName : string) (scope : types.Scope.t)
    (name : string) (result result' : AnalysisResult.t) : Prop :=
  match types.Scope.Lookup scope name with
  | None => result' = result
  | Some obj =>
      match types.Object.Class obj with
      | types.IsTypeName =>
          ∃ r, LookupType a (types.Object.Name obj) r ∧
               result' = match r with
                         | Ok typeInfo => addType typeInfo result
                         | Err _ => result
                         end
      | types.IsFunc sig =>
          result' = addFunction (analyzeFunctionObject a obj sig pkgName) result
      | types.IsVar => result' = addVariable (analyzeVariableObject a obj pkgName) result
      | types.IsConst val =>
          result' = addConstant (analyzeConstantObject a obj val pkgName) result
      | types.IsOther => result' = result
      end
  end.

Definition analyzeName_panics (a : Analyzer.t) (scope : types.Scope.t)
    (name : string) (result : AnalysisResult.t) : Prop :=
  match types.Scope.Lookup scope name with
  | None => False
  | Some obj =>
      match types.Object.Class obj with
      | types.IsTypeName => LookupType_panics a (types.Object.Name obj)
      | _ => False
      end
  end.

Definition analyzePackage (a : Analyzer.t) (entry : string * types.Package.t)
    (result result' : AnalysisResult.t) : Prop :=
  let scope := types.Package.Scope entry.2 in
  range_fold (analyzeName a entry.1 scope) (types.Scope.Names scope) result result'.

Definition analyzePackage_panics (a : Analyzer.t) (entry : string * types.Package.t)
    (result : AnalysisResult.t) : Prop :=
  let scope := types.Package.Scope entry.2 in
  range_panics (analyzeName a entry.1 scope) (analyzeName_panics a scope)
    (types.Scope.Names scope) result.

Definition isMain (pkgName : string) : bool := String.eqb pkgName "main".

(** The [PackageInfo] both [AnalyzeRepository] and [GetPackageInfo]
    assemble. *)
Definition packageInfo (a : Analyzer.t) (pkgName : string) (pkg : types.Package.t)
    : PackageInfo.t :=
  {| PackageInfo.Name := pkgName;
     PackageInfo.ImportPath := types.Package.Path pkg;
     PackageInfo.Doc :=
       match Analyzer.docPkgs a !! pkgName with
       | Some docPkg => doc.Package.Doc docPkg
       | None => ""
       end;
     PackageInfo.Files := default [] (Analyzer.files a !! pkgName);
     PackageInfo.IsMain := isMain pkgName |}.

(** [AnalyzeRepository a r]: a call may return [r]. *)
Definition AnalyzeRepository (a : Analyzer.t) (r : result AnalysisResult.t) : Prop :=
  if negb (Analyzer.initialized a) then r = Err ErrNotInitialized
  else
    ∃ order order' result,
      range_order (Analyzer.pkgs a) order ∧
      range_order (Analyzer.pkgs a) order' ∧
      range_fold (analyzePackage a) order AnalysisResult.empty result ∧
      r = Ok (setMetrics
                (fold_left (λ result entry, addPackage (packageInfo a entry.1 entry.2) result)
                   order' result)).

(** A call of [AnalyzeRepository] may panic, in its first loop. *)
Definition AnalyzeRepository_panics (a : Analyzer.t) : Prop :=
  Analyzer.initialized a = true ∧
  ∃ order,
    range_order (Analyzer.pkgs a) order ∧
    range_panics (analyzePackage a) (analyzePackage_panics a) order AnalysisResult.empty.

(** *** GetPackageInfo *)

Definition GetPackageInfo (a : Analyzer.t) (packageName : string) : result PackageInfo.t :=
  match Analyzer.pkgs a !! packageName with
  | None => Err (ErrPackageNotFound packageName)
  | Some pkg => Ok (packageInfo a packageName pkg)
  end.

(** *** Building the model: initialize, Refresh, Close

    What the file system and the front end answer during one build is
    the environment of the build. *)

(** A file as [parser.ParseFile] and [conf.Check] see it: the
    positions it adds to the file set, its package clause, and the
    checked package ([None] when type checking fails). *)
Module ParsedFile.
Record t := mk {
  positions : token.Pos → option token.Position.t;
  pkgName : string;
  checked : option types.Package.t }.
End ParsedFile.

(** One call of the [filepath.Walk] callback: the path, the error
    the walk reports for it, the file's attributes, and what reading
    and parsing it gives ([None] when either fails). *)
Module WalkEntry.
Record t := mk {
  path : string;
  err : option string;
  IsDir : bool;
  Size : Z;
  parsed : option ParsedFile.t }.
End WalkEntry.

(** What [typeCheckPackages] gets for one package name: the positions
    of the files parsed again and the package checked from them. *)
Module Rechecked.
Record t := mk {
  positions : token.Pos → option token.Position.t;
  checked : option types.Package.t }.
End Rechecked.

Module Env.
Record t := mk {
  stat : bool;
  walk : list WalkEntry.t;
  recheck : string → list string → Rechecked.t }.
End Env.

Definition setFset (fset : token.FileSet) (a : Analyzer.t) : Analyzer.t :=
  Analyzer.mk (Analyzer.repoPath a) fset (Analyzer.pkgs a) (Analyzer.docPkgs a)
    (Analyzer.initialized a) (Analyzer.config a) (Analyzer.files a).

Definition setPkg (pkgName : string) (pkg : types.Package.t) (a : Analyzer.t) : Analyzer.t :=
  Analyzer.mk (Analyzer.repoPath a) (Analyzer.fset a) (<[pkgName := pkg]> (Analyzer.pkgs a))
    (Analyzer.docPkgs a) (Analyzer.initialized a) (Analyzer.config a) (Analyzer.files a).

Definition setDocPkg (pkgName : string) (docPkg : doc.Package.t) (a : Analyzer.t)
    : Analyzer.t :=
  Analyzer.mk (Analyzer.repoPath a) (Analyzer.fset a) (Analyzer.pkgs a)
    (<[pkgName := docPkg]> (Analyzer.docPkgs a)) (Analyzer.initialized a)
    (Analyzer.config a) (Analyzer.files a).

Definition appendFile (pkgName filename : string) (a : Analyzer.t) : Analyzer.t :=
  Analyzer.mk (Analyzer.repoPath a) (Analyzer.fset a) (Analyzer.pkgs a)
    (Analyzer.docPkgs a) (Analyzer.initialized a) (Analyzer.config a)
    (<[pkgName := default [] (Analyzer.files a !! pkgName) ++ [filename]]>
       (Analyzer.files a)).

Definition setInitialized (b : bool) (a : Analyzer.t) : Analyzer.t :=
  Analyzer.mk (Analyzer.repoPath a) (Analyzer.fset a) (Analyzer.pkgs a)
    (Analyzer.docPkgs a) b (Analyzer.config a) (Analyzer.files a).

(** [parseFile]: its error is only logged by the caller, so the
    analyzer after the call is all that matters. *)
Definition parseFile (a : Analyzer.t) (filename : string) (parsed : option ParsedFile.t)
    : Analyzer.t :=
  match parsed with
  | None => a
  | Some file =>
      let a := setFset (token.AddFile (Analyzer.fset a) (ParsedFile.positions file)) a in
      match ParsedFile.checked file with
      | None => a
      | Some pkg => appendFile (ParsedFile.pkgName file) filename
                      (setPkg (ParsedFile.pkgName file) pkg a)
      end
  end.

(** The walk of [parseRepository]: the callback is run on each entry
    in turn and the walk stops at the first error it returns. *)
Fixpoint parseRepository_walk (a : Analyzer.t) (entries : list WalkEntry.t)
    : Analyzer.t * option string :=
  match entries with
  | [] => (a, None)
  | entry :: rest =>
      let path := WalkEntry.path entry in
      match WalkEntry.err entry with
      | Some err => (a, Some err)
      | None =>
          if WalkEntry.IsDir entry || negb (strings.HasSuffix path ".go")
          then parseRepository_walk a rest
          else if existsb (λ pattern, strings.Contains path pattern)
                    (Config.ExcludePatterns (Analyzer.config a))
          then parseRepository_walk a rest
          else if negb (Config.IncludeTests (Analyzer.config a))
                  && strings.HasSuffix path "_test.go"
          then parseRepository_walk a rest
          else if (Config.MaxFileSize (Analyzer.config a) <? WalkEntry.Size entry)%Z
          then parseRepository_walk a rest
          else parseRepository_walk (parseFile a path (WalkEntry.parsed entry)) rest
      end
  end.

Definition parseRepository (a : Analyzer.t) (env : Env.t) : Analyzer.t * option string :=
  parseRepository_walk a (Env.walk env).

(** [typeCheckPackages], ranging over [a.files] in [order]; it never
    fails. *)
Definition typeCheckPackages (a : Analyzer.t) (env : Env.t)
    (order : list (string * list string)) : Analyzer.t :=
  fold_left
    (λ a entry,
       let again := Env.recheck env entry.1 entry.2 in
       let a := setFset (token.AddFile (Analyzer.fset a) (Rechecked.positions again)) a in
       match Rechecked.checked again with
       | None => a
       | Some pkg => setPkg entry.1 pkg a
       end)
    order a.

(** The [doc.Package] built from a package's scope. *)
Definition scopeDoc (pkgName : string) (scope : types.Scope.t) : doc.Package.t :=
  fold_left
    (λ docPkg name,
       match types.Scope.Lookup scope name with
       | None => docPkg
       | Some obj =>
           match types.Object.Class obj with
           | types.IsTypeName =>
               doc.Package.mk (doc.Package.Name docPkg) (doc.Package.Doc docPkg)
                 (doc.Package.Types docPkg ++ [doc.Type_.mk (types.Object.Name obj) "" []])
                 (doc.Package.Funcs docPkg) (doc.Package.Examples docPkg)
           | types.IsFunc _ =>
               doc.Package.mk (doc.Package.Name docPkg) (doc.Package.Doc docPkg)
                 (doc.Package.Types docPkg)
                 (doc.Package.Funcs docPkg ++ [doc.Func.mk (types.Object.Name obj) []])
                 (doc.Package.Examples docPkg)
           | _ => docPkg
           end
       end)
    (types.Scope.Names scope) (doc.Package.mk pkgName "" [] [] []).

(** [generateDocumentation], ranging over [a.pkgs] in [order]; it
    never fails. *)
Definition generateDocumentation (a : Analyzer.t)
    (order : list (string * types.Package.t)) : Analyzer.t :=
  fold_left
    (λ a entry, setDocPkg entry.1 (scopeDoc entry.1 (types.Package.Scope entry.2)) a)
    order a.

(** [initialize a env a' err]: run on [a] in [env], it may leave [a']
    and return [err]. *)
Definition initialize (a : Analyzer.t) (env : Env.t) (a' : Analyzer.t)
    (err : option Error) : Prop :=
  match parseRepository a env with
  | (a1, Some cause) => a' = a1 ∧ err = Some (ErrParseRepository cause)
  | (a1, None) =>
      ∃ order order',
        range_order (Analyzer.files a1) order ∧
        let a2 := typeCheckPackages a1 env order in
        range_order (Analyzer.pkgs a2) order' ∧
        a' = setInitialized true (generateDocumentation a2 order') ∧
        err = None
  end.

(** [NewAnalyzerWithConfig]: no analyzer is handed out unless the
    first build succeeds. *)
Definition NewAnalyzerWithConfig (repoPath : string) (config : Config.t) (env : Env.t)
    (r : result Analyzer.t) : Prop :=
  if negb (Env.stat env) then r = Err (ErrNoRepository repoPath)
  else
    ∃ a' err,
      initialize (Analyzer.mk repoPath token.NewFileSet ∅ ∅ false config ∅) env a' err ∧
      r = match err with
          | Some cause => Err (ErrInitialize cause)
          | None => Ok a'
          end.

(** The fields [Refresh] resets before it builds again. *)
Definition clear (a : Analyzer.t) : Analyzer.t :=
  Analyzer.mk (Analyzer.repoPath a) token.NewFileSet ∅ ∅ false (Analyzer.config a) ∅.

Definition Refresh (a : Analyzer.t) (env : Env.t) (a' : Analyzer.t) (err : option Error)
    : Prop :=
  initialize (clear a) env a' err.

Definition Close (a : Analyzer.t) : Analyzer.t := setInitialized false a.

(** One call on the analyzer, with what it returned where that
    matters, and the runs made of such calls. *)
Inductive Call :=
| CallQuery
| CallClose
| CallRefresh (env : Env.t) (err : option Error).

Inductive step : Analyzer.t → Call → Analyzer.t → Prop :=
| step_query a : step a CallQuery a
| step_close a : step a CallClose (Close a)
| step_refresh a env a' err : Refresh a env a' err → step a (CallRefresh env err) a'.

Inductive run : Analyzer.t → list Call → Analyzer.t → Prop :=
| run_nil a : run a [] a
| run_cons a c a' cs a'' : step a c a' → run a' cs a'' → run a (c :: cs) a''.

Definition refreshSucceeds (c : Call) : bool :=
  match c with
  | CallRefresh _ None => true
  | _ => false
  end.

(** ** The cache ([internal/cache])

    An instant is a number of nanoseconds since the Unix epoch;
    [UnixNano] reads it into an [int64], wrapping around.  Values are
    of any type [V] ([interface{}] in the source).  Writing the file
    in [save] may fail: [saved] is the error it returns, and the map
    in memory is updated either way. *)

Module cache.

Definition wrap64 (z : Z) : Z := ((z + 2 ^ 63) mod 2 ^ 64 - 2 ^ 63)%Z.

Definition maxInt64 : Z := (2 ^ 63 - 1)%Z.

Definition UnixNano (instant : Z) : Z := wrap64 instant.

Module cacheEntry.
Record t (V : Type) := mk { Value : V; Expiration : Z }.
Arguments mk {V} Value Expiration.
Arguments Value {V} _.
Arguments Expiration {V} _.
End cacheEntry.

Module Cache.
Record t (V : Type) := mk { data : gmap string (cacheEntry.t V); filePath : string }.
Arguments mk {V} data filePath.
Arguments data {V} _.
Arguments filePath {V} _.
End Cache.

Section Operations.
Context {V : Type}.

(** [Get] at the instant [now]: the value and the [found] flag. *)
Definition Get (c : Cache.t V) (now : Z) (key : string) : option V * bool :=
  match Cache.data c !! key with
  | None => (None, false)
  | Some entry =>
      if (0 <? cacheEntry.Expiration entry)%Z
         && (cacheEntry.Expiration entry <? UnixNano now)%Z
      then (None, false)
      else (Some (cacheEntry.Value entry), true)
  end.

(** [Set] at the instant [now]. *)
Definition Set_ (c : Cache.t V) (now : Z) (key : string) (value : V) (duration : Z)
    (saved : option string) : Cache.t V * option string :=
  let exp := if (0 <? duration)%Z then UnixNano (now + duration) else 0%Z in
  (Cache.mk (<[key := cacheEntry.mk value exp]> (Cache.data c)) (Cache.filePath c),
   saved).

Definition Clear (c : Cache.t V) (saved : option string) : Cache.t V * option string :=
  (Cache.mk ∅ (Cache.filePath c), saved).
End Operations.

End cache.

(** ** A run of calls on the cache *)

Module cacheCall.
Inductive t (V : Type) :=
| Set_ (now : Z) (key : string) (value : V) (duration : Z) (saved : option string)
| Clear (saved : option string).
Arguments Set_ {V} now key value duration saved.
Arguments Clear {V} saved.

(** The cache after the call. *)
Definition apply {V : Type} (c : cache.Cache.t V) (call : t V) : cache.Cache.t V :=
  match call with
  | Set_ now key value duration saved => (cache.Set_ c now key value duration saved).1
  | Clear saved => (cache.Clear c saved).1
  end.

Definition run {V : Type} (c : cache.Cache.t V) (calls : list (t V)) : cache.Cache.t V :=
  fold_left apply calls c.

(** The call writes [key]: it sets it, or clears the whole cache. *)
Definition writes {V : Type} (key : string) (call : t V) : bool :=
  match call with
  | Set_ _ key' _ _ _ => String.eqb key' key
  | Clear _ => true
  end.
End cacheCall.

(** ** The tool manager ([internal/tools])

    [ToolConfig] is declared in a file that is not at hand; the
    manager uses its [Name] and [Description] only, which are taken
    as given.  [Execute] starts an external process and is not
    represented. *)

Module tools.
Section Tools.
Context {ToolConfig : Type} (Name Description : ToolConfig → string).

Record Tool := mkTool { config : ToolConfig }.

Definition NewTool (config : ToolConfig) : Tool := mkTool config.

Definition GetName (t : Tool) : string := Name (config t).

Definition GetDescription (t : Tool) : string := Description (config t).

Record ToolManager := mkToolManager { tools : gmap string Tool }.

Definition NewToolManager : ToolManager := mkToolManager ∅.

Definition RegisterTool (tm : ToolManager) (config : ToolConfig) : ToolManager :=
  mkToolManager (<[Name config := NewTool config]> (tools tm)).

(** [GetTool]: the tool and the [ok] flag. *)
Definition GetTool (tm : ToolManager) (name : string) : option Tool * bool :=
  match tools tm !! name with
  | Some tool => (Some tool, true)
  | None => (None, false)
  end.

(** [ListTools], ranging over [tm.tools] in [order]. *)
Definition ListTools_in (order : list (string * Tool)) : list string :=
  fold_left (λ tools entry, tools ++ [entry.1]) order [].

Definition ListTools (tm : ToolManager) (names : list string) : Prop :=
  ∃ order, range_order (tools tm) order ∧ ListTools_in order = names.

(** The loop of [main] that registers every tool of the
    configuration, in order. *)
Definition registerAll (tm : ToolManager) (configs : list ToolConfig) : ToolManager :=
  fold_left RegisterTool configs tm.
End Tools.
End tools.

(** ** The first analyzer

    The earlier, smaller analyzer of the repository keeps the packages
    only; its [ListMethods] returns method names. *)

Module legacy.

Module Analyzer.
Record t := mk {
  repoPath : string;
  fset : token.FileSet;
  pkgs : gmap string types.Package.t }.
End Analyzer.

Inductive Error :=
| ErrNoMethods (typeName : string).

Definition Error_message (e : Error) : string :=
  match e with
  | ErrNoMethods n => "no methods found for type " +:+ n
  end.

(** One loop over a method set: the names of its method selections
    are appended. *)
Definition methodNames (mset : types.MethodSet) (methods : list string) : list string :=
  fold_left
    (λ methods selection,
       if isMethodVal selection
       then methods ++ [types.Func.Name (types.Selection.Obj selection)]
       else methods)
    mset methods.

(** The body of the package loop: both method sets of the object
    found, the value form first. *)
Definition packageMethods (typeName : string) (methods : list string)
    (entry : string * types.Package.t) : list string :=
  match types.Scope.Lookup (types.Package.Scope entry.2) typeName with
  | Some obj =>
      methodNames (types.Type_.PtrMethodSet (types.Object.Type' obj))
        (methodNames (types.Type_.MethodSet (types.Object.Type' obj)) methods)
  | None => methods
  end.

(** [ListMethods], ranging over [a.pkgs] in [order]; every package is
    visited. *)
Definition ListMethods_in (order : list (string * types.Package.t)) (typeName : string)
    : list string + Error :=
  let methods := fold_left (packageMethods typeName) order [] in
  match methods with
  | [] => inr (ErrNoMethods typeName)
  | _ => inl methods
  end.

Definition ListMethods (a : Analyzer.t) (typeName : string) (r : list string + Error)
    : Prop :=
  ∃ order, range_order (Analyzer.pkgs a) order ∧ ListMethods_in order typeName = r.

End legacy.

(** ** Sample repositories *)

Module Samples.
Import types.
Local Open Scope Z_scope.

(** Every positive [token.Pos] is line [p] of [repo.go]. *)
Definition fset : token.FileSet :=
  λ p, if (0 <? p)%Z then token.Position.mk "repo.go" p p 1
       else token.Position.mk "" 0 0 0.

Definition noResult (name : string) (pos : token.Pos) (recv : string) (sigText : string)
    (result : string) : Func.t :=
  Func.mk name true pos
    (Signature.mk (Some (Var.mk "r" recv false false pos)) []
       [Var.mk "" result false false 0] sigText).

Definition viaValue (f : Func.t) : Selection.t := Selection.mk MethodVal f false.
Definition viaPointer (f : Func.t) : Selection.t := Selection.mk MethodVal f true.

(** [type Circle struct { Radius float64 }] with
    [func (c *Circle) Area() float64]. *)
Definition Area : Func.t :=
  noResult "Area" 30 "*shapes.Circle" "func() float64" "float64".
Definition Radius : Var.t := Var.mk "Radius" "float64" true false 12.
Definition CircleStruct : Struct.t := Struct.mk [Radius] [""].
Definition CircleType : Type_.t :=
  Type_.mk "shapes.Circle" (UStruct CircleStruct) false [] [viaValue Area] 8 8 true.
Definition Circle : Object.t := Object.mk "Circle" true 10 CircleType IsTypeName.

(** [type Point struct { X, Y int `json:"y"` }] with
    [func (p Point) String() string] and [func (p *Point) Scale() int]. *)
Definition String_ : Func.t :=
  noResult "String" 50 "shapes.Point" "func() string" "string".
Definition Scale : Func.t :=
  noResult "Scale" 60 "*shapes.Point" "func() int" "int".
Definition PointStruct : Struct.t :=
  Struct.mk [Var.mk "X" "int" true false 41; Var.mk "Y" "int" true false 42]
    [""; "json:y"].
Definition PointType : Type_.t :=
  Type_.mk "shapes.Point" (UStruct PointStruct) false
    [viaValue String_] [viaValue Scale; viaPointer String_] 16 8 true.
Definition Point : Object.t := Object.mk "Point" true 40 PointType IsTypeName.

(** [type Shape interface { Area() float64; Perimeter() float64 }]:
    the receiver of an interface method is the interface. *)
Definition ShapeArea : Func.t :=
  noResult "Area" 71 "shapes.Shape" "func() float64" "float64".
Definition ShapePerimeter : Func.t :=
  noResult "Perimeter" 72 "shapes.Shape" "func() float64" "float64".
Definition ShapeInterface : Interface.t := Interface.mk [ShapeArea; ShapePerimeter].
Definition ShapeType : Type_.t :=
  Type_.mk "shapes.Shape" (UInterface ShapeInterface) false
    [viaValue ShapeArea; viaValue ShapePerimeter] [] 16 8 true.
Definition Shape : Object.t := Object.mk "Shape" true 70 ShapeType IsTypeName.

Definition scopeOf (objs : list Object.t) : Scope.t :=
  Scope.mk (list_to_map (map (λ obj, (Object.Name obj, obj)) objs)).

Definition shapes : Package.t := Package.mk "shapes" (scopeOf [Circle; Point; Shape]).

Definition docOf (pkgName : string) (pkg : Package.t) : doc.Package.t :=
  scopeDoc pkgName (Package.Scope pkg).

(** The repository of one package [shapes], built. *)
Definition shapesRepo : Analyzer.t :=
  Analyzer.mk "/repo" fset {[ "shapes" := shapes ]}
    {[ "shapes" := docOf "shapes" shapes ]} true DefaultConfig
    {[ "shapes" := ["/repo/shapes.go"] ]}.

(** Two packages that both declare [Config], and [UserAccount] in
    one of them. *)
Definition plainStruct (name : string) (pos : token.Pos) (field : string) : Object.t :=
  Object.mk name true pos
    (Type_.mk name (UStruct (Struct.mk [Var.mk field "string" true false (pos + 1)] []))
       false [] [] 16 8 true)
    IsTypeName.

Definition alphaConfig : Object.t := plainStruct "Config" 10 "Host".
Definition betaConfig : Object.t := plainStruct "Config" 20 "Path".
Definition UserAccount : Object.t := plainStruct "UserAccount" 30 "Email".

Definition alpha : Package.t := Package.mk "alpha" (scopeOf [alphaConfig]).
Definition beta : Package.t := Package.mk "beta" (scopeOf [betaConfig; UserAccount]).

Definition twoConfigs : Analyzer.t :=
  Analyzer.mk "/repo" fset {[ "alpha" := alpha; "beta" := beta ]}
    {[ "alpha" := docOf "alpha" alpha; "beta" := docOf "beta" beta ]} true DefaultConfig
    {[ "alpha" := ["/repo/alpha/a.go"]; "beta" := ["/repo/beta/b.go"] ]}.

(** Two packages that both declare [Circle]: [shapes] with the
    method [Area], [geom] with the method [Perimeter]. *)
Definition Perimeter : Func.t :=
  noResult "Perimeter" 31 "geom.Circle" "func() float64" "float64".
Definition geomCircleType : Type_.t :=
  Type_.mk "geom.Circle" (UStruct CircleStruct) false
    [viaValue Perimeter] [viaPointer Perimeter] 8 8 true.
Definition geomCircle : Object.t := Object.mk "Circle" true 11 geomCircleType IsTypeName.
Definition geom : Package.t := Package.mk "geom" (scopeOf [geomCircle]).

Definition twoCircles : Analyzer.t :=
  Analyzer.mk "/repo" fset {[ "shapes" := shapes; "geom" := geom ]}
    {[ "shapes" := docOf "shapes" shapes; "geom" := docOf "geom" geom ]} true DefaultConfig
    {[ "shapes" := ["/repo/shapes.go"]; "geom" := ["/repo/geom/geom.go"] ]}.

(** A rebuild whose walk reports an error on its second entry. *)
Definition brokenWalk : Env.t :=
  Env.mk true
    [WalkEntry.mk "/repo/shapes.go" None false 100
       (Some (ParsedFile.mk (λ _, None) "shapes" (Some shapes)));
     WalkEntry.mk "/repo/gone" (Some "lstat /repo/gone: permission denied") true 0 None]
    (λ _ _, Rechecked.mk (λ _, None) None).

(** A rebuild that finds the one file of [shapes]. *)
Definition soundWalk : Env.t :=
  Env.mk true
    [WalkEntry.mk "/repo/shapes.go" None false 100
       (Some (ParsedFile.mk (λ _, None) "shapes" (Some shapes)))]
    (λ _ _, Rechecked.mk (λ _, None) (Some shapes)).
End Samples.


(** A program: package [main] with a function, a variable, a
    constant and a type. *)
Module ProgramSample.
Import types.
Local Open Scope Z_scope.

Definition mainSig : Signature.t := Signature.mk None [] [] "func()".
Definition funcType (sig : Signature.t) : Type_.t :=
  Type_.mk (Signature.String sig) USignature false [] [] 8 8 true.
Definition basic (name : string) (size : Z) : Type_.t :=
  Type_.mk name UBasic false [] [] size size true.
(** The type of an untyped constant: [Sizeof] does not return. *)
Definition untyped (name : string) : Type_.t :=
  Type_.mk name UBasic false [] [] 0 0 false.

Definition mainFunc : Object.t := Object.mk "main" false 100 (funcType mainSig) (IsFunc mainSig).
Definition Verbose : Object.t := Object.mk "Verbose" true 20 (basic "bool" 1) IsVar.
Definition MaxDepth : Object.t := Object.mk "MaxDepth" true 30 (untyped "untyped int") (IsConst "8").
Definition Options : Object.t := Samples.plainStruct "Options" 40 "Root".

Definition main : Package.t :=
  Package.mk "main" (Samples.scopeOf [mainFunc; Verbose; MaxDepth; Options]).

Definition repo : Analyzer.t :=
  Analyzer.mk "/app" Samples.fset {[ "main" := main ]}
    {[ "main" := Samples.docOf "main" main ]} true DefaultConfig
    {[ "main" := ["/app/main.go"] ]}.
End ProgramSample.

(** ** Vocabulary of the properties *)

(** [x] comes no later than [y] in Go's order on strings, the
    byte-wise (hence case-sensitive) lexicographic order. *)
Definition ascending {A : Type} (key : A → string) (x y : A) : Prop :=
  String.leb (key x) (key y) = true.

(** The method named [name]. *)
Definition named (name : string) (m : MethodInfo.t) : Prop := MethodInfo.Name m = name.

(** The selection of a method named [name]. *)
Definition selects (name : string) (selection : types.Selection.t) : Prop :=
  isMethodVal selection = true ∧ types.Func.Name (types.Selection.Obj selection) = name.

#[global] Instance named_dec name m : Decision (named name m).
Proof. unfold named. apply _. Defined.

#[global] Instance selects_dec name s : Decision (selects name s).
Proof. unfold selects. apply _. Defined.

(** Package [pkgName] of the analyzer has [typeName] in its scope. *)
Definition declaredIn (a : Analyzer.t) (typeName pkgName : string) : Prop :=
  ∃ pkg, Analyzer.pkgs a !! pkgName = Some pkg ∧
         is_Some (types.Scope.Lookup (types.Package.Scope pkg) typeName).

(** At most one analyzed package has [typeName] in its scope. *)
Definition declaredOnce (a : Analyzer.t) (typeName : string) : Prop :=
  ∀ pkgName pkgName',
    declaredIn a typeName pkgName → declaredIn a typeName pkgName' → pkgName = pkgName'.

(** [name] matches [query]: the test of [SearchTypes]. *)
Definition matches (unicodeLower : string → string) (name query : string) : bool :=
  strings.Contains (strings.ToLower unicodeLower name) (strings.ToLower unicodeLower query).

(** The name of the type declaration found under [name], if there is
    one. *)
Definition typeNameAt (scope : types.Scope.t) (name : string) : option string :=
  match types.Scope.Lookup scope name with
  | Some obj =>
      match types.Object.Class obj with
      | types.IsTypeName => Some (types.Object.Name obj)
      | _ => None
      end
  | None => None
  end.

(** The names of the type declarations of a scope, in the order of
    [Names]. *)
Definition typeNames (scope : types.Scope.t) : list string :=
  omap (typeNameAt scope) (types.Scope.Names scope).

(** The names of all type declarations, package after package in
    visiting order: a name declared in two packages is listed
    twice. *)
Definition allTypeNames (order : list (string * types.Package.t)) : list string :=
  flat_map (λ entry, typeNames (types.Package.Scope entry.2)) order.

Definition hits (unicodeLower : string → string)
    (order : list (string * types.Package.t)) (query : string) : list string :=
  List.filter (λ name, matches unicodeLower name query) (allTypeNames order).

(** Every object sits in its scope under its own name, as
    [Scope.Insert] of [go/types] has it. *)
Definition wellFormed (a : Analyzer.t) : Prop :=
  ∀ pkgName pkg name obj,
    Analyzer.pkgs a !! pkgName = Some pkg →
    types.Scope.Lookup (types.Package.Scope pkg) name = Some obj →
    types.Object.Name obj = name.

Definition wellFormedb (a : Analyzer.t) : bool :=
  forallb
    (λ entry : string * types.Package.t,
       forallb (λ elem : string * types.Object.t,
                  String.eqb (types.Object.Name elem.2) elem.1)
         (map_to_list (types.Scope.elems (types.Package.Scope entry.2))))
    (map_to_list (Analyzer.pkgs a)).

(** [Sizeof] returns for the type of every object of every analyzed
    package. *)
Definition sized (a : Analyzer.t) : Prop :=
  ∀ pkgName pkg name obj,
    Analyzer.pkgs a !! pkgName = Some pkg →
    types.Scope.Lookup (types.Package.Scope pkg) name = Some obj →
    types.Type_.Sized (types.Object.Type' obj) = true.

Definition sizedb (a : Analyzer.t) : bool :=
  forallb
    (λ entry : string * types.Package.t,
       forallb (λ elem : string * types.Object.t,
                  types.Type_.Sized (types.Object.Type' elem.2))
         (map_to_list (types.Scope.elems (types.Package.Scope entry.2))))
    (map_to_list (Analyzer.pkgs a)).

(** A loop that runs its body on each element in turn and panics as
    soon as the body does. *)
Fixpoint range_in {X S : Type} (body : S → X → outcome S) (xs : list X) (s : S)
    : outcome S :=
  match xs with
  | [] => Returns s
  | x :: xs =>
      match body s x with
      | Returns s' => range_in body xs s'
      | Panics => Panics
      end
  end.

(** [SearchTypes] when the outer loop visits the packages in [order]
    and every call of [LookupType] it makes visits them in [inner]. *)
Definition searchName_in (unicodeLower : string → string)
    (a : Analyzer.t) (inner : list (string * types.Package.t))
    (query : string) (scope : types.Scope.t) (results : list TypeInfo.t) (name : string)
    : outcome (list TypeInfo.t) :=
  match typeNameAt scope name with
  | Some typeName =>
      if matches unicodeLower typeName query
      then match LookupType_in a inner typeName with
           | Returns (Ok typeInfo) => Returns (results ++ [typeInfo])
           | Returns (Err _) => Returns results
           | Panics => Panics
           end
      else Returns results
  | None => Returns results
  end.

Definition searchPackage_in (unicodeLower : string → string)
    (a : Analyzer.t) (inner : list (string * types.Package.t))
    (query : string) (results : list TypeInfo.t) (entry : string * types.Package.t)
    : outcome (list TypeInfo.t) :=
  range_in (searchName_in unicodeLower a inner query (types.Package.Scope entry.2))
    (types.Scope.Names (types.Package.Scope entry.2)) results.

Definition SearchTypes_in (unicodeLower : string → string)
    (a : Analyzer.t) (order inner : list (string * types.Package.t))
    (query : string) : outcome (result (list TypeInfo.t)) :=
  outcome_map Ok (range_in (searchPackage_in unicodeLower a inner query) order []).

(** [typeInfo] describes the type [typeName] of package [pkgName]. *)
Definition describes (typeInfo : TypeInfo.t) (pkgName typeName : string) : Prop :=
  TypeInfo.Package typeInfo = pkgName ∧ TypeInfo.Name typeInfo = typeName.

(** Package [pkgName] declares the type [typeName]. *)
Definition declaresType (a : Analyzer.t) (pkgName typeName : string) : Prop :=
  ∃ pkg obj,
    Analyzer.pkgs a !! pkgName = Some pkg ∧
    types.Scope.Lookup (types.Package.Scope pkg) typeName = Some obj ∧
    types.Object.Class obj = types.IsTypeName.

(** The descriptor [AnalyzeRepository] makes of the function, the
    variable or the constant found under [name], if it is one. *)
Definition functionAt (a : Analyzer.t) (pkgName : string) (scope : types.Scope.t)
    (name : string) : option FunctionInfo.t :=
  match types.Scope.Lookup scope name with
  | Some obj =>
      match types.Object.Class obj with
      | types.IsFunc sig => Some (analyzeFunctionObject a obj sig pkgName)
      | _ => None
      end
  | None => None
  end.

Definition variableAt (a : Analyzer.t) (pkgName : string) (scope : types.Scope.t)
    (name : string) : option VariableInfo.t :=
  match types.Scope.Lookup scope name with
  | Some obj =>
      match types.Object.Class obj with
      | types.IsVar => Some (analyzeVariableObject a obj pkgName)
      | _ => None
      end
  | None => None
  end.

Definition constantAt (a : Analyzer.t) (pkgName : string) (scope : types.Scope.t)
    (name : string) : option ConstantInfo.t :=
  match types.Scope.Lookup scope name with
  | Some obj =>
      match types.Object.Class obj with
      | types.IsConst val => Some (analyzeConstantObject a obj val pkgName)
      | _ => None
      end
  | None => None
  end.

(** The descriptors of one kind, package after package in visiting
    order and name after name in the order of [Names]. *)
Definition declarations {D : Type}
    (at_ : string → types.Scope.t → string → option D)
    (order : list (string * types.Package.t)) : list D :=
  flat_map
    (λ entry, omap (at_ entry.1 (types.Package.Scope entry.2))
                (types.Scope.Names (types.Package.Scope entry.2)))
    order.

(** A documentation package as [generateDocumentation] builds them:
    names only, no prose and no example. *)
Definition bare (docPkg : doc.Package.t) : Prop :=
  doc.Package.Doc docPkg = "" ∧
  doc.Package.Examples docPkg = [] ∧
  Forall (λ docType, doc.Type_.Doc docType = "" ∧ doc.Type_.Examples docType = [])
    (doc.Package.Types docPkg) ∧
  Forall (λ docFunc, doc.Func.Examples docFunc = []) (doc.Package.Funcs docPkg).

(** The file passes the filters of [parseRepository] under
    [config]. *)
Definition admitted (config : Config.t) (path : string) : Prop :=
  strings.HasSuffix path ".go" = true ∧
  Forall (λ pattern, strings.Contains path pattern = false)
    (Config.ExcludePatterns config) ∧
  (Config.IncludeTests config = false → strings.HasSuffix path "_test.go" = false).

(** [selects], as a test. *)
Definition selectsb (name : string) (selection : types.Selection.t) : bool :=
  isMethodVal selection
  && String.eqb (types.Func.Name (types.Selection.Obj selection)) name.

(** [AnalyzeRepository] when the two loops over the packages visit
    them in [order] and [order'] and every call of [LookupType] visits
    them in [inner]. *)
Definition analyzeName_in (a : Analyzer.t) (inner : list (string * types.Package.t))
    (pkgName : string) (scope : types.Scope.t) (result : AnalysisResult.t) (name : string)
    : outcome AnalysisResult.t :=
  match types.Scope.Lookup scope name with
  | None => Returns result
  | Some obj =>
      match types.Object.Class obj with
      | types.IsTypeName =>
          match LookupType_in a inner (types.Object.Name obj) with
          | Returns (Ok typeInfo) => Returns (addType typeInfo result)
          | Returns (Err _) => Returns result
          | Panics => Panics
          end
      | types.IsFunc sig =>
          Returns (addFunction (analyzeFunctionObject a obj sig pkgName) result)
      | types.IsVar => Returns (addVariable (analyzeVariableObject a obj pkgName) result)
      | types.IsConst val =>
          Returns (addConstant (analyzeConstantObject a obj val pkgName) result)
      | types.IsOther => Returns result
      end
  end.

Definition analyzePackage_in (a : Analyzer.t) (inner : list (string * types.Package.t))
    (result : AnalysisResult.t) (entry : string * types.Package.t)
    : outcome AnalysisResult.t :=
  range_in (analyzeName_in a inner entry.1 (types.Package.Scope entry.2))
    (types.Scope.Names (types.Package.Scope entry.2)) result.

Definition AnalyzeRepository_in (a : Analyzer.t)
    (order order' inner : list (string * types.Package.t))
    : outcome (result AnalysisResult.t) :=
  if negb (Analyzer.initialized a) then Returns (Err ErrNotInitialized)
  else
    outcome_map
      (λ result,
         Ok (setMetrics
               (fold_left
                  (λ result entry, addPackage (packageInfo a entry.1 entry.2) result)
                  order' result)))
      (range_in (analyzePackage_in a inner) order AnalysisResult.empty).

(** What the walk keeps true: a package is recorded with its files,
    the documentation is left alone, and every file recorded was met
    by the walk and passed its filters. *)
Definition walkKeeps (config : Config.t) (entries : list WalkEntry.t) (a : Analyzer.t)
    : Prop :=
  Analyzer.config a = config ∧
  dom (Analyzer.files a) = dom (Analyzer.pkgs a) ∧
  (∀ pkgName, Analyzer.files a !! pkgName ≠ Some []) ∧
  ∀ pkgName recorded file,
    Analyzer.files a !! pkgName = Some recorded → file ∈ recorded →
    admitted config file ∧
    ∃ entry, entry ∈ entries ∧ WalkEntry.path entry = file ∧
             WalkEntry.err entry = None ∧ WalkEntry.IsDir entry = false ∧
             (WalkEntry.Size entry ≤ Config.MaxFileSize config)%Z.

(** The state every build starts from: packages, documentation and
    files are empty. *)
Definition blank (a : Analyzer.t) : Prop :=
  Analyzer.pkgs a = ∅ ∧ Analyzer.docPkgs a = ∅ ∧ Analyzer.files a = ∅.

(** The repository [shapes] rebuilt from its one file. *)
Definition rebuilt : Analyzer.t :=
  let a1 := (parseRepository (clear Samples.shapesRepo) Samples.soundWalk).1 in
  let a2 := typeCheckPackages a1 Samples.soundWalk (map_to_list (Analyzer.files a1)) in
  setInitialized true (generateDocumentation a2 (map_to_list (Analyzer.pkgs a2))).

(** The method names of one method set, in its order. *)
Definition selectedNames (mset : types.MethodSet) : list string :=
  map (λ s, types.Func.Name (types.Selection.Obj s)) (List.filter isMethodVal mset).

(** What one package contributes for [typeName]. *)
Definition contributed (typeName : string) (entry : string * types.Package.t)
    : list string :=
  match types.Scope.Lookup (types.Package.Scope entry.2) typeName with
  | Some obj =>
      selectedNames (types.Type_.MethodSet (types.Object.Type' obj)) ++
      selectedNames (types.Type_.PtrMethodSet (types.Object.Type' obj))
  | None => []
  end.

(** * Properties *)

(** ** The byte-wise order on strings *)

Section StringOrder.

Lemma ascii_compare_refl (c : ascii) : Ascii.compare c c = Eq.
Proof. unfold Ascii.compare. apply N.compare_refl. Qed.

Lemma ascii_compare_trans (a b c : ascii) :
  Ascii.compare a b = Lt → Ascii.compare b c = Lt → Ascii.compare a c = Lt.
Proof.
  unfold Ascii.compare. rewrite !N.compare_lt_iff. apply N.lt_trans.
Qed.

Lemma string_compare_refl (s : string) : String.compare s s = Eq.
Proof. induction s as [|c s IH]; simpl; [done|]. by rewrite ascii_compare_refl. Qed.

Lemma string_compare_trans (s1 s2 s3 : string) :
  String.compare s1 s2 = Lt → String.compare s2 s3 = Lt → String.compare s1 s3 = Lt.
Proof.
  revert s2 s3. induction s1 as [|a s1 IH]; intros [|b s2] [|c s3]; simpl; try done.
  destruct (Ascii.compare a b) eqn:Hab; try done;
    destruct (Ascii.compare b c) eqn:Hbc; try done; intros H12 H23.
  - apply Ascii.compare_eq_iff in Hab, Hbc. subst.
    rewrite ascii_compare_refl. by eapply IH.
  - apply Ascii.compare_eq_iff in Hab. subst. by rewrite Hbc.
  - apply Ascii.compare_eq_iff in Hbc. subst. by rewrite Hab.
  - by rewrite (ascii_compare_trans _ _ _ Hab Hbc).
Qed.

Lemma string_ltb_leb (s t : string) : String.ltb s t = true → String.leb s t = true.
Proof. unfold String.ltb, String.leb. by destruct (String.compare s t). Qed.

Lemma string_ltb_false_leb (s t : string) : String.ltb s t = false → String.leb t s = true.
Proof.
  unfold String.ltb, String.leb. rewrite (String.compare_antisym t s).
  by destruct (String.compare s t).
Qed.

Lemma string_leb_refl (s : string) : String.leb s s = true.
Proof. unfold String.leb. by rewrite string_compare_refl. Qed.

Lemma string_leb_trans (s1 s2 s3 : string) :
  String.leb s1 s2 = true → String.leb s2 s3 = true → String.leb s1 s3 = true.
Proof.
  unfold String.leb.
  destruct (String.compare s1 s2) eqn:H12; try done;
    destruct (String.compare s2 s3) eqn:H23; try done; intros _ _.
  - apply String.compare_eq_iff in H12, H23. subst. by rewrite string_compare_refl.
  - apply String.compare_eq_iff in H12. subst. by rewrite H23.
  - apply String.compare_eq_iff in H23. subst. by rewrite H12.
  - by rewrite (string_compare_trans _ _ _ H12 H23).
Qed.

End StringOrder.

(** ** [sort.Slice] returns a sorted permutation *)

Section SortSlice.
Context {A : Type} (key : A → string).

Let less (x y : A) : bool := String.ltb (key x) (key y).

Lemma sink_perm (x : A) (prefix : list A) : sort.sink less x prefix ≡ₚ x :: prefix.
Proof.
  induction prefix as [|y prefix IH]; simpl; [done|].
  destruct (less x y); [|done].
  rewrite IH. apply perm_swap.
Qed.

Lemma sink_sorted (x : A) (prefix : list A) :
  StronglySorted (flip (ascending key)) prefix →
  StronglySorted (flip (ascending key)) (sort.sink less x prefix).
Proof.
  induction prefix as [|y prefix IH]; simpl; intros Hs.
  - repeat constructor.
  - apply StronglySorted_inv in Hs as [Hs Hy].
    destruct (less x y) eqn:Hxy.
    + constructor; [by apply IH|].
      rewrite sink_perm. constructor; [|done].
      by apply string_ltb_leb.
    + constructor; [by constructor|].
      assert (ascending key y x) as Hyx by by apply string_ltb_false_leb.
      constructor; [done|].
      eapply Forall_impl; [exact Hy|]. intros z Hz. unfold flip, ascending in *.
      by eapply string_leb_trans.
Qed.

Lemma sorted_rev (l : list A) :
  StronglySorted (flip (ascending key)) l → StronglySorted (ascending key) (rev l).
Proof.
  induction l as [|x l IH]; simpl; intros Hs; [constructor|].
  apply StronglySorted_inv in Hs as [Hs Hx].
  apply StronglySorted_app_2; [|by apply IH|repeat constructor].
  intros y z Hy Hz. apply list_elem_of_singleton in Hz as ->.
  rewrite list_elem_of_In, <- in_rev, <- list_elem_of_In in Hy.
  rewrite Forall_forall in Hx. by apply Hx.
Qed.

Lemma passes_perm (data prefix : list A) :
  fold_left (λ prefix x, sort.sink less x prefix) data prefix ≡ₚ rev data ++ prefix.
Proof.
  revert prefix. induction data as [|x data IH]; intros prefix; simpl; [done|].
  by rewrite IH, sink_perm, <- app_assoc.
Qed.

Lemma passes_sorted (data prefix : list A) :
  StronglySorted (flip (ascending key)) prefix →
  StronglySorted (flip (ascending key)) (fold_left (λ prefix x, sort.sink less x prefix) data prefix).
Proof.
  revert prefix. induction data as [|x data IH]; intros prefix Hs; simpl; [done|].
  by apply IH, sink_sorted.
Qed.

Lemma Slice_perm (data : list A) : sort.Slice less data ≡ₚ data.
Proof.
  unfold sort.Slice. rewrite <- Permutation_rev, passes_perm.
  by rewrite app_nil_r, <- Permutation_rev.
Qed.

Lemma Slice_sorted (data : list A) : StronglySorted (ascending key) (sort.Slice less data).
Proof. apply sorted_rev, passes_sorted. constructor. Qed.

End SortSlice.

(** ** The receiver method resolver: [getTypeMethods] *)

Section MethodResolver.
Context (a : Analyzer.t).

Lemma found_spec (methods : list MethodInfo.t) (name : string) :
  found methods name = true ↔ ∃ m, m ∈ methods ∧ named name m.
Proof.
  unfold found, named. rewrite existsb_exists. split.
  - intros (m & Hin & Heq). exists m. by rewrite list_elem_of_In, <- String.eqb_eq.
  - intros (m & Hin & Heq). exists m. by rewrite <- list_elem_of_In, String.eqb_eq.
Qed.

(** The first loop appends one descriptor per method selection, in
    the order of the method set. *)
Lemma valuePass_spec (mset : types.MethodSet) (methods : list MethodInfo.t) :
  valuePass a mset methods =
  methods ++ map (λ s, methodInfo a s (types.Selection.Indirect s))
               (List.filter isMethodVal mset).
Proof.
  unfold valuePass. revert methods.
  induction mset as [|s mset IH]; intros methods; simpl.
  - by rewrite app_nil_r.
  - rewrite IH. destruct (isMethodVal s); simpl; [|done].
    by rewrite <- app_assoc.
Qed.




Lemma getTypeMethods_perm (t : types.Type_.t) :
  getTypeMethods a t ≡ₚ
  (if types.Type_.IsPointer t then valuePass a (types.Type_.MethodSet t) []
   else pointerPass a (types.Type_.PtrMethodSet t) (valuePass a (types.Type_.MethodSet t) [])).
Proof. unfold getTypeMethods. apply (Slice_perm MethodInfo.Name). Qed.

Lemma getTypeMethods_sorted (t : types.Type_.t) :
  StronglySorted (ascending MethodInfo.Name) (getTypeMethods a t).
Proof. unfold getTypeMethods. apply (Slice_sorted MethodInfo.Name). Qed.


End MethodResolver.

(** ** The type model builder: [LookupType] and [ListMethods] *)

Section TypeModelBuilder.
Context (a : Analyzer.t).

(** Whatever the [switch] on the underlying type stored in [Methods],
    the assignment after it replaces it. *)
Lemma buildTypeInfo_Methods typeName pkgName pkg obj :
  TypeInfo.Methods (buildTypeInfo a typeName pkgName pkg obj) =
  getTypeMethods a (types.Object.Type' obj).
Proof. reflexivity. Qed.

Lemma buildTypeInfo_Fields typeName pkgName pkg obj structType :
  types.Type_.Underlying (types.Object.Type' obj) = types.UStruct structType →
  TypeInfo.Fields (buildTypeInfo a typeName pkgName pkg obj) =
  analyzeStructFields a structType (types.Object.Type' obj).
Proof. intros Hu. unfold buildTypeInfo, analyzeUnderlying. by rewrite Hu. Qed.

Lemma buildTypeInfo_Name typeName pkgName pkg obj :
  TypeInfo.Name (buildTypeInfo a typeName pkgName pkg obj) = typeName.
Proof.
  unfold buildTypeInfo, analyzeUnderlying.
  by destruct (types.Type_.Underlying (types.Object.Type' obj)).
Qed.

Lemma buildTypeInfo_Package typeName pkgName pkg obj :
  TypeInfo.Package (buildTypeInfo a typeName pkgName pkg obj) = pkgName.
Proof.
  unfold buildTypeInfo, analyzeUnderlying.
  by destruct (types.Type_.Underlying (types.Object.Type' obj)).
Qed.

Lemma LookupType_range_Ok order typeName typeInfo :
  LookupType_range a order typeName = Returns (Ok typeInfo) →
  ∃ pkgName pkg obj,
    (pkgName, pkg) ∈ order ∧
    types.Scope.Lookup (types.Package.Scope pkg) typeName = Some obj ∧
    typeInfo = buildTypeInfo a typeName pkgName pkg obj.
Proof.
  induction order as [|[pkgName pkg] order IH]; simpl; [done|].
  destruct (types.Scope.Lookup (types.Package.Scope pkg) typeName) as [obj|] eqn:Hobj.
  - destruct (types.Type_.Sized (types.Object.Type' obj)); [|done].
    intros [= <-]. exists pkgName, pkg, obj. split; [left|done].
  - intros (k & p & o & Hin & Ho & ->)%IH. exists k, p, o. split; [by right|done].
Qed.

(** The object a successful lookup found is one [Sizeof] returns
    for. *)
Lemma LookupType_range_Sized order typeName typeInfo :
  LookupType_range a order typeName = Returns (Ok typeInfo) →
  ∃ pkgName pkg obj,
    (pkgName, pkg) ∈ order ∧
    types.Scope.Lookup (types.Package.Scope pkg) typeName = Some obj ∧
    types.Type_.Sized (types.Object.Type' obj) = true ∧
    typeInfo = buildTypeInfo a typeName pkgName pkg obj.
Proof.
  induction order as [|[pkgName pkg] order IH]; simpl; [done|].
  destruct (types.Scope.Lookup (types.Package.Scope pkg) typeName) as [obj|] eqn:Hobj.
  - destruct (types.Type_.Sized (types.Object.Type' obj)) eqn:Hsized; [|done].
    intros [= <-]. exists pkgName, pkg, obj. split; [left|done].
  - intros (k & p & o & Hin & Ho & Hs & ->)%IH. exists k, p, o. split; [by right|done].
Qed.

Lemma LookupType_range_Err order typeName err :
  LookupType_range a order typeName = Returns (Err err) →
  err = ErrTypeNotFound typeName ∧
  ∀ pkgName pkg, (pkgName, pkg) ∈ order →
    types.Scope.Lookup (types.Package.Scope pkg) typeName = None.
Proof.
  induction order as [|[pkgName pkg] order IH]; simpl.
  - intros [= <-]. split; [done|]. intros k p Hin. by apply elem_of_nil in Hin.
  - destruct (types.Scope.Lookup (types.Package.Scope pkg) typeName) as [obj|] eqn:Hobj.
    { by destruct (types.Type_.Sized (types.Object.Type' obj)). }
    intros [-> Hnone]%IH. split; [done|].
    intros k p [[= -> ->]|Hin]%elem_of_cons; [done|]. by eapply Hnone.
Qed.

(** A lookup panics on an object [Sizeof] does not return for. *)
Lemma LookupType_range_Panics order typeName :
  LookupType_range a order typeName = Panics →
  ∃ pkgName pkg obj,
    (pkgName, pkg) ∈ order ∧
    types.Scope.Lookup (types.Package.Scope pkg) typeName = Some obj ∧
    types.Type_.Sized (types.Object.Type' obj) = false.
Proof.
  induction order as [|[pkgName pkg] order IH]; simpl; [done|].
  destruct (types.Scope.Lookup (types.Package.Scope pkg) typeName) as [obj|] eqn:Hobj.
  - destruct (types.Type_.Sized (types.Object.Type' obj)) eqn:Hsized; [done|].
    intros _. exists pkgName, pkg, obj. split; [left|done].
  - intros (k & p & o & Hin & Ho & Hs)%IH. exists k, p, o. split; [by right|done].
Qed.

Lemma range_order_lookup {V : Type} (m : gmap string V) order k v :
  range_order m order → (k, v) ∈ order ↔ m !! k = Some v.
Proof. intros Ho. unfold range_order in Ho. by rewrite Ho, elem_of_map_to_list. Qed.

Lemma LookupType_Ok typeName typeInfo :
  LookupType a typeName (Ok typeInfo) →
  Analyzer.initialized a = true ∧
  ∃ pkgName pkg obj,
    Analyzer.pkgs a !! pkgName = Some pkg ∧
    types.Scope.Lookup (types.Package.Scope pkg) typeName = Some obj ∧
    typeInfo = buildTypeInfo a typeName pkgName pkg obj.
Proof.
  intros (order & Ho & Hr). unfold LookupType_in in Hr.
  destruct (Analyzer.initialized a); simpl in Hr; [|done]. split; [done|].
  apply LookupType_range_Ok in Hr as (k & p & o & Hin & Hobj & ->).
  exists k, p, o. by rewrite <- (range_order_lookup _ order).
Qed.

Lemma LookupType_not_initialized typeName r :
  Analyzer.initialized a = false → LookupType a typeName r → r = Err ErrNotInitialized.
Proof.
  intros Hi (order & _ & Hr). unfold LookupType_in in Hr. rewrite Hi in Hr. simpl in Hr.
  congruence.
Qed.

Lemma ListMethods_not_initialized typeName r :
  Analyzer.initialized a = false → ListMethods a typeName r → r = Err ErrNotInitialized.
Proof.
  intros Hi (order & _ & Hr). unfold ListMethods_in, LookupType_in in Hr.
  rewrite Hi in Hr. simpl in Hr. congruence.
Qed.

(** When at most one package has the name, the visiting order does
    not matter to a lookup. *)
Lemma LookupType_in_declaredOnce order order' typeName :
  declaredOnce a typeName →
  range_order (Analyzer.pkgs a) order → range_order (Analyzer.pkgs a) order' →
  LookupType_in a order typeName = LookupType_in a order' typeName.
Proof.
  intros Honce Ho1 Ho2. unfold LookupType_in.
  destruct (Analyzer.initialized a); simpl; [|done].
  assert (∀ order1 order2,
            range_order (Analyzer.pkgs a) order1 → range_order (Analyzer.pkgs a) order2 →
            ∀ k p o, (k, p) ∈ order1 →
              types.Scope.Lookup (types.Package.Scope p) typeName = Some o →
              (∀ k' p' o', (k', p') ∈ order2 →
                 types.Scope.Lookup (types.Package.Scope p') typeName = Some o' →
                 k' = k ∧ p' = p ∧ o' = o)) as Hsame.
  { intros order1 order2 H1 H2 k p o Hin Hobj k' p' o' Hin' Hobj'.
    rewrite (range_order_lookup _ _ _ _ H1) in Hin.
    rewrite (range_order_lookup _ _ _ _ H2) in Hin'.
    assert (k' = k) as ->.
    { apply Honce; eexists; (split; [eassumption|]); by eexists. }
    split; [done|]. assert (p' = p) as -> by congruence. split; [done|congruence]. }
  destruct (LookupType_range a order typeName) as [[t1|e1]|] eqn:H1;
    destruct (LookupType_range a order' typeName) as [[t2|e2]|] eqn:H2; try done.
  - apply LookupType_range_Ok in H1 as (k1 & p1 & o1 & Hin1 & Hobj1 & ->).
    apply LookupType_range_Ok in H2 as (k2 & p2 & o2 & Hin2 & Hobj2 & ->).
    by destruct (Hsame _ _ Ho1 Ho2 _ _ _ Hin1 Hobj1 _ _ _ Hin2 Hobj2) as (-> & -> & ->).
  - apply LookupType_range_Ok in H1 as (k1 & p1 & o1 & Hin1 & Hobj1 & ->).
    apply LookupType_range_Err in H2 as [_ Hnone].
    rewrite (range_order_lookup _ _ _ _ Ho1) in Hin1.
    rewrite <- (range_order_lookup _ _ _ _ Ho2) in Hin1.
    apply Hnone in Hin1. congruence.
  - apply LookupType_range_Sized in H1 as (k1 & p1 & o1 & Hin1 & Hobj1 & Hs1 & ->).
    apply LookupType_range_Panics in H2 as (k2 & p2 & o2 & Hin2 & Hobj2 & Hs2).
    destruct (Hsame _ _ Ho1 Ho2 _ _ _ Hin1 Hobj1 _ _ _ Hin2 Hobj2) as (-> & -> & ->).
    congruence.
  - apply LookupType_range_Ok in H2 as (k2 & p2 & o2 & Hin2 & Hobj2 & ->).
    apply LookupType_range_Err in H1 as [_ Hnone].
    rewrite (range_order_lookup _ _ _ _ Ho2) in Hin2.
    rewrite <- (range_order_lookup _ _ _ _ Ho1) in Hin2.
    apply Hnone in Hin2. congruence.
  - apply LookupType_range_Err in H1 as [-> _].
    by apply LookupType_range_Err in H2 as [-> _].
  - apply LookupType_range_Err in H1 as [_ Hnone].
    apply LookupType_range_Panics in H2 as (k2 & p2 & o2 & Hin2 & Hobj2 & Hs2).
    rewrite (range_order_lookup _ _ _ _ Ho2) in Hin2.
    rewrite <- (range_order_lookup _ _ _ _ Ho1) in Hin2.
    apply Hnone in Hin2. congruence.
  - apply LookupType_range_Panics in H1 as (k1 & p1 & o1 & Hin1 & Hobj1 & Hs1).
    apply LookupType_range_Sized in H2 as (k2 & p2 & o2 & Hin2 & Hobj2 & Hs2 & ->).
    destruct (Hsame _ _ Ho1 Ho2 _ _ _ Hin1 Hobj1 _ _ _ Hin2 Hobj2) as (-> & -> & ->).
    congruence.
  - apply LookupType_range_Panics in H1 as (k1 & p1 & o1 & Hin1 & Hobj1 & Hs1).
    apply LookupType_range_Err in H2 as [_ Hnone].
    rewrite (range_order_lookup _ _ _ _ Ho1) in Hin1.
    rewrite <- (range_order_lookup _ _ _ _ Ho2) in Hin1.
    apply Hnone in Hin1. congruence.
Qed.

End TypeModelBuilder.

(** Outcomes of [LookupType] on the sample repositories. *)
Ltac visit_in_map_order :=
  eexists; split; [unfold range_order; reflexivity | vm_compute; reflexivity].

(** The repository [shapes]: [Circle] is a struct of one field whose
    only method, [Area], has a pointer receiver. *)
Example LookupType_Circle :
  ∃ typeInfo,
    LookupType Samples.shapesRepo "Circle" (Ok typeInfo) ∧
    TypeInfo.Kind typeInfo = "struct" ∧
    map (λ f, (FieldInfo.Name f, FieldInfo.Type' f, FieldInfo.Exported f,
               FieldInfo.Embedded f))
      (TypeInfo.Fields typeInfo) = [("Radius", "float64", true, false)] ∧
    map (λ m, (MethodInfo.Name m, MethodInfo.IsPointer m, MethodInfo.Exported m))
      (TypeInfo.Methods typeInfo) = [("Area", true, true)].
Proof.
  exists (buildTypeInfo Samples.shapesRepo "Circle" "shapes" Samples.shapes Samples.Circle).
  split; [visit_in_map_order|]. repeat split; vm_compute; reflexivity.
Qed.

(** C5. The [Methods] of every descriptor [LookupType] returns, and
    every list [ListMethods] returns, is sorted by method name in
    ascending byte-wise (case-sensitive) order. *)
Theorem methods_sorted_by_name (a : Analyzer.t) (typeName : string) :
  (∀ typeInfo, LookupType a typeName (Ok typeInfo) →
     StronglySorted (ascending MethodInfo.Name) (TypeInfo.Methods typeInfo)) ∧
  (∀ methods, ListMethods a typeName (Ok methods) →
     StronglySorted (ascending MethodInfo.Name) methods).
Proof.
  split.
  - intros typeInfo (_ & k & p & o & _ & _ & ->)%LookupType_Ok.
    rewrite buildTypeInfo_Methods. apply getTypeMethods_sorted.
  - intros methods (order & Ho & Hr). unfold ListMethods_in in Hr.
    destruct (LookupType_in a order typeName) as [[typeInfo|]|] eqn:Hl; [|done|done].
    injection Hr as <-.
    assert (LookupType a typeName (Ok typeInfo)) as Hlookup by by exists order.
    apply LookupType_Ok in Hlookup as (_ & k & p & o & _ & _ & ->).
    rewrite buildTypeInfo_Methods. apply getTypeMethods_sorted.
Qed.

Lemma methods_sorted_by_name_witness :
  StronglySorted (ascending MethodInfo.Name)
    (TypeInfo.Methods
       (buildTypeInfo Samples.shapesRepo "Point" "shapes" Samples.shapes Samples.Point)) ∧
  StronglySorted (ascending MethodInfo.Name)
    (getTypeMethods Samples.shapesRepo Samples.PointType).
Proof.
  split.
  - apply (proj1 (methods_sorted_by_name Samples.shapesRepo "Point")).
    exists (map_to_list (Analyzer.pkgs Samples.shapesRepo)).
    split; [unfold range_order; reflexivity | vm_compute; reflexivity].
  - apply (proj2 (methods_sorted_by_name Samples.shapesRepo "Point")).
    exists (map_to_list (Analyzer.pkgs Samples.shapesRepo)).
    split; [unfold range_order; reflexivity | vm_compute; reflexivity].
Defined.



(** ** Struct fields *)

Section StructFields.
Context (a : Analyzer.t) (structType : types.Struct.t).

Lemma analyzeStructFields_loop_spec (n i : nat) (fields : list FieldInfo.t) :
  analyzeStructFields_loop a structType n i fields =
  fields ++ imap (λ j, fieldInfo a structType (i + j))
              (take n (drop i (types.Struct.fields structType))).
Proof.
  revert i fields. induction n as [|n IH]; intros i fields; simpl.
  - by rewrite app_nil_r.
  - unfold types.Struct.Field.
    destruct (types.Struct.fields structType !! i) as [field|] eqn:Hfield.
    + rewrite IH. rewrite (drop_S _ field i) by done. simpl.
      rewrite <- app_assoc. simpl. rewrite Nat.add_0_r. do 2 f_equal.
      apply imap_ext. intros j x _. simpl. f_equal. lia.
    + rewrite drop_ge by by apply lookup_ge_None. by rewrite app_nil_r.
Qed.

Lemma analyzeStructFields_spec (namedType : types.Type_.t) :
  analyzeStructFields a structType namedType =
  imap (fieldInfo a structType) (types.Struct.fields structType).
Proof.
  unfold analyzeStructFields, types.Struct.NumFields.
  rewrite analyzeStructFields_loop_spec. simpl. by rewrite drop_0, firstn_all.
Qed.

End StructFields.

(** C7. For a type whose underlying shape is a struct of [N] fields,
    the [Fields] of the descriptor [LookupType] builds has length [N]
    and its [i]-th entry carries the name, type string, raw tag,
    exported flag and embedded flag of the [i]-th declared field. *)
Theorem struct_fields_in_declaration_order (a : Analyzer.t) (typeName pkgName : string)
    (pkg : types.Package.t) (obj : types.Object.t) (structType : types.Struct.t) :
  types.Type_.Underlying (types.Object.Type' obj) = types.UStruct structType →
  let fields := TypeInfo.Fields (buildTypeInfo a typeName pkgName pkg obj) in
  length fields = types.Struct.NumFields structType ∧
  ∀ i field,
    types.Struct.Field structType i = Some field →
    fields !! i =
    Some {| FieldInfo.Name := types.Var.Name field;
            FieldInfo.Type' := types.Var.TypeString field;
            FieldInfo.Tag := types.Struct.Tag structType i;
            FieldInfo.Doc := "";
            FieldInfo.Position := position a (types.Var.Pos field);
            FieldInfo.Exported := types.Var.Exported field;
            FieldInfo.Embedded := types.Var.Embedded field |}.
Proof.
  intros Hu fields. subst fields.
  rewrite (buildTypeInfo_Fields _ _ _ _ _ _ Hu), analyzeStructFields_spec. split.
  - by rewrite length_imap.
  - intros i field Hfield. unfold types.Struct.Field in Hfield.
    by rewrite list_lookup_imap, Hfield.
Qed.

Lemma struct_fields_in_declaration_order_witness :
  let fields :=
    TypeInfo.Fields
      (buildTypeInfo Samples.shapesRepo "Point" "shapes" Samples.shapes Samples.Point) in
  length fields = 2 ∧
  fields !! 1 =
  Some (FieldInfo.mk "Y" "int" "json:y" "" (Position.mk "repo.go" 42 1) true false).
Proof.
  destruct (struct_fields_in_declaration_order Samples.shapesRepo "Point" "shapes"
              Samples.shapes Samples.Point Samples.PointStruct) as [Hlen Hnth].
  - reflexivity.
  - split; [exact Hlen|]. apply (Hnth 1 (types.Var.mk "Y" "int" true false 42%Z)).
    reflexivity.
Defined.

(** C9, as stated, fails: with [Circle] declared in [shapes] and in
    [geom], [ListMethods] may visit [shapes] first and return its
    method [Area] while a call of [LookupType] visits [geom] first
    and returns a descriptor whose only method is [Perimeter]. *)
Lemma ListMethods_differs_from_LookupType :
  ¬ (∀ r r',
       ListMethods Samples.twoCircles "Circle" r →
       LookupType Samples.twoCircles "Circle" r' →
       r = result_map TypeInfo.Methods r').
Proof.
  intros Hsame.
  assert (ListMethods Samples.twoCircles "Circle"
            (Ok (getTypeMethods Samples.twoCircles Samples.CircleType))) as H1.
  { exists [("shapes", Samples.shapes); ("geom", Samples.geom)].
    split; [|reflexivity]. unfold range_order. vm_compute.
    first [reflexivity | apply perm_swap]. }
  assert (LookupType Samples.twoCircles "Circle"
            (Ok (buildTypeInfo Samples.twoCircles "Circle" "geom" Samples.geom
                   Samples.geomCircle))) as H2.
  { exists [("geom", Samples.geom); ("shapes", Samples.shapes)].
    split; [|reflexivity]. unfold range_order. vm_compute.
    first [reflexivity | apply perm_swap]. }
  specialize (Hsame _ _ H1 H2). vm_compute in Hsame. discriminate Hsame.
Qed.

(** C9, amended. [ListMethods] is one call of [LookupType] cut down
    to the [Methods] of the descriptor: visiting the packages in the
    same order it returns the same list on success and the same error
    on failure, and panics when the lookup does, so that each of its
    results is made of a result [LookupType] may return.  When at most
    one analyzed package has the name, it is made of the result every
    call of [LookupType] returns. *)
Theorem ListMethods_returns_LookupType_Methods (a : Analyzer.t) (typeName : string) :
  (∀ order,
     ListMethods_in a order typeName =
     outcome_map (result_map TypeInfo.Methods) (LookupType_in a order typeName)) ∧
  (∀ r, ListMethods a typeName r ↔
        ∃ r', LookupType a typeName r' ∧ r = result_map TypeInfo.Methods r') ∧
  (ListMethods_panics a typeName ↔ LookupType_panics a typeName) ∧
  (declaredOnce a typeName →
   ∀ r r', ListMethods a typeName r → LookupType a typeName r' →
     r = result_map TypeInfo.Methods r').
Proof.
  assert (∀ order,
            ListMethods_in a order typeName =
            outcome_map (result_map TypeInfo.Methods) (LookupType_in a order typeName))
    as Hin.
  { intros order. unfold ListMethods_in.
    by destruct (LookupType_in a order typeName) as [[typeInfo|err]|]. }
  split; [done|]. split; [|split].
  - intros r. split.
    + intros (order & Ho & Hr). rewrite Hin in Hr.
      destruct (LookupType_in a order typeName) as [r'|] eqn:Hl; [|done].
      injection Hr as <-. exists r'. split; [by exists order|done].
    + intros (r' & (order & Ho & Hl) & ->). exists order. split; [done|].
      by rewrite Hin, Hl.
  - split; intros (order & Ho & Hp); exists order; (split; [done|]).
    + rewrite Hin in Hp. by destruct (LookupType_in a order typeName).
    + by rewrite Hin, Hp.
  - intros Honce r r' (order & Ho & Hr) (order' & Ho' & Hl).
    rewrite Hin, (LookupType_in_declaredOnce a order order' typeName Honce Ho Ho'), Hl
      in Hr.
    simpl in Hr. congruence.
Qed.

Lemma declaredOnce_shapes (typeName : string) : declaredOnce Samples.shapesRepo typeName.
Proof.
  intros k1 k2 (p1 & H1 & _) (p2 & H2 & _). unfold Samples.shapesRepo in *. simpl in *.
  apply lookup_singleton_Some in H1 as [<- _].
  by apply lookup_singleton_Some in H2 as [<- _].
Qed.

Lemma ListMethods_returns_LookupType_Methods_witness :
  ∃ methods typeInfo,
    ListMethods Samples.shapesRepo "Point" (Ok methods) ∧
    LookupType Samples.shapesRepo "Point" (Ok typeInfo) ∧
    Ok methods = result_map TypeInfo.Methods (Ok typeInfo).
Proof.
  exists (getTypeMethods Samples.shapesRepo Samples.PointType),
    (buildTypeInfo Samples.shapesRepo "Point" "shapes" Samples.shapes Samples.Point).
  assert (ListMethods Samples.shapesRepo "Point"
            (Ok (getTypeMethods Samples.shapesRepo Samples.PointType))) as H1
    by visit_in_map_order.
  assert (LookupType Samples.shapesRepo "Point"
            (Ok (buildTypeInfo Samples.shapesRepo "Point" "shapes" Samples.shapes
                   Samples.Point))) as H2
    by visit_in_map_order.
  split; [exact H1|]. split; [exact H2|].
  exact (proj2 (proj2 (proj2 (ListMethods_returns_LookupType_Methods
                                Samples.shapesRepo "Point")))
           (declaredOnce_shapes "Point") _ _ H1 H2).
Defined.

(** ** Repeated lookups *)

(** C4, as stated, fails: with [Config] declared in two packages,
    one call may visit [alpha] first and the next [beta] first, and
    the two descriptors differ in their package. *)
Lemma LookupType_repeated_differs :
  ¬ (∀ r1 r2,
       LookupType Samples.twoConfigs "Config" r1 →
       LookupType Samples.twoConfigs "Config" r2 →
       r1 = r2).
Proof.
  intros Hsame.
  assert (LookupType Samples.twoConfigs "Config"
            (Ok (buildTypeInfo Samples.twoConfigs "Config" "alpha" Samples.alpha
                   Samples.alphaConfig))) as H1.
  { exists [("alpha", Samples.alpha); ("beta", Samples.beta)].
    split; [|reflexivity]. unfold range_order. vm_compute. reflexivity. }
  assert (LookupType Samples.twoConfigs "Config"
            (Ok (buildTypeInfo Samples.twoConfigs "Config" "beta" Samples.beta
                   Samples.betaConfig))) as H2.
  { exists [("beta", Samples.beta); ("alpha", Samples.alpha)].
    split; [|reflexivity]. unfold range_order. vm_compute. apply perm_swap. }
  specialize (Hsame _ _ H1 H2). vm_compute in Hsame. discriminate Hsame.
Qed.

(** C4, amended. When at most one analyzed package declares the
    name, any two calls of [LookupType] with it on the same analyzer
    return the same result. *)
Theorem LookupType_repeated_same (a : Analyzer.t) (typeName : string)
    (r1 r2 : result TypeInfo.t) :
  declaredOnce a typeName →
  LookupType a typeName r1 → LookupType a typeName r2 → r1 = r2.
Proof.
  intros Honce (order1 & Ho1 & H1) (order2 & Ho2 & H2).
  rewrite (LookupType_in_declaredOnce a order1 order2 typeName Honce Ho1 Ho2) in H1.
  congruence.
Qed.

Lemma LookupType_repeated_same_witness :
  ∃ r1 r2,
    LookupType Samples.shapesRepo "Circle" r1 ∧
    LookupType Samples.shapesRepo "Circle" r2 ∧
    r1 = r2.
Proof.
  assert (LookupType Samples.shapesRepo "Circle"
            (Ok (buildTypeInfo Samples.shapesRepo "Circle" "shapes" Samples.shapes
                   Samples.Circle))) as H
    by visit_in_map_order.
  eexists _, _. split; [exact H|]. split; [exact H|].
  exact (LookupType_repeated_same Samples.shapesRepo "Circle" _ _
           (declaredOnce_shapes "Circle") H H).
Defined.

(** ** Interface types *)

(** C2: for every kind, the interface kind too, [Methods] ends up as
    the resolver's output.  On the interface [Shape] the descriptor
    [LookupType] returns carries the receiver the resolver records,
    which the interface's own method list does not: the list the
    interface branch stored has been replaced. *)
Theorem interface_methods_overwritten :
  ∃ typeInfo,
    LookupType Samples.shapesRepo "Shape" (Ok typeInfo) ∧
    TypeInfo.Kind typeInfo = "interface" ∧
    TypeInfo.Methods typeInfo = getTypeMethods Samples.shapesRepo Samples.ShapeType ∧
    TypeInfo.Methods typeInfo ≠
      analyzeInterfaceMethods Samples.shapesRepo Samples.ShapeInterface ∧
    map MethodInfo.Receiver (TypeInfo.Methods typeInfo) =
      ["shapes.Shape"; "shapes.Shape"] ∧
    map MethodInfo.Receiver
      (analyzeInterfaceMethods Samples.shapesRepo Samples.ShapeInterface) = [""; ""].
Proof.
  exists (buildTypeInfo Samples.shapesRepo "Shape" "shapes" Samples.shapes Samples.Shape).
  split; [visit_in_map_order|].
  split; [reflexivity|]. split; [reflexivity|].
  split; [|split; reflexivity].
  vm_compute. discriminate.
Qed.

(** ** Queries on an analyzer that is not initialized *)

Section RangeFold.
Context {X S : Type} (body : X → S → S → Prop).

Lemma range_fold_unchanged (xs : list X) (s s' : S) :
  (∀ x t t', body x t t' ↔ t' = t) → range_fold body xs s s' ↔ s' = s.
Proof.
  intros Hbody. split.
  - induction 1 as [|x xs s s' s'' Hstep _ IH]; [done|].
    apply Hbody in Hstep. congruence.
  - intros ->. induction xs as [|x xs IH]; [constructor|].
    econstructor; [by apply Hbody|done].
Qed.

(** A loop completes when its body does on every element. *)
Lemma range_fold_returns (xs : list X) :
  (∀ x, x ∈ xs → ∀ s, ∃ s', body x s s') → ∀ s, ∃ s', range_fold body xs s s'.
Proof.
  induction xs as [|x xs IH]; intros Hbody s.
  - exists s. constructor.
  - destruct (Hbody x (list_elem_of_here _ _) s) as [s' Hstep].
    destruct (IH (λ y Hy, Hbody y (list_elem_of_further _ _ _ Hy)) s') as [s'' Hrest].
    exists s''. by econstructor.
Qed.

(** A loop returns or panics when its body does on every element. *)
Lemma range_fold_returns_or_panics (panics : X → S → Prop) (xs : list X) :
  (∀ x, x ∈ xs → ∀ s, (∃ s', body x s s') ∨ panics x s) →
  ∀ s, (∃ s', range_fold body xs s s') ∨ range_panics body panics xs s.
Proof.
  induction xs as [|x xs IH]; intros Hbody s.
  - left. exists s. constructor.
  - destruct (Hbody x (list_elem_of_here _ _) s) as [[s' Hstep]|Hpanics].
    + destruct (IH (λ y Hy, Hbody y (list_elem_of_further _ _ _ Hy)) s')
        as [[s'' Hrest]|Hrest].
      * left. exists s''. by econstructor.
      * right. by eapply range_panics_later.
    + right. by apply range_panics_here.
Qed.

(** A loop that panics does so in its body, on one of its
    elements. *)
Lemma range_panics_inv (panics : X → S → Prop) (xs : list X) (s : S) :
  range_panics body panics xs s → ∃ x t, x ∈ xs ∧ panics x t.
Proof.
  induction 1 as [x xs s Hpanics|x xs s s' _ _ (y & t & Hin & Hpanics)].
  - exists x, s. split; [left|done].
  - exists y, t. split; [by right|done].
Qed.

(** What a loop run on fixed visiting orders returns is a result of
    the loop. *)
Lemma range_in_sound (body_in : S → X → outcome S) (xs : list X) (s s' : S) :
  (∀ x t t', body_in t x = Returns t' → body x t t') →
  range_in body_in xs s = Returns s' → range_fold body xs s s'.
Proof.
  intros Hbody. revert s. induction xs as [|x xs IH]; intros s; simpl.
  - intros [= <-]. constructor.
  - destruct (body_in s x) as [t|] eqn:Hstep; [|done].
    intros Hrest. econstructor; [by apply Hbody|by apply IH].
Qed.

Lemma range_in_panics (panics : X → S → Prop) (body_in : S → X → outcome S)
    (xs : list X) (s : S) :
  (∀ x t t', body_in t x = Returns t' → body x t t') →
  (∀ x t, body_in t x = Panics → panics x t) →
  range_in body_in xs s = Panics → range_panics body panics xs s.
Proof.
  intros Hbody Hpanics. revert s. induction xs as [|x xs IH]; intros s; simpl; [done|].
  destruct (body_in s x) as [t|] eqn:Hstep.
  - intros Hrest. eapply range_panics_later; [by apply Hbody|by apply IH].
  - intros _. by apply range_panics_here, Hpanics.
Qed.

End RangeFold.

Lemma range_order_map_to_list {V : Type} (m : gmap string V) :
  range_order m (map_to_list m).
Proof. unfold range_order. reflexivity. Qed.

(** A call of [LookupType] returns or panics. *)
Lemma LookupType_returns_or_panics (a : Analyzer.t) (typeName : string) :
  (∃ r, LookupType a typeName r) ∨ LookupType_panics a typeName.
Proof.
  destruct (LookupType_in a (map_to_list (Analyzer.pkgs a)) typeName) as [r|] eqn:Hr.
  - left. exists r, (map_to_list (Analyzer.pkgs a)).
    split; [apply range_order_map_to_list|done].
  - right. exists (map_to_list (Analyzer.pkgs a)).
    split; [apply range_order_map_to_list|done].
Qed.

(** A call of [LookupType] that cannot panic returns. *)
Lemma LookupType_returns (a : Analyzer.t) (typeName : string) :
  ¬ LookupType_panics a typeName → ∃ r, LookupType a typeName r.
Proof. intros Hsafe. by destruct (LookupType_returns_or_panics a typeName). Qed.

Lemma sizedb_spec (a : Analyzer.t) : sizedb a = true → sized a.
Proof.
  unfold sizedb, sized. rewrite forallb_forall.
  intros Hall pkgName pkg name obj Hpkg Hobj.
  apply elem_of_map_to_list, list_elem_of_In, Hall in Hpkg. simpl in Hpkg.
  rewrite forallb_forall in Hpkg. unfold types.Scope.Lookup in Hobj.
  by apply elem_of_map_to_list, list_elem_of_In, Hpkg in Hobj.
Qed.

(** No lookup panics when every object is one [Sizeof] returns
    for. *)
Lemma sized_LookupType (a : Analyzer.t) (typeName : string) :
  sized a → ¬ LookupType_panics a typeName.
Proof.
  intros Hsized (order & Ho & Hp). unfold LookupType_in in Hp.
  destruct (negb (Analyzer.initialized a)); [done|].
  apply LookupType_range_Panics in Hp as (k & p & o & Hin & Hobj & Hno).
  rewrite (range_order_lookup _ _ _ _ Ho) in Hin.
  rewrite (Hsized _ _ _ _ Hin Hobj) in Hno. done.
Qed.

Section NotInitialized.
Context (unicodeLower : string → string) (a : Analyzer.t) (Hclosed : Analyzer.initialized a = false).

Lemma LookupType_refuses (typeName : string) : LookupType a typeName (Err ErrNotInitialized).
Proof.
  exists (map_to_list (Analyzer.pkgs a)). split; [apply range_order_map_to_list|].
  unfold LookupType_in. by rewrite Hclosed.
Qed.

Lemma searchName_refused query scope name results results' :
  searchName unicodeLower a query scope name results results' ↔ results' = results.
Proof.
  unfold searchName.
  destruct (types.Scope.Lookup scope name) as [obj|]; [|done].
  destruct (types.Object.Class obj); try done.
  destruct (strings.Contains _ _); [|done]. split.
  - intros (r & Hr & ->). by rewrite (LookupType_not_initialized a _ r Hclosed Hr).
  - intros ->. exists (Err ErrNotInitialized). split; [apply LookupType_refuses|done].
Qed.

(** Without its own guard, [SearchTypes] returns an empty list and
    no error. *)
Lemma SearchTypes_not_initialized query r : SearchTypes unicodeLower a query r ↔ r = Ok [].
Proof.
  assert (∀ entry t t', searchPackage unicodeLower a (strings.ToLower unicodeLower query) entry t t' ↔ t' = t) as Hp.
  { intros entry t t'. unfold searchPackage. apply range_fold_unchanged.
    intros name u u'. apply searchName_refused. }
  split.
  - intros (order & results & _ & Hfold & ->).
    apply (range_fold_unchanged _ _ _ _ Hp) in Hfold. by subst.
  - intros ->. exists (map_to_list (Analyzer.pkgs a)), [].
    split; [apply range_order_map_to_list|]. split; [|done].
    by apply range_fold_unchanged.
Qed.

Lemma AnalyzeRepository_not_initialized r :
  AnalyzeRepository a r ↔ r = Err ErrNotInitialized.
Proof. unfold AnalyzeRepository. by rewrite Hclosed. Qed.

End NotInitialized.

(** ** [SearchTypes] *)

Lemma wellFormedb_spec (a : Analyzer.t) : wellFormedb a = true → wellFormed a.
Proof.
  unfold wellFormedb, wellFormed. rewrite forallb_forall.
  intros Hall pkgName pkg name obj Hpkg Hobj.
  apply elem_of_map_to_list, list_elem_of_In, Hall in Hpkg. simpl in Hpkg.
  rewrite forallb_forall in Hpkg. unfold types.Scope.Lookup in Hobj.
  apply elem_of_map_to_list, list_elem_of_In, Hpkg in Hobj. simpl in Hobj.
  by apply String.eqb_eq.
Qed.

Lemma Contains_empty (s : string) : strings.Contains s "" = true.
Proof. by destruct s. Qed.

Lemma matches_empty (unicodeLower : string → string) (name : string) : matches unicodeLower name "" = true.
Proof. apply Contains_empty. Qed.

Lemma hits_empty (unicodeLower : string → string) order : hits unicodeLower order "" = allTypeNames order.
Proof.
  unfold hits. induction (allTypeNames order) as [|n l IH]; [done|]. simpl.
  by rewrite matches_empty, IH.
Qed.

Section SearchTypes.
Context (unicodeLower : string → string) (a : Analyzer.t) (query : string).

(** The body of the scope loop, by the name it finds. *)
Lemma searchName_spec scope name results results' :
  searchName unicodeLower a (strings.ToLower unicodeLower query) scope name results results' ↔
  match typeNameAt scope name with
  | Some typeName =>
      if matches unicodeLower typeName query
      then ∃ r, LookupType a typeName r ∧
                results' = match r with
                           | Ok typeInfo => results ++ [typeInfo]
                           | Err _ => results
                           end
      else results' = results
  | None => results' = results
  end.
Proof.
  unfold searchName, typeNameAt, matches.
  destruct (types.Scope.Lookup scope name) as [obj|]; [|done].
  by destruct (types.Object.Class obj).
Qed.

Lemma searchName_in_sound inner scope name results results' :
  range_order (Analyzer.pkgs a) inner →
  searchName_in unicodeLower a inner query scope results name = Returns results' →
  searchName unicodeLower a (strings.ToLower unicodeLower query) scope name results results'.
Proof.
  intros Hi Hstep. apply searchName_spec. unfold searchName_in in Hstep.
  destruct (typeNameAt scope name) as [typeName|]; [|congruence].
  destruct (matches unicodeLower typeName query); [|congruence].
  destruct (LookupType_in a inner typeName) as [r|] eqn:Hr; [|done].
  exists r. split; [by exists inner|]. destruct r; congruence.
Qed.

Lemma searchPackage_in_sound inner entry results results' :
  range_order (Analyzer.pkgs a) inner →
  searchPackage_in unicodeLower a inner query results entry = Returns results' →
  searchPackage unicodeLower a (strings.ToLower unicodeLower query) entry results results'.
Proof.
  intros Hi. unfold searchPackage, searchPackage_in. apply range_in_sound.
  intros name t t'. by apply searchName_in_sound.
Qed.

Lemma SearchTypes_in_sound order inner r :
  range_order (Analyzer.pkgs a) order → range_order (Analyzer.pkgs a) inner →
  SearchTypes_in unicodeLower a order inner query = Returns r →
  SearchTypes unicodeLower a query r.
Proof.
  intros Ho Hi Hr. unfold SearchTypes_in in Hr.
  destruct (range_in (searchPackage_in unicodeLower a inner query) order [])
    as [results|] eqn:Hfold; [|done].
  injection Hr as <-. exists order, results. split; [done|]. split; [|done].
  eapply range_in_sound; [|exact Hfold].
  intros entry t t'. by apply searchPackage_in_sound.
Qed.

Lemma searchName_in_panics inner scope name results :
  range_order (Analyzer.pkgs a) inner →
  searchName_in unicodeLower a inner query scope results name = Panics →
  searchName_panics unicodeLower a (strings.ToLower unicodeLower query) scope name results.
Proof.
  intros Hi. unfold searchName_in, searchName_panics, typeNameAt, matches.
  destruct (types.Scope.Lookup scope name) as [obj|]; [|done].
  destruct (types.Object.Class obj); try done.
  destruct (strings.Contains _ _); [|done].
  destruct (LookupType_in a inner (types.Object.Name obj)) as [[typeInfo|err]|] eqn:Hr;
    [done|done|].
  intros _. by exists inner.
Qed.

Lemma SearchTypes_in_panics order inner :
  range_order (Analyzer.pkgs a) order → range_order (Analyzer.pkgs a) inner →
  SearchTypes_in unicodeLower a order inner query = Panics →
  SearchTypes_panics unicodeLower a query.
Proof.
  intros Ho Hi Hr. unfold SearchTypes_in in Hr.
  destruct (range_in (searchPackage_in unicodeLower a inner query) order [])
    as [results|] eqn:Hfold; [done|].
  exists order. split; [done|].
  eapply range_in_panics; [| |exact Hfold].
  - intros entry t t'. by apply searchPackage_in_sound.
  - intros entry t. unfold searchPackage_in, searchPackage_panics.
    apply range_in_panics.
    + intros name u u'. by apply searchName_in_sound.
    + intros name u. by apply searchName_in_panics.
Qed.

(** A call of [SearchTypes] returns or panics. *)
Lemma SearchTypes_returns_or_panics :
  (∃ r, SearchTypes unicodeLower a query r) ∨ SearchTypes_panics unicodeLower a query.
Proof.
  destruct (range_fold_returns_or_panics
              (searchPackage unicodeLower a (strings.ToLower unicodeLower query))
              (searchPackage_panics unicodeLower a (strings.ToLower unicodeLower query))
              (map_to_list (Analyzer.pkgs a))) with (s := @nil TypeInfo.t)
    as [[results Hfold]|Hpanics].
  - intros [pkgName pkg] _ results. unfold searchPackage, searchPackage_panics. simpl.
    apply range_fold_returns_or_panics. intros name _ found.
    unfold searchName, searchName_panics.
    destruct (types.Scope.Lookup (types.Package.Scope pkg) name) as [obj|];
      [|left; by exists found].
    destruct (types.Object.Class obj); try (left; by exists found).
    destruct (strings.Contains _ _); [|left; by exists found].
    destruct (LookupType_returns_or_panics a (types.Object.Name obj)) as [[r Hr]|Hp];
      [left|by right].
    eexists. by exists r.
  - left. eexists. exists (map_to_list (Analyzer.pkgs a)), results.
    split; [apply range_order_map_to_list|]. by split.
  - right. exists (map_to_list (Analyzer.pkgs a)).
    split; [apply range_order_map_to_list|done].
Qed.

Context (Hinit : Analyzer.initialized a = true) (Hwf : wellFormed a).

(** On an initialized analyzer a lookup of a declared name that
    returns has succeeded, and the descriptor bears the name. *)
Lemma LookupType_declared typeName pkgName r :
  declaredIn a typeName pkgName → LookupType a typeName r →
  ∃ typeInfo, r = Ok typeInfo ∧ TypeInfo.Name typeInfo = typeName.
Proof.
  intros (pkg & Hpkg & [obj Hobj]) (order & Ho & Hr).
  unfold LookupType_in in Hr. rewrite Hinit in Hr. simpl in Hr.
  destruct r as [typeInfo|err].
  - exists typeInfo. split; [done|].
    apply LookupType_range_Ok in Hr as (k & p & o & _ & _ & ->).
    apply buildTypeInfo_Name.
  - apply LookupType_range_Err in Hr as [_ Hnone].
    rewrite <- (range_order_lookup _ order) in Hpkg by done.
    apply Hnone in Hpkg. congruence.
Qed.

Lemma typeNameAt_declared pkgName pkg name typeName :
  Analyzer.pkgs a !! pkgName = Some pkg →
  typeNameAt (types.Package.Scope pkg) name = Some typeName →
  declaredIn a typeName pkgName.
Proof.
  unfold typeNameAt. intros Hpkg Hat.
  destruct (types.Scope.Lookup (types.Package.Scope pkg) name) as [obj|] eqn:Hobj; [|done].
  destruct (types.Object.Class obj); try done. injection Hat as <-.
  exists pkg. split; [done|]. exists obj.
  by rewrite (Hwf _ _ _ _ Hpkg Hobj).
Qed.

(** One package: a descriptor is appended for each matching type
    declaration, and it is an outcome of [LookupType] on its name. *)
Lemma searchNames_spec pkgName pkg names results results' :
  Analyzer.pkgs a !! pkgName = Some pkg →
  range_fold (searchName unicodeLower a (strings.ToLower unicodeLower query) (types.Package.Scope pkg))
    names results results' →
  ∃ found,
    results' = results ++ found ∧
    Forall2 (λ name typeInfo, LookupType a name (Ok typeInfo))
      (List.filter (λ name, matches unicodeLower name query)
         (omap (typeNameAt (types.Package.Scope pkg)) names))
      found.
Proof.
  intros Hpkg. revert results.
  induction names as [|name names IH]; intros results Hfold.
  - inversion Hfold; subst. exists []. split; [by rewrite app_nil_r|constructor].
  - inversion Hfold as [|? ? ? mid ? Hstep Hrest]; subst.
    apply IH in Hrest as (found & -> & Hfound). apply searchName_spec in Hstep. simpl.
    destruct (typeNameAt (types.Package.Scope pkg) name) as [typeName|] eqn:Hat;
      [|subst mid; by exists found].
    simpl. destruct (matches unicodeLower typeName query); [|subst mid; by exists found].
    destruct Hstep as (r & Hr & ->).
    destruct (LookupType_declared typeName pkgName r) as (typeInfo & -> & _);
      [by eapply typeNameAt_declared|done|].
    exists (typeInfo :: found). split; [by rewrite <- app_assoc|by constructor].
Qed.

Lemma searchPackages_spec order results results' :
  (∀ entry, entry ∈ order → Analyzer.pkgs a !! entry.1 = Some entry.2) →
  range_fold (searchPackage unicodeLower a (strings.ToLower unicodeLower query)) order results results' →
  ∃ found,
    results' = results ++ found ∧
    Forall2 (λ name typeInfo, LookupType a name (Ok typeInfo)) (hits unicodeLower order query) found.
Proof.
  unfold hits. revert results.
  induction order as [|[pkgName pkg] order IH]; intros results Hin Hfold.
  - inversion Hfold; subst. exists []. split; [by rewrite app_nil_r|constructor].
  - inversion Hfold as [|? ? ? mid ? Hstep Hrest]; subst.
    apply IH in Hrest as (found' & -> & Hfound'); [|intros e He; apply Hin; by right].
    apply (searchNames_spec pkgName) in Hstep as (found & -> & Hfound);
      [|apply (Hin (pkgName, pkg)); left].
    exists (found ++ found'). split; [by rewrite <- app_assoc|].
    simpl. rewrite List.filter_app. by apply Forall2_app.
Qed.

Lemma typeNameAt_declaresType pkgName pkg name typeName :
  Analyzer.pkgs a !! pkgName = Some pkg →
  typeNameAt (types.Package.Scope pkg) name = Some typeName →
  declaresType a pkgName typeName.
Proof.
  unfold typeNameAt. intros Hpkg Hat.
  destruct (types.Scope.Lookup (types.Package.Scope pkg) name) as [obj|] eqn:Hobj; [|done].
  destruct (types.Object.Class obj) eqn:Hclass; try done. injection Hat as <-.
  exists pkg, obj. by rewrite (Hwf _ _ _ _ Hpkg Hobj).
Qed.

(** [SearchTypes] panics only in the lookup of the name of a type
    declaration that matches the query. *)
Lemma SearchTypes_panics_inv :
  SearchTypes_panics unicodeLower a query →
  ∃ pkgName typeName,
    declaresType a pkgName typeName ∧
    matches unicodeLower typeName query = true ∧
    LookupType_panics a typeName.
Proof.
  intros (order & Ho & Hpanics).
  apply range_panics_inv in Hpanics as ([pkgName pkg] & results & Hin & Hpanics).
  apply (range_order_lookup _ _ _ _ Ho) in Hin.
  unfold searchPackage_panics in Hpanics. simpl in Hpanics.
  apply range_panics_inv in Hpanics as (name & found & _ & Hpanics).
  unfold searchName_panics in Hpanics.
  destruct (types.Scope.Lookup (types.Package.Scope pkg) name) as [obj|] eqn:Hobj;
    [|done].
  destruct (types.Object.Class obj) eqn:Hclass; try done.
  destruct (strings.Contains _ _) eqn:Hm; [|done].
  exists pkgName, (types.Object.Name obj). split; [|by split].
  exists pkg, obj. by rewrite (Hwf _ _ _ _ Hin Hobj).
Qed.

(** [SearchTypes] returns when no lookup of the name of a type
    declaration panics. *)
Lemma SearchTypes_returns :
  (∀ pkgName typeName, declaresType a pkgName typeName → ¬ LookupType_panics a typeName) →
  ∃ r, SearchTypes unicodeLower a query r.
Proof.
  intros Hsafe. destruct SearchTypes_returns_or_panics as [Hr|Hpanics]; [done|].
  apply SearchTypes_panics_inv in Hpanics as (pkgName & typeName & Hdecl & _ & Hp).
  by destruct (Hsafe pkgName typeName Hdecl).
Qed.

End SearchTypes.

Lemma order_twoConfigs :
  range_order (Analyzer.pkgs Samples.twoConfigs)
    [("alpha", Samples.alpha); ("beta", Samples.beta)].
Proof. unfold range_order. vm_compute. reflexivity. Qed.

(** With [Config] declared in [alpha] and in [beta], a search for
    the empty query may return the descriptor of [alpha]'s [Config]
    twice and none of [beta]'s. *)
Lemma SearchTypes_twoConfigs_empty_query (unicodeLower : string → string) :
  SearchTypes unicodeLower Samples.twoConfigs ""
    (Ok [buildTypeInfo Samples.twoConfigs "Config" "alpha" Samples.alpha
           Samples.alphaConfig;
         buildTypeInfo Samples.twoConfigs "Config" "alpha" Samples.alpha
           Samples.alphaConfig;
         buildTypeInfo Samples.twoConfigs "UserAccount" "beta" Samples.beta
           Samples.UserAccount]).
Proof.
  apply (SearchTypes_in_sound unicodeLower Samples.twoConfigs ""
           [("alpha", Samples.alpha); ("beta", Samples.beta)]
           [("alpha", Samples.alpha); ("beta", Samples.beta)]);
    [apply order_twoConfigs|apply order_twoConfigs|].
  vm_compute. reflexivity.
Qed.

(** C6, as stated, fails, whatever the case tables of [unicode] are:
    the search above returns no descriptor of [beta]'s [Config]. *)
Lemma SearchTypes_misses_same_named_type :
  ¬ (∃ unicodeLower : string → string,
       ∀ r, SearchTypes unicodeLower Samples.twoConfigs "" r →
         ∃ results,
           r = Ok results ∧
           ∀ pkgName typeName,
             declaresType Samples.twoConfigs pkgName typeName →
             ∃ typeInfo, typeInfo ∈ results ∧ describes typeInfo pkgName typeName).
Proof.
  intros [unicodeLower Hall].
  destruct (Hall _ (SearchTypes_twoConfigs_empty_query unicodeLower))
    as (results & Hresults & Hevery).
  injection Hresults as <-.
  destruct (Hevery "beta" "Config") as (typeInfo & Hin & Hpkg & Hname).
  { exists Samples.beta, Samples.betaConfig.
    split; [vm_compute; reflexivity|]. split; vm_compute; reflexivity. }
  repeat (apply elem_of_cons in Hin as [->|Hin];
          [rewrite buildTypeInfo_Package in Hpkg; rewrite buildTypeInfo_Name in Hname;
           congruence|]).
  by apply elem_of_nil in Hin.
Qed.

(** C6, amended. On an initialized analyzer a call of [SearchTypes]
    that returns does so without an error and with one descriptor for
    each type declaration whose name contains the query, both taken
    through [strings.ToLower]; each is a descriptor [LookupType]
    returns for that name, so that a name declared in several packages
    is described once per declaration but not necessarily once per
    package.  For the empty query these are all type declarations;
    when no name matches, the result is empty.  A call returns or
    panics; it panics only in the lookup of the name of a matching
    type declaration, and so returns when no such lookup panics.
    [UserAccount] matches [user], [ACCOUNT] and the empty query, and
    does not match [xyz]. *)
Theorem SearchTypes_matches_type_names (unicodeLower : string → string)
    (a : Analyzer.t) (query : string) :
  (Analyzer.initialized a = true → wellFormed a →
   ((∃ r, SearchTypes unicodeLower a query r) ∨ SearchTypes_panics unicodeLower a query) ∧
   (SearchTypes_panics unicodeLower a query →
    ∃ pkgName typeName,
      declaresType a pkgName typeName ∧
      matches unicodeLower typeName query = true ∧
      LookupType_panics a typeName) ∧
   ((∀ pkgName typeName,
       declaresType a pkgName typeName → ¬ LookupType_panics a typeName) →
    ∃ r, SearchTypes unicodeLower a query r) ∧
   ∀ r, SearchTypes unicodeLower a query r →
     ∃ order results,
       range_order (Analyzer.pkgs a) order ∧
       r = Ok results ∧
       Forall2 (λ name typeInfo, LookupType a name (Ok typeInfo))
         (hits unicodeLower order query) results ∧
       map TypeInfo.Name results = hits unicodeLower order query ∧
       (query = "" → map TypeInfo.Name results = allTypeNames order) ∧
       ((∀ name, name ∈ allTypeNames order → matches unicodeLower name query = false) →
        results = [])) ∧
  matches unicodeLower "UserAccount" "user" = true ∧
  matches unicodeLower "UserAccount" "ACCOUNT" = true ∧
  matches unicodeLower "UserAccount" "" = true ∧
  matches unicodeLower "UserAccount" "xyz" = false.
Proof.
  split; [|by vm_compute]. intros Hinit Hwf.
  split; [apply SearchTypes_returns_or_panics|].
  split; [by apply SearchTypes_panics_inv|].
  split.
  - by apply SearchTypes_returns.
  - intros r (order & results & Ho & Hfold & ->).
    apply (searchPackages_spec unicodeLower a query Hinit Hwf) in Hfold as (found & -> & Hfound).
    2:{ intros [k p] Hin. by apply (range_order_lookup _ order). }
    simpl. exists order, found. split; [done|]. split; [done|]. split; [done|].
    assert (map TypeInfo.Name found = hits unicodeLower order query) as Hnames.
    { induction Hfound as [|name typeInfo names found Hlookup _ IH]; [done|]. simpl.
      apply LookupType_Ok in Hlookup as (_ & k & p & o & _ & _ & ->).
      by rewrite buildTypeInfo_Name, IH. }
    split; [done|]. split.
    + intros ->. by rewrite Hnames, hits_empty.
    + intros Hnone. apply (f_equal length) in Hnames.
      rewrite length_map in Hnames. apply length_zero_iff_nil. rewrite Hnames.
      apply length_zero_iff_nil. unfold hits.
      induction (allTypeNames order) as [|name names IH]; [done|]. simpl.
      rewrite (Hnone name) by left. apply IH. intros n Hn. apply Hnone. by right.
Qed.

Lemma SearchTypes_matches_type_names_witness :
  (∃ r, SearchTypes strings.lowerBytes Samples.twoConfigs "user" r) ∧
  ∃ order results,
    range_order (Analyzer.pkgs Samples.twoConfigs) order ∧
    Ok [buildTypeInfo Samples.twoConfigs "UserAccount" "beta" Samples.beta
          Samples.UserAccount] = Ok results ∧
    Forall2 (λ name typeInfo, LookupType Samples.twoConfigs name (Ok typeInfo))
      (hits strings.lowerBytes order "user") results ∧
    map TypeInfo.Name results = hits strings.lowerBytes order "user" ∧
    ("user" = "" → map TypeInfo.Name results = allTypeNames order) ∧
    ((∀ name, name ∈ allTypeNames order → matches strings.lowerBytes name "user" = false) →
     results = []).
Proof.
  assert (Analyzer.initialized Samples.twoConfigs = true) as Hinit by reflexivity.
  assert (wellFormed Samples.twoConfigs) as Hwf
    by (apply wellFormedb_spec; vm_compute; reflexivity).
  assert (sized Samples.twoConfigs) as Hsized
    by (apply sizedb_spec; vm_compute; reflexivity).
  destruct (proj1 (SearchTypes_matches_type_names strings.lowerBytes Samples.twoConfigs
                     "user") Hinit Hwf) as (_ & _ & Hreturns & Hresults).
  split.
  - apply Hreturns. intros pkgName typeName _. by apply sized_LookupType.
  - apply Hresults.
    apply (SearchTypes_in_sound strings.lowerBytes Samples.twoConfigs "user"
             (map_to_list (Analyzer.pkgs Samples.twoConfigs))
             (map_to_list (Analyzer.pkgs Samples.twoConfigs)));
      [apply range_order_map_to_list|apply range_order_map_to_list|].
    vm_compute. reflexivity.
Defined.

(** ** Rebuilding: [Refresh] *)

Section Rebuild.

Lemma parseFile_initialized a filename parsed :
  Analyzer.initialized (parseFile a filename parsed) = Analyzer.initialized a.
Proof.
  unfold parseFile. destruct parsed as [file|]; [|done].
  by destruct (ParsedFile.checked file).
Qed.

Lemma parseRepository_walk_initialized a entries :
  Analyzer.initialized (parseRepository_walk a entries).1 = Analyzer.initialized a.
Proof.
  revert a. induction entries as [|entry entries IH]; intros a; simpl; [done|].
  destruct (WalkEntry.err entry); [done|].
  repeat (match goal with |- context [if ?b then _ else _] => destruct b end;
          [apply IH|]).
  rewrite IH. apply parseFile_initialized.
Qed.

(** A build that fails leaves the flag as it found it; a build that
    succeeds sets it. *)
Lemma initialize_flag a env a' err :
  initialize a env a' err →
  Analyzer.initialized a' =
  match err with
  | Some _ => Analyzer.initialized a
  | None => true
  end.
Proof.
  unfold initialize, parseRepository.
  pose proof (parseRepository_walk_initialized a (Env.walk env)) as Hflag.
  destruct (parseRepository_walk a (Env.walk env)) as [a1 [cause|]]; simpl in Hflag.
  - by intros [-> ->].
  - by intros (order & order' & _ & _ & -> & ->).
Qed.

Lemma Refresh_flag a env a' err :
  Refresh a env a' err →
  Analyzer.initialized a' = match err with Some _ => false | None => true end.
Proof. intros Hr. apply initialize_flag in Hr. by destruct err. Qed.

(** A call other than a [Refresh] that succeeds does not set the
    flag. *)
Lemma step_not_initialized a c a' :
  step a c a' → refreshSucceeds c = false →
  Analyzer.initialized a = false → Analyzer.initialized a' = false.
Proof.
  intros Hstep Hc Ha. destruct Hstep as [a|a|a env a' err Hr]; [done|done|].
  apply Refresh_flag in Hr. by destruct err.
Qed.

Lemma run_not_initialized a calls a' :
  run a calls a' → (∀ c, c ∈ calls → refreshSucceeds c = false) →
  Analyzer.initialized a = false → Analyzer.initialized a' = false.
Proof.
  induction 1 as [a|a c a' calls a'' Hstep _ IH]; intros Hcalls Ha; [done|].
  apply IH; [intros c' Hc'; apply Hcalls; by right|].
  eapply step_not_initialized; [done| |done]. apply Hcalls. by left.
Qed.

(** A build whose walk meets no error goes through. *)
Lemma initialize_succeeds a env a1 :
  parseRepository a env = (a1, None) →
  let a2 := typeCheckPackages a1 env (map_to_list (Analyzer.files a1)) in
  initialize a env
    (setInitialized true (generateDocumentation a2 (map_to_list (Analyzer.pkgs a2)))) None.
Proof.
  intros Hparse a2. unfold initialize. rewrite Hparse.
  exists (map_to_list (Analyzer.files a1)), (map_to_list (Analyzer.pkgs a2)).
  split; [apply range_order_map_to_list|]. split; [apply range_order_map_to_list|done].
Qed.

(** A build always returns. *)
Lemma initialize_returns a env : ∃ a' err, initialize a env a' err.
Proof.
  destruct (parseRepository a env) as [a1 [cause|]] eqn:Hparse.
  - exists a1, (Some (ErrParseRepository cause)). unfold initialize. by rewrite Hparse.
  - eexists _, None. by apply initialize_succeeds.
Qed.

End Rebuild.

(** C8. A [Refresh] that fails leaves the analyzer not initialized,
    in a state that owes nothing to the model held before; it stays
    not initialized through every run of queries, [Close] and failed
    [Refresh] calls, and a [Refresh] that succeeds makes it
    initialized again. *)
Theorem failed_Refresh_leaves_NotInitialized (a a' : Analyzer.t) (env : Env.t)
    (err : Error) :
  Refresh a env a' (Some err) →
  Analyzer.initialized a' = false ∧
  (∀ b, Analyzer.repoPath b = Analyzer.repoPath a →
        Analyzer.config b = Analyzer.config a →
        Refresh b env a' (Some err)) ∧
  (∀ typeName r, LookupType a' typeName r → r = Err ErrNotInitialized) ∧
  (∀ calls a'',
     run a' calls a'' → (∀ c, c ∈ calls → refreshSucceeds c = false) →
     Analyzer.initialized a'' = false) ∧
  (∀ calls a'' env' b,
     run a' calls a'' → Refresh a'' env' b None → Analyzer.initialized b = true).
Proof.
  intros Hr. pose proof (Refresh_flag _ _ _ _ Hr) as Hflag. simpl in Hflag.
  split; [done|]. split.
  { intros b Hpath Hconfig. unfold Refresh, clear in *. by rewrite Hpath, Hconfig. }
  split.
  { intros typeName r. by apply LookupType_not_initialized. }
  split.
  - intros calls a'' Hrun Hcalls. by eapply run_not_initialized.
  - intros calls a'' env' b _ Hb. by apply Refresh_flag in Hb.
Qed.

Lemma Refresh_brokenWalk :
  Refresh Samples.shapesRepo Samples.brokenWalk
    (parseRepository (clear Samples.shapesRepo) Samples.brokenWalk).1
    (Some (ErrParseRepository "lstat /repo/gone: permission denied")).
Proof. unfold Refresh, initialize. vm_compute. split; reflexivity. Qed.

Lemma failed_Refresh_leaves_NotInitialized_witness :
  Analyzer.initialized
    (parseRepository (clear Samples.shapesRepo) Samples.brokenWalk).1 = false.
Proof.
  apply (failed_Refresh_leaves_NotInitialized Samples.shapesRepo _ Samples.brokenWalk
           (ErrParseRepository "lstat /repo/gone: permission denied")).
  unfold Refresh, initialize. vm_compute. split; reflexivity.
Defined.

(** After the failed rebuild, one that succeeds makes the analyzer
    answer again. *)
Example Refresh_soundWalk :
  ∃ a',
    Refresh (parseRepository (clear Samples.shapesRepo) Samples.brokenWalk).1
      Samples.soundWalk a' None ∧
    Analyzer.initialized a' = true ∧
    GetPackageInfo a' "shapes" =
      Ok (PackageInfo.mk "shapes" "shapes" "" ["/repo/shapes.go"] false).
Proof.
  eexists. split; [|split].
  - apply (initialize_succeeds _ _
             (parseRepository
                (clear (parseRepository (clear Samples.shapesRepo) Samples.brokenWalk).1)
                Samples.soundWalk).1).
    vm_compute. reflexivity.
  - reflexivity.
  - vm_compute. reflexivity.
Qed.

(** C3. [LookupType], [ListMethods] and [AnalyzeRepository] refuse to
    answer on an analyzer that is not initialized; the other three
    queries have no such guard.  After a [Refresh] of the repository
    [shapes] that failed once the file of the package had been read,
    the analyzer is not initialized, yet [GetPackageInfo] returns the
    package, [SearchTypes] returns an empty list without an error, and
    [GetExample] reports that there is no example, not that the
    analyzer is not initialized.  [GetPackageInfo] answers after
    [Close] as well. *)
Theorem unguarded_queries_answer_when_not_initialized (unicodeLower : string → string) :
  let a := (parseRepository (clear Samples.shapesRepo) Samples.brokenWalk).1 in
  Refresh Samples.shapesRepo Samples.brokenWalk a
    (Some (ErrParseRepository "lstat /repo/gone: permission denied")) ∧
  Analyzer.initialized a = false ∧
  LookupType a "Circle" (Err ErrNotInitialized) ∧
  ListMethods a "Circle" (Err ErrNotInitialized) ∧
  AnalyzeRepository a (Err ErrNotInitialized) ∧
  GetPackageInfo a "shapes" =
    Ok (PackageInfo.mk "shapes" "shapes" "" ["/repo/shapes.go"] false) ∧
  SearchTypes unicodeLower a "Circle" (Ok []) ∧
  GetExample unicodeLower a "Circle" (Err (ErrNoExamples "Circle")) ∧
  Analyzer.initialized (Close Samples.shapesRepo) = false ∧
  GetPackageInfo (Close Samples.shapesRepo) "shapes" =
    Ok (PackageInfo.mk "shapes" "shapes" "" ["/repo/shapes.go"] false).
Proof.
  intros a.
  assert (Analyzer.initialized a = false) as Hclosed by (vm_compute; reflexivity).
  split; [apply Refresh_brokenWalk|]. split; [done|].
  split; [by apply LookupType_refuses|].
  split.
  { exists (map_to_list (Analyzer.pkgs a)). split; [apply range_order_map_to_list|].
    unfold ListMethods_in, LookupType_in. by rewrite Hclosed. }
  split; [by apply AnalyzeRepository_not_initialized|].
  split; [vm_compute; reflexivity|].
  split; [by apply SearchTypes_not_initialized|].
  split.
  { exists (map_to_list (Analyzer.docPkgs a)).
    split; [apply range_order_map_to_list|vm_compute; reflexivity]. }
  split; vm_compute; reflexivity.
Qed.

(** ** The cache *)

Section CacheProperties.
Context {V : Type}.

Lemma wrap64_small (z : Z) :
  (- 2 ^ 63 ≤ z ≤ cache.maxInt64)%Z → cache.wrap64 z = z.
Proof.
  unfold cache.wrap64, cache.maxInt64. intros Hz.
  rewrite Z.mod_small; lia.
Qed.

Lemma Get_after_Set (c : cache.Cache.t V) now key value duration saved later :
  cache.Get (cache.Set_ c now key value duration saved).1 later key =
  let exp := if (0 <? duration)%Z then cache.UnixNano (now + duration) else 0%Z in
  if (0 <? exp)%Z && (exp <? cache.UnixNano later)%Z then (None, false)
  else (Some value, true).
Proof. unfold cache.Get, cache.Set_. simpl. by rewrite lookup_insert_eq. Qed.

(** Past [int64] the nanosecond count wraps around to a negative
    number. *)
Lemma wrap64_large (z : Z) :
  (cache.maxInt64 < z < 2 ^ 64)%Z → cache.wrap64 z = (z - 2 ^ 64)%Z.
Proof.
  unfold cache.wrap64, cache.maxInt64. intros Hz.
  replace (z + 2 ^ 63)%Z with (z + 2 ^ 63 - 2 ^ 64 + 1 * 2 ^ 64)%Z by lia.
  rewrite Z.mod_add by lia. rewrite Z.mod_small; lia.
Qed.

End CacheProperties.

(** C10, as stated, fails: an entry stored in November 2023 with the
    longest [time.Duration] gets an expiration that has wrapped
    around to a negative number; one nanosecond later the clock is
    past the stored expiration and [Get] still finds the entry. *)
Lemma cache_entry_outlives_expiration :
  ¬ (∀ (c : cache.Cache.t string) (key value : string) (duration now later exp : Z),
       (0 < duration ≤ cache.maxInt64)%Z →
       (0 ≤ now ≤ later)%Z → (later ≤ cache.maxInt64)%Z →
       let stored := (cache.Set_ c now key value duration None).1 in
       cache.Cache.data stored !! key = Some (cache.cacheEntry.mk value exp) →
       (exp < cache.UnixNano later)%Z →
       cache.Get stored later key = (None, false)).
Proof.
  intros Hexpire.
  specialize (Hexpire (cache.Cache.mk ∅ "/tmp/featherhead.cache") "test-key" "test-value"
                cache.maxInt64 1700000000000000000%Z 1700000000000000001%Z
                (1700000000000000000 + cache.maxInt64 - 2 ^ 64)%Z).
  simpl in Hexpire. vm_compute in Hexpire.
  assert ((Some "test-value", true) = (@None string, false)) as Hno; [|discriminate Hno].
  apply Hexpire; try done; split; discriminate.
Qed.

(** C10, amended. An entry stored by [Set] with a positive duration
    whose expiration instant fits [int64] nanoseconds is found by
    [Get], with its value, while the clock is at or before the stored
    expiration instant, and is not found once the clock is past it.
    When the expiration instant does not fit, the stored expiration
    has wrapped around to a negative number and the entry is always
    found.  An entry stored with a duration that is not positive is
    always found; after [Clear] no key is found.  Clock readings are
    taken at or after the Unix epoch and within [int64]
    nanoseconds. *)
Theorem cache_entries_expire {V : Type} (c : cache.Cache.t V) (key : string) (value : V)
    (duration now : Z) (saved : option string) :
  let stored := (cache.Set_ c now key value duration saved).1 in
  ((0 < duration)%Z → (0 ≤ now)%Z → (now + duration ≤ cache.maxInt64)%Z →
   cache.Cache.data stored !! key = Some (cache.cacheEntry.mk value (now + duration)) ∧
   ∀ later, (now ≤ later ≤ cache.maxInt64)%Z →
     ((later ≤ now + duration)%Z → cache.Get stored later key = (Some value, true)) ∧
     ((now + duration < later)%Z → cache.Get stored later key = (None, false))) ∧
  ((0 < duration ≤ cache.maxInt64)%Z → (0 ≤ now ≤ cache.maxInt64)%Z →
   (cache.maxInt64 < now + duration)%Z →
   cache.Cache.data stored !! key =
     Some (cache.cacheEntry.mk value (now + duration - 2 ^ 64)) ∧
   (now + duration - 2 ^ 64 < 0)%Z ∧
   ∀ later, cache.Get stored later key = (Some value, true)) ∧
  ((duration ≤ 0)%Z → ∀ later, cache.Get stored later key = (Some value, true)) ∧
  (∀ key' later, cache.Get (cache.Clear c saved).1 later key' = (None, false)).
Proof.
  intros stored. subst stored. split; [|split; [|split]].
  - intros Hd Hnow Hmax.
    assert (cache.UnixNano (now + duration) = (now + duration)%Z) as Hexp.
    { apply wrap64_small. unfold cache.maxInt64 in *. lia. }
    split.
    { unfold cache.Set_. simpl. rewrite lookup_insert_eq.
      apply Z.ltb_lt in Hd. by rewrite Hd, Hexp. }
    intros later Hlater. rewrite Get_after_Set. simpl.
    assert (cache.UnixNano later = later) as ->.
    { apply wrap64_small. unfold cache.maxInt64 in *. lia. }
    apply Z.ltb_lt in Hd. rewrite Hd, Hexp.
    assert ((0 <? now + duration)%Z = true) as -> by (apply Z.ltb_lt; lia).
    simpl. split; intros Hcmp.
    + by assert ((now + duration <? later)%Z = false) as -> by (apply Z.ltb_ge; lia).
    + by assert ((now + duration <? later)%Z = true) as -> by (apply Z.ltb_lt; lia).
  - intros [Hd Hdmax] Hnow Hpast.
    assert (cache.UnixNano (now + duration) = (now + duration - 2 ^ 64)%Z) as Hexp.
    { apply wrap64_large. unfold cache.maxInt64 in *. lia. }
    assert (now + duration - 2 ^ 64 < 0)%Z as Hneg by (unfold cache.maxInt64 in *; lia).
    apply Z.ltb_lt in Hd. split; [|split; [done|]].
    { unfold cache.Set_. simpl. rewrite lookup_insert_eq. by rewrite Hd, Hexp. }
    intros later. rewrite Get_after_Set. simpl. rewrite Hd, Hexp.
    by assert ((0 <? now + duration - 2 ^ 64)%Z = false) as -> by (apply Z.ltb_ge; lia).
  - intros Hd later. rewrite Get_after_Set. simpl.
    by assert ((0 <? duration)%Z = false) as -> by (apply Z.ltb_ge; lia).
  - intros key' later. unfold cache.Get, cache.Clear. simpl. by rewrite lookup_empty.
Qed.

Lemma cache_entries_expire_witness :
  let c : cache.Cache.t string := cache.Cache.mk ∅ "/tmp/featherhead.cache" in
  let stored := (cache.Set_ c 1000 "test-key" "test-value" 500 None).1 in
  cache.Get stored 1500 "test-key" = (Some "test-value", true) ∧
  cache.Get stored 1501 "test-key" = (None, false) ∧
  cache.Get (cache.Set_ c 1000 "test-key" "test-value" cache.maxInt64 None).1 1501
    "test-key" = (Some "test-value", true) ∧
  cache.Get (cache.Set_ c 1000 "test-key" "test-value" 0 None).1 9999 "test-key" =
    (Some "test-value", true).
Proof.
  intros c stored.
  destruct (cache_entries_expire c "test-key" "test-value" 500 1000 None)
    as (Hlive & _ & _ & _).
  destruct Hlive as [_ Hlive]; [lia|lia|unfold cache.maxInt64; lia|].
  destruct (cache_entries_expire c "test-key" "test-value" cache.maxInt64 1000 None)
    as (_ & Hwrapped & _ & _).
  destruct Hwrapped as (_ & _ & Hwrapped); [unfold cache.maxInt64; lia..|].
  destruct (cache_entries_expire c "test-key" "test-value" 0 1000 None)
    as (_ & _ & Hforever & _).
  split; [apply (Hlive 1500%Z); [unfold cache.maxInt64|]; lia|].
  split; [apply (Hlive 1501%Z); [unfold cache.maxInt64|]; lia|].
  split; [apply Hwrapped|].
  apply Hforever. lia.
Defined.

(** * Further properties *)

(** ** Parameters and results *)

Lemma fold_left_snoc_map {A B : Type} (f : A → B) (l : list A) (acc : list B) :
  fold_left (λ acc x, acc ++ [f x]) l acc = acc ++ map f l.
Proof.
  revert acc. induction l as [|x l IH]; intros acc; simpl.
  - by rewrite app_nil_r.
  - by rewrite IH, <- app_assoc.
Qed.

Lemma map_fmap {A B : Type} (f : A → B) (l : list A) : map f l = f <$> l.
Proof. induction l as [|x l IH]; [done|]. simpl. by rewrite IH. Qed.

(** X1. [analyzeSignatureParams] returns one descriptor per element
    of the tuple, in the order of the tuple, each with the name (empty
    for an anonymous parameter) and the type string of its element. *)
Theorem params_in_order (tuple : types.Tuple) :
  length (analyzeSignatureParams tuple) = length tuple ∧
  ∀ i param,
    tuple !! i = Some param →
    analyzeSignatureParams tuple !! i =
    Some (ParamInfo.mk (types.Var.Name param) (types.Var.TypeString param)).
Proof.
  unfold analyzeSignatureParams.
  rewrite (fold_left_snoc_map
             (λ param, ParamInfo.mk (types.Var.Name param) (types.Var.TypeString param))).
  simpl. split; [apply length_map|].
  intros i param Hi. unfold types.Tuple in *.
  by rewrite map_fmap, list_lookup_fmap, Hi.
Qed.

Lemma params_in_order_witness :
  analyzeSignatureParams
    [types.Var.mk "ctx" "context.Context" false false 5%Z;
     types.Var.mk "" "float64" false false 0%Z] !! 1 =
  Some (ParamInfo.mk "" "float64").
Proof.
  apply (proj2 (params_in_order _) 1 (types.Var.mk "" "float64" false false 0%Z)).
  reflexivity.
Defined.

(** ** The method set of a type, once more *)

Section MethodSets.
Context (a : Analyzer.t).

Lemma selectsb_spec name selection : selectsb name selection = true ↔ selects name selection.
Proof.
  unfold selectsb, selects. by rewrite andb_true_iff, String.eqb_eq.
Qed.

Lemma existsb_selects name (mset : types.MethodSet) :
  existsb (selectsb name) mset = true ↔ ∃ s, s ∈ mset ∧ selects name s.
Proof.
  rewrite existsb_exists. split; intros (s & Hin & Hs); exists s.
  - by rewrite list_elem_of_In, <- selectsb_spec.
  - by rewrite <- list_elem_of_In, selectsb_spec.
Qed.

Lemma found_snoc methods m name :
  found (methods ++ [m]) name = found methods name || String.eqb (MethodInfo.Name m) name.
Proof. unfold found. rewrite existsb_app. simpl. by rewrite orb_false_r. Qed.

Lemma found_valuePass mset methods name :
  found (valuePass a mset methods) name =
  found methods name || existsb (selectsb name) mset.
Proof.
  unfold valuePass. revert methods.
  induction mset as [|s mset IH]; intros methods; simpl; [by rewrite orb_false_r|].
  rewrite IH. unfold selectsb at 2. destruct (isMethodVal s); simpl; [|done].
  by rewrite found_snoc, orb_assoc.
Qed.

Lemma found_pointerPass ptrMset methods name :
  found (pointerPass a ptrMset methods) name =
  found methods name || existsb (selectsb name) ptrMset.
Proof.
  unfold pointerPass. revert methods.
  induction ptrMset as [|s ptrMset IH]; intros methods; simpl; [by rewrite orb_false_r|].
  rewrite IH. unfold selectsb at 2. destruct (isMethodVal s); simpl; [|done].
  destruct (found methods (types.Func.Name (types.Selection.Obj s))) eqn:Hf.
  - destruct (String.eqb_spec (types.Func.Name (types.Selection.Obj s)) name) as [<-|_];
      [by rewrite Hf|done].
  - by rewrite found_snoc, orb_assoc.
Qed.

Lemma found_perm methods methods' name :
  methods ≡ₚ methods' → found methods name = found methods' name.
Proof.
  intros Hp. apply eq_true_iff_eq. rewrite !found_spec.
  by setoid_rewrite Hp.
Qed.

(** The second loop keeps the names apart. *)
Lemma pointerPass_NoDup ptrMset methods :
  NoDup (map MethodInfo.Name methods) →
  NoDup (map MethodInfo.Name (pointerPass a ptrMset methods)).
Proof.
  unfold pointerPass. revert methods.
  induction ptrMset as [|s ptrMset IH]; intros methods Hnd; simpl; [done|].
  destruct (isMethodVal s); [|by apply IH].
  destruct (found methods (types.Func.Name (types.Selection.Obj s))) eqn:Hf; [by apply IH|].
  apply IH. rewrite map_app. simpl. apply NoDup_app. split; [done|].
  split; [|apply NoDup_singleton].
  intros name Hin ->%list_elem_of_singleton.
  apply list_elem_of_In, in_map_iff in Hin as (m & Hname & Hm).
  assert (found methods (types.Func.Name (types.Selection.Obj s)) = true) as Hf'.
  { apply found_spec. exists m. by rewrite list_elem_of_In. }
  congruence.
Qed.

(** Where the descriptors of the second loop come from. *)
Lemma pointerPass_origin ptrMset methods m :
  m ∈ pointerPass a ptrMset methods →
  m ∈ methods ∨
  ∃ s, s ∈ ptrMset ∧ isMethodVal s = true ∧ m = methodInfo a s true ∧
       found methods (MethodInfo.Name m) = false.
Proof.
  unfold pointerPass. revert methods.
  induction ptrMset as [|s ptrMset IH]; intros methods; simpl; [by left|].
  assert (∀ methods',
            (m ∈ methods' ∨
             ∃ s', s' ∈ ptrMset ∧ isMethodVal s' = true ∧ m = methodInfo a s' true ∧
                   found methods' (MethodInfo.Name m) = false) →
            methods' = methods →
            m ∈ methods ∨
            ∃ s', s' ∈ s :: ptrMset ∧ isMethodVal s' = true ∧ m = methodInfo a s' true ∧
                  found methods (MethodInfo.Name m) = false) as Hsame.
  { intros methods' [Hin|(s' & Hin & Hs')] ->; [by left|].
    right. exists s'. split; [by right|done]. }
  destruct (isMethodVal s) eqn:Hs; [|intros H; by eapply Hsame; [apply IH|]].
  destruct (found methods (types.Func.Name (types.Selection.Obj s))) eqn:Hf;
    [intros H; by eapply Hsame; [apply IH|]|].
  intros [Hin|(s' & Hin & Hs' & -> & Hnot)]%IH.
  - apply elem_of_app in Hin as [Hin|Heq]; [by left|].
    apply list_elem_of_singleton in Heq as ->.
    right. exists s. split; [left|done].
  - right. exists s'. split; [by right|]. split; [done|]. split; [done|].
    rewrite found_snoc in Hnot. by apply orb_false_iff in Hnot as [? _].
Qed.

End MethodSets.

(** X2. A name is among the methods [getTypeMethods] returns exactly
    when the method set of the type selects a method of that name or,
    the type not being a pointer itself, the method set of its pointer
    form does. *)
Theorem method_names_of_both_forms (a : Analyzer.t) (t : types.Type_.t) (name : string) :
  (∃ m, m ∈ getTypeMethods a t ∧ named name m) ↔
  (∃ s, s ∈ types.Type_.MethodSet t ∧ selects name s) ∨
  (types.Type_.IsPointer t = false ∧
   ∃ s, s ∈ types.Type_.PtrMethodSet t ∧ selects name s).
Proof.
  rewrite <- found_spec, (found_perm _ _ _ (getTypeMethods_perm a t)).
  rewrite <- !existsb_selects.
  destruct (types.Type_.IsPointer t).
  - rewrite found_valuePass. simpl. split; [by left|]. by intros [?|[? _]].
  - rewrite found_pointerPass, found_valuePass. simpl. rewrite orb_true_iff.
    split; [intros [?|?]; [by left|by right]|]. intros [?|[_ ?]]; [by left|by right].
Qed.

Lemma method_names_of_both_forms_witness :
  ∃ m, m ∈ getTypeMethods Samples.shapesRepo Samples.CircleType ∧ named "Area" m.
Proof.
  apply (proj2 (method_names_of_both_forms Samples.shapesRepo Samples.CircleType "Area")).
  right. split; [reflexivity|].
  exists (Samples.viaValue Samples.Area). split; [left|split; reflexivity].
Defined.

(** X3. When the names of the method set of a type are distinct, so
    are the names of the methods [getTypeMethods] returns: a method of
    the pointer form never repeats a name. *)
Theorem method_names_distinct (a : Analyzer.t) (t : types.Type_.t) :
  NoDup (map (λ s, types.Func.Name (types.Selection.Obj s))
           (List.filter isMethodVal (types.Type_.MethodSet t))) →
  NoDup (map MethodInfo.Name (getTypeMethods a t)).
Proof.
  intros Hnd.
  assert (NoDup (map MethodInfo.Name (valuePass a (types.Type_.MethodSet t) []))) as Hv.
  { rewrite valuePass_spec. simpl. by rewrite map_map. }
  rewrite (getTypeMethods_perm a t).
  destruct (types.Type_.IsPointer t); [done|]. by apply pointerPass_NoDup.
Qed.

Lemma method_names_distinct_witness :
  NoDup (map MethodInfo.Name (getTypeMethods Samples.shapesRepo Samples.PointType)).
Proof.
  apply method_names_distinct. vm_compute.
  apply NoDup_cons. split; [apply not_elem_of_nil|apply NoDup_nil_2].
Defined.

(** X4. Every method [getTypeMethods] returns is made either of a
    method selection of the type itself, with that selection's
    indirection flag, or, for a type that is not a pointer and has no
    method of that name itself, of a method selection of the pointer
    form, and then it is flagged as a pointer-receiver method. *)
Theorem method_origin (a : Analyzer.t) (t : types.Type_.t) (m : MethodInfo.t) :
  m ∈ getTypeMethods a t →
  (∃ s, s ∈ types.Type_.MethodSet t ∧ isMethodVal s = true ∧
        m = methodInfo a s (types.Selection.Indirect s)) ∨
  (types.Type_.IsPointer t = false ∧
   (∀ s, s ∈ types.Type_.MethodSet t → ¬ selects (MethodInfo.Name m) s) ∧
   MethodInfo.IsPointer m = true ∧
   ∃ s, s ∈ types.Type_.PtrMethodSet t ∧ isMethodVal s = true ∧ m = methodInfo a s true).
Proof.
  rewrite (getTypeMethods_perm a t).
  assert (∀ m', m' ∈ valuePass a (types.Type_.MethodSet t) [] →
            ∃ s, s ∈ types.Type_.MethodSet t ∧ isMethodVal s = true ∧
                 m' = methodInfo a s (types.Selection.Indirect s)) as Hvalue.
  { intros m'. rewrite valuePass_spec. simpl.
    rewrite list_elem_of_In, in_map_iff. intros (s & <- & Hs).
    apply filter_In in Hs as [Hs Hk]. exists s. by rewrite list_elem_of_In. }
  destruct (types.Type_.IsPointer t); [intros Hm; left; by apply Hvalue|].
  intros [Hm|(s & Hs & Hk & -> & Hnot)]%pointerPass_origin; [left; by apply Hvalue|].
  right. split; [done|]. split; [|split; [done|by exists s]].
  intros s' Hs' Hsel. rewrite found_valuePass in Hnot.
  apply orb_false_iff in Hnot as [_ Hnot].
  assert (existsb (selectsb (MethodInfo.Name (methodInfo a s true)))
            (types.Type_.MethodSet t) = true) as Hex
    by (apply existsb_selects; by exists s').
  congruence.
Qed.

Lemma method_origin_witness :
  MethodInfo.IsPointer (methodInfo Samples.shapesRepo (Samples.viaValue Samples.Area) true)
  = true.
Proof.
  destruct (method_origin Samples.shapesRepo Samples.CircleType
              (methodInfo Samples.shapesRepo (Samples.viaValue Samples.Area) true))
    as [(s & Hs & _)|(_ & _ & Hflag & _)].
  - vm_compute. left.
  - vm_compute in Hs. by apply elem_of_nil in Hs.
  - exact Hflag.
Defined.

(** ** Lookups by name *)

(** X5. On an initialized analyzer, what a call of [LookupType] may
    do with a name is decided by the objects, of whatever kind, the
    analyzed packages have under it.  It may return the descriptor
    built of a package exactly when [Sizeof] returns for the type of
    the object that package has under the name; it returns the
    not-found error exactly when no package has the name; and it may
    panic exactly when some package has under the name an object
    [Sizeof] does not return for, as the untyped constant [MaxDepth]
    of the sample program. *)
Theorem LookupType_finds_declared (a : Analyzer.t) (typeName : string) :
  Analyzer.initialized a = true →
  (∀ r, LookupType a typeName r ↔
        (∃ pkgName pkg obj,
           Analyzer.pkgs a !! pkgName = Some pkg ∧
           types.Scope.Lookup (types.Package.Scope pkg) typeName = Some obj ∧
           types.Type_.Sized (types.Object.Type' obj) = true ∧
           r = Ok (buildTypeInfo a typeName pkgName pkg obj)) ∨
        ((∀ pkgName, ¬ declaredIn a typeName pkgName) ∧
         r = Err (ErrTypeNotFound typeName))) ∧
  (LookupType_panics a typeName ↔
   ∃ pkgName pkg obj,
     Analyzer.pkgs a !! pkgName = Some pkg ∧
     types.Scope.Lookup (types.Package.Scope pkg) typeName = Some obj ∧
     types.Type_.Sized (types.Object.Type' obj) = false).
Proof.
  intros Hinit.
  assert (∀ pkgName pkg, Analyzer.pkgs a !! pkgName = Some pkg →
            ∃ rest, range_order (Analyzer.pkgs a) ((pkgName, pkg) :: rest)) as Hfirst.
  { intros k p Hin. apply elem_of_map_to_list, elem_of_Permutation in Hin as [rest Hrest].
    exists rest. unfold range_order. by rewrite Hrest. }
  split; [intros r; split|split].
  - intros (order & Ho & Hr). unfold LookupType_in in Hr. rewrite Hinit in Hr.
    simpl in Hr. destruct r as [typeInfo|err].
    + left. apply LookupType_range_Sized in Hr as (k & p & o & Hin & Hobj & Hs & ->).
      exists k, p, o. by rewrite <- (range_order_lookup _ order).
    + right. apply LookupType_range_Err in Hr as [-> Hnone]. split; [|done].
      intros k (p & Hp & [o Hobj]).
      rewrite <- (range_order_lookup _ order) in Hp by done.
      apply Hnone in Hp. congruence.
  - intros [(k & p & o & Hp & Hobj & Hs & ->)|[Hnone ->]].
    + destruct (Hfirst k p Hp) as [rest Ho]. exists ((k, p) :: rest). split; [done|].
      unfold LookupType_in. rewrite Hinit. simpl. by rewrite Hobj, Hs.
    + exists (map_to_list (Analyzer.pkgs a)). split; [apply range_order_map_to_list|].
      unfold LookupType_in. rewrite Hinit. simpl.
      destruct (LookupType_range a (map_to_list (Analyzer.pkgs a)) typeName)
        as [[typeInfo|err]|] eqn:Hr.
      * apply LookupType_range_Ok in Hr as (k & p & o & Hin & Hobj & _).
        destruct (Hnone k). exists p. split; [by apply elem_of_map_to_list|by exists o].
      * by apply LookupType_range_Err in Hr as [-> _].
      * apply LookupType_range_Panics in Hr as (k & p & o & Hin & Hobj & _).
        destruct (Hnone k). exists p. split; [by apply elem_of_map_to_list|by exists o].
  - intros (order & Ho & Hp). unfold LookupType_in in Hp. rewrite Hinit in Hp.
    simpl in Hp. apply LookupType_range_Panics in Hp as (k & p & o & Hin & Hobj & Hs).
    exists k, p, o. by rewrite <- (range_order_lookup _ order).
  - intros (k & p & o & Hp & Hobj & Hs).
    destruct (Hfirst k p Hp) as [rest Ho]. exists ((k, p) :: rest). split; [done|].
    unfold LookupType_in. rewrite Hinit. simpl. by rewrite Hobj, Hs.
Qed.

Lemma LookupType_finds_declared_witness :
  LookupType ProgramSample.repo "main"
    (Ok (buildTypeInfo ProgramSample.repo "main" "main" ProgramSample.main
           ProgramSample.mainFunc)) ∧
  LookupType_panics ProgramSample.repo "MaxDepth".
Proof.
  split.
  - apply (proj2 (proj1 (LookupType_finds_declared ProgramSample.repo "main" eq_refl) _)).
    left. exists "main", ProgramSample.main, ProgramSample.mainFunc.
    repeat split; vm_compute; reflexivity.
  - apply (proj2 (proj2 (LookupType_finds_declared ProgramSample.repo "MaxDepth" eq_refl))).
    exists "main", ProgramSample.main, ProgramSample.MaxDepth.
    repeat split; vm_compute; reflexivity.
Defined.

(** ** The whole-repository pass: [AnalyzeRepository] *)

Section WholeRepository.
Context (a : Analyzer.t).

(** What one name adds to the functions, variables and constants;
    the packages are left alone. *)
Lemma analyzeName_rest pkgName scope name res res' :
  analyzeName a pkgName scope name res res' →
  AnalysisResult.Functions res' =
    AnalysisResult.Functions res ++ option_list (functionAt a pkgName scope name) ∧
  AnalysisResult.Variables res' =
    AnalysisResult.Variables res ++ option_list (variableAt a pkgName scope name) ∧
  AnalysisResult.Constants res' =
    AnalysisResult.Constants res ++ option_list (constantAt a pkgName scope name) ∧
  AnalysisResult.Packages res' = AnalysisResult.Packages res.
Proof.
  unfold analyzeName, functionAt, variableAt, constantAt.
  destruct (types.Scope.Lookup scope name) as [obj|];
    [|intros ->; simpl; by rewrite !app_nil_r].
  destruct (types.Object.Class obj);
    try (intros ->; simpl; by rewrite !app_nil_r).
  intros (r & _ & ->). destruct r; simpl; by rewrite !app_nil_r.
Qed.

Lemma omap_cons_list {A B : Type} (f : A → option B) (x : A) (l : list A) :
  omap f (x :: l) = option_list (f x) ++ omap f l.
Proof. simpl. by destruct (f x). Qed.

Lemma analyzeNames_rest pkgName scope names res res' :
  range_fold (analyzeName a pkgName scope) names res res' →
  AnalysisResult.Functions res' =
    AnalysisResult.Functions res ++ omap (functionAt a pkgName scope) names ∧
  AnalysisResult.Variables res' =
    AnalysisResult.Variables res ++ omap (variableAt a pkgName scope) names ∧
  AnalysisResult.Constants res' =
    AnalysisResult.Constants res ++ omap (constantAt a pkgName scope) names ∧
  AnalysisResult.Packages res' = AnalysisResult.Packages res.
Proof.
  induction 1 as [res|name names res mid res' Hstep _ IH].
  - simpl. by rewrite !app_nil_r.
  - apply analyzeName_rest in Hstep as (Hf & Hv & Hc & Hp).
    destruct IH as (Hf' & Hv' & Hc' & Hp').
    rewrite !omap_cons_list, !app_assoc, <- Hf, <- Hv, <- Hc, <- Hp. done.
Qed.

Lemma analyzePackages_rest order res res' :
  range_fold (analyzePackage a) order res res' →
  AnalysisResult.Functions res' =
    AnalysisResult.Functions res ++ declarations (functionAt a) order ∧
  AnalysisResult.Variables res' =
    AnalysisResult.Variables res ++ declarations (variableAt a) order ∧
  AnalysisResult.Constants res' =
    AnalysisResult.Constants res ++ declarations (constantAt a) order ∧
  AnalysisResult.Packages res' = AnalysisResult.Packages res.
Proof.
  unfold declarations.
  induction 1 as [res|entry order res mid res' Hstep _ IH].
  - simpl. by rewrite !app_nil_r.
  - apply analyzeNames_rest in Hstep as (Hf & Hv & Hc & Hp).
    destruct IH as (Hf' & Hv' & Hc' & Hp'). simpl.
    rewrite !app_assoc, <- Hf, <- Hv, <- Hc, <- Hp. done.
Qed.

(** The second loop appends one summary per package and touches
    nothing else. *)
Lemma addPackages_spec order' res :
  let res' :=
    fold_left (λ result entry, addPackage (packageInfo a entry.1 entry.2) result)
      order' res in
  AnalysisResult.Types res' = AnalysisResult.Types res ∧
  AnalysisResult.Functions res' = AnalysisResult.Functions res ∧
  AnalysisResult.Variables res' = AnalysisResult.Variables res ∧
  AnalysisResult.Constants res' = AnalysisResult.Constants res ∧
  AnalysisResult.Packages res' =
    AnalysisResult.Packages res ++ map (λ entry, packageInfo a entry.1 entry.2) order'.
Proof.
  revert res. induction order' as [|entry order' IH]; intros res; simpl.
  - by rewrite app_nil_r.
  - destruct (IH (addPackage (packageInfo a entry.1 entry.2) res))
      as (Ht & Hf & Hv & Hc & Hp).
    simpl in *. rewrite Ht, Hf, Hv, Hc, Hp, <- app_assoc. done.
Qed.

Lemma analyzeName_in_sound inner pkgName scope name res res' :
  range_order (Analyzer.pkgs a) inner →
  analyzeName_in a inner pkgName scope res name = Returns res' →
  analyzeName a pkgName scope name res res'.
Proof.
  intros Hi. unfold analyzeName, analyzeName_in.
  destruct (types.Scope.Lookup scope name) as [obj|]; [|by intros [= <-]].
  destruct (types.Object.Class obj); try by intros [= <-].
  destruct (LookupType_in a inner (types.Object.Name obj)) as [r|] eqn:Hr; [|done].
  intros Hres. exists r. split; [by exists inner|]. destruct r; congruence.
Qed.

Lemma analyzePackage_in_sound inner entry res res' :
  range_order (Analyzer.pkgs a) inner →
  analyzePackage_in a inner res entry = Returns res' →
  analyzePackage a entry res res'.
Proof.
  intros Hi. unfold analyzePackage, analyzePackage_in. apply range_in_sound.
  intros name t t'. by apply analyzeName_in_sound.
Qed.

Lemma AnalyzeRepository_in_sound order order' inner r :
  range_order (Analyzer.pkgs a) order → range_order (Analyzer.pkgs a) order' →
  range_order (Analyzer.pkgs a) inner →
  AnalyzeRepository_in a order order' inner = Returns r →
  AnalyzeRepository a r.
Proof.
  intros Ho Ho' Hi. unfold AnalyzeRepository, AnalyzeRepository_in.
  destruct (Analyzer.initialized a); simpl; [|by intros [= <-]].
  destruct (range_in (analyzePackage_in a inner) order AnalysisResult.empty)
    as [mid|] eqn:Hfold; [|done].
  simpl. intros [= <-]. exists order, order', mid.
  split; [done|]. split; [done|]. split; [|done].
  eapply range_in_sound; [|exact Hfold].
  intros entry t t'. by apply analyzePackage_in_sound.
Qed.

Context (Hinit : Analyzer.initialized a = true).

Lemma AnalyzeRepository_Ok r :
  AnalyzeRepository a r →
  ∃ order order' mid,
    range_order (Analyzer.pkgs a) order ∧
    range_order (Analyzer.pkgs a) order' ∧
    range_fold (analyzePackage a) order AnalysisResult.empty mid ∧
    r = Ok (setMetrics
              (fold_left (λ result entry, addPackage (packageInfo a entry.1 entry.2) result)
                 order' mid)).
Proof.
  unfold AnalyzeRepository. rewrite Hinit. simpl.
  intros (order & order' & mid & ? & ? & ? & ?). by exists order, order', mid.
Qed.

Context (Hwf : wellFormed a).

Lemma analyzeNames_types pkgName pkg names res res' :
  Analyzer.pkgs a !! pkgName = Some pkg →
  range_fold (analyzeName a pkgName (types.Package.Scope pkg)) names res res' →
  ∃ found,
    AnalysisResult.Types res' = AnalysisResult.Types res ++ found ∧
    Forall2 (λ name typeInfo, LookupType a name (Ok typeInfo))
      (omap (typeNameAt (types.Package.Scope pkg)) names) found.
Proof.
  intros Hpkg. induction 1 as [res|name names res mid res' Hstep _ IH].
  - exists []. split; [by rewrite app_nil_r|constructor].
  - destruct IH as (found & -> & Hfound).
    pose proof (typeNameAt_declared a Hwf pkgName pkg name) as Hdecl.
    unfold analyzeName in Hstep. unfold typeNameAt in *. simpl.
    destruct (types.Scope.Lookup (types.Package.Scope pkg) name) as [obj|];
      [|subst mid; by exists found].
    destruct (types.Object.Class obj);
      try (subst mid; simpl; by exists found).
    destruct Hstep as (r & Hr & ->).
    destruct (LookupType_declared a Hinit _ pkgName r (Hdecl _ Hpkg eq_refl) Hr)
      as (typeInfo & -> & _).
    exists (typeInfo :: found). simpl. split; [by rewrite <- app_assoc|by constructor].
Qed.

Lemma analyzePackages_types order res res' :
  (∀ entry, entry ∈ order → Analyzer.pkgs a !! entry.1 = Some entry.2) →
  range_fold (analyzePackage a) order res res' →
  ∃ found,
    AnalysisResult.Types res' = AnalysisResult.Types res ++ found ∧
    Forall2 (λ name typeInfo, LookupType a name (Ok typeInfo)) (allTypeNames order) found.
Proof.
  intros Hin Hfold. unfold allTypeNames.
  induction Hfold as [res|[pkgName pkg] order res mid res' Hstep _ IH].
  - exists []. split; [by rewrite app_nil_r|constructor].
  - destruct IH as (found' & -> & Hfound'); [intros e He; apply Hin; by right|].
    apply (analyzeNames_types pkgName) in Hstep as (found & -> & Hfound);
      [|apply (Hin (pkgName, pkg)); left].
    exists (found ++ found'). split; [by rewrite <- app_assoc|].
    simpl. by apply Forall2_app.
Qed.

(** A call of [AnalyzeRepository] returns or panics. *)
Lemma AnalyzeRepository_returns_or_panics :
  (∃ r, AnalyzeRepository a r) ∨ AnalyzeRepository_panics a.
Proof.
  destruct (range_fold_returns_or_panics (analyzePackage a) (analyzePackage_panics a)
              (map_to_list (Analyzer.pkgs a))) with (s := AnalysisResult.empty)
    as [[mid Hfold]|Hpanics].
  - intros [pkgName pkg] _ res. unfold analyzePackage, analyzePackage_panics. simpl.
    apply range_fold_returns_or_panics. intros name _ found.
    unfold analyzeName, analyzeName_panics.
    destruct (types.Scope.Lookup (types.Package.Scope pkg) name) as [obj|];
      [|left; by exists found].
    destruct (types.Object.Class obj); try (left; by eexists).
    destruct (LookupType_returns_or_panics a (types.Object.Name obj)) as [[r Hr]|Hp];
      [left|by right].
    eexists. by exists r.
  - left. eexists. unfold AnalyzeRepository. rewrite Hinit. simpl.
    exists (map_to_list (Analyzer.pkgs a)), (map_to_list (Analyzer.pkgs a)), mid.
    split; [apply range_order_map_to_list|]. split; [apply range_order_map_to_list|].
    by split.
  - right. split; [done|]. exists (map_to_list (Analyzer.pkgs a)).
    split; [apply range_order_map_to_list|done].
Qed.

(** [AnalyzeRepository] panics only in the lookup of the name of a
    type declaration. *)
Lemma AnalyzeRepository_panics_inv :
  AnalyzeRepository_panics a →
  ∃ pkgName typeName, declaresType a pkgName typeName ∧ LookupType_panics a typeName.
Proof.
  intros (_ & order & Ho & Hpanics).
  apply range_panics_inv in Hpanics as ([pkgName pkg] & res & Hin & Hpanics).
  apply (range_order_lookup _ _ _ _ Ho) in Hin.
  unfold analyzePackage_panics in Hpanics. simpl in Hpanics.
  apply range_panics_inv in Hpanics as (name & found & _ & Hpanics).
  unfold analyzeName_panics in Hpanics.
  destruct (types.Scope.Lookup (types.Package.Scope pkg) name) as [obj|] eqn:Hobj;
    [|done].
  destruct (types.Object.Class obj) eqn:Hclass; try done.
  exists pkgName, (types.Object.Name obj). split; [|done].
  exists pkg, obj. by rewrite (Hwf _ _ _ _ Hin Hobj).
Qed.

(** [AnalyzeRepository] returns when no lookup of the name of a type
    declaration panics. *)
Lemma AnalyzeRepository_returns :
  (∀ pkgName typeName, declaresType a pkgName typeName → ¬ LookupType_panics a typeName) →
  ∃ r, AnalyzeRepository a r.
Proof.
  intros Hsafe. destruct AnalyzeRepository_returns_or_panics as [Hr|Hpanics]; [done|].
  apply AnalyzeRepository_panics_inv in Hpanics as (pkgName & typeName & Hdecl & Hp).
  by destruct (Hsafe pkgName typeName Hdecl).
Qed.

End WholeRepository.

(** On the sample program [AnalyzeRepository] returns: the only name
    it looks up is that of the type [Options]. *)
Lemma AnalyzeRepository_ProgramSample :
  ∃ r,
    AnalyzeRepository_in ProgramSample.repo
      (map_to_list (Analyzer.pkgs ProgramSample.repo))
      (map_to_list (Analyzer.pkgs ProgramSample.repo))
      (map_to_list (Analyzer.pkgs ProgramSample.repo)) = Returns r ∧
    AnalyzeRepository ProgramSample.repo r.
Proof.
  assert (∃ r, AnalyzeRepository_in ProgramSample.repo
                 (map_to_list (Analyzer.pkgs ProgramSample.repo))
                 (map_to_list (Analyzer.pkgs ProgramSample.repo))
                 (map_to_list (Analyzer.pkgs ProgramSample.repo)) = Returns r)
    as [r Hr] by (eexists; vm_compute; reflexivity).
  exists r. split; [done|].
  by apply AnalyzeRepository_in_sound in Hr; try apply range_order_map_to_list.
Qed.

(** X6. On an initialized analyzer [AnalyzeRepository] returns one
    package summary per analyzed package, each the very summary
    [GetPackageInfo] returns for that package, and its metrics count
    the packages analyzed and the types and functions listed. *)
Theorem AnalyzeRepository_packages (a : Analyzer.t) (r : result AnalysisResult.t) :
  Analyzer.initialized a = true → AnalyzeRepository a r →
  ∃ res,
    r = Ok res ∧
    map PackageInfo.Name (AnalysisResult.Packages res) ≡ₚ (map_to_list (Analyzer.pkgs a)).*1 ∧
    Forall (λ info, GetPackageInfo a (PackageInfo.Name info) = Ok info)
      (AnalysisResult.Packages res) ∧
    AnalysisMetrics.TotalPackages (AnalysisResult.Metrics res) = size (Analyzer.pkgs a) ∧
    AnalysisMetrics.TotalTypes (AnalysisResult.Metrics res) =
      length (AnalysisResult.Types res) ∧
    AnalysisMetrics.TotalFunctions (AnalysisResult.Metrics res) =
      length (AnalysisResult.Functions res).
Proof.
  intros Hinit (order & order' & mid & Ho & Ho' & Hfold & ->)%AnalyzeRepository_Ok; [|done].
  eexists. split; [reflexivity|].
  apply analyzePackages_rest in Hfold as (_ & _ & _ & Hp). simpl in Hp.
  destruct (addPackages_spec a order' mid) as (_ & _ & _ & _ & Hp').
  simpl in Hp'. rewrite Hp in Hp'. simpl in Hp'. simpl. rewrite Hp'.
  unfold range_order in Ho'. split; [|split; [|split; [|done]]].
  - rewrite map_map. simpl. rewrite map_fmap. by rewrite Ho'.
  - apply Forall_forall. intros info Hinfo.
    apply list_elem_of_In, in_map_iff in Hinfo as ([k p] & <- & Hin).
    apply list_elem_of_In in Hin. rewrite Ho' in Hin.
    apply elem_of_map_to_list in Hin. unfold GetPackageInfo. simpl. by rewrite Hin.
  - by rewrite length_map, Ho', length_map_to_list.
Qed.

Lemma AnalyzeRepository_packages_witness :
  ∃ r res,
    AnalyzeRepository_in ProgramSample.repo
      (map_to_list (Analyzer.pkgs ProgramSample.repo))
      (map_to_list (Analyzer.pkgs ProgramSample.repo))
      (map_to_list (Analyzer.pkgs ProgramSample.repo)) = Returns r ∧
    r = Ok res ∧
    map PackageInfo.Name (AnalysisResult.Packages res)
      ≡ₚ (map_to_list (Analyzer.pkgs ProgramSample.repo)).*1 ∧
    Forall (λ info, GetPackageInfo ProgramSample.repo (PackageInfo.Name info) = Ok info)
      (AnalysisResult.Packages res) ∧
    AnalysisMetrics.TotalPackages (AnalysisResult.Metrics res) =
      size (Analyzer.pkgs ProgramSample.repo) ∧
    AnalysisMetrics.TotalTypes (AnalysisResult.Metrics res) =
      length (AnalysisResult.Types res) ∧
    AnalysisMetrics.TotalFunctions (AnalysisResult.Metrics res) =
      length (AnalysisResult.Functions res).
Proof.
  destruct AnalyzeRepository_ProgramSample as (r & Hr & Hrun).
  destruct (AnalyzeRepository_packages ProgramSample.repo r eq_refl Hrun) as (res & Hres).
  exists r, res. split; [exact Hr|exact Hres].
Defined.

(** X7. On an initialized analyzer without any package,
    [AnalyzeRepository] returns a result whose sequences are all empty
    and whose counts are all zero, and no error. *)
Theorem AnalyzeRepository_empty (a : Analyzer.t) (r : result AnalysisResult.t) :
  Analyzer.initialized a = true → Analyzer.pkgs a = ∅ →
  AnalyzeRepository a r ↔
  r = Ok (AnalysisResult.mk [] [] [] [] [] (AnalysisMetrics.mk 0 0 0)).
Proof.
  intros Hinit Hempty. split.
  - intros (order & order' & mid & Ho & Ho' & Hfold & ->)%AnalyzeRepository_Ok; [|done].
    unfold range_order in *. rewrite Hempty, map_to_list_empty in Ho, Ho'.
    apply Permutation_nil_r in Ho as ->. apply Permutation_nil_r in Ho' as ->.
    by inversion Hfold; subst.
  - intros ->. unfold AnalyzeRepository. rewrite Hinit. simpl.
    exists [], [], AnalysisResult.empty. unfold range_order.
    rewrite Hempty, map_to_list_empty. repeat split; [done|done|constructor].
Qed.

Lemma AnalyzeRepository_empty_witness :
  AnalyzeRepository
    (Analyzer.mk "/empty" token.NewFileSet ∅ ∅ true DefaultConfig ∅)
    (Ok (AnalysisResult.mk [] [] [] [] [] (AnalysisMetrics.mk 0 0 0))).
Proof.
  apply (AnalyzeRepository_empty
           (Analyzer.mk "/empty" token.NewFileSet ∅ ∅ true DefaultConfig ∅));
    reflexivity.
Defined.

(** X8. On an initialized analyzer the functions, the variables and
    the constants [AnalyzeRepository] returns are those of the
    package scopes, package after package in the order the packages
    were visited and, within a package, in the sorted order of the
    scope's names, each described with the name of its package. *)
Theorem AnalyzeRepository_declarations (a : Analyzer.t) (r : result AnalysisResult.t) :
  Analyzer.initialized a = true → AnalyzeRepository a r →
  ∃ res order,
    r = Ok res ∧
    range_order (Analyzer.pkgs a) order ∧
    AnalysisResult.Functions res = declarations (functionAt a) order ∧
    AnalysisResult.Variables res = declarations (variableAt a) order ∧
    AnalysisResult.Constants res = declarations (constantAt a) order.
Proof.
  intros Hinit (order & order' & mid & Ho & Ho' & Hfold & ->)%AnalyzeRepository_Ok; [|done].
  eexists. exists order. split; [reflexivity|]. split; [done|].
  apply analyzePackages_rest in Hfold as (Hf & Hv & Hc & _).
  destruct (addPackages_spec a order' mid) as (_ & Hf' & Hv' & Hc' & _).
  simpl in *. by rewrite Hf', Hv', Hc', Hf, Hv, Hc.
Qed.

Lemma AnalyzeRepository_declarations_witness :
  ∃ r res order,
    AnalyzeRepository_in ProgramSample.repo
      (map_to_list (Analyzer.pkgs ProgramSample.repo))
      (map_to_list (Analyzer.pkgs ProgramSample.repo))
      (map_to_list (Analyzer.pkgs ProgramSample.repo)) = Returns r ∧
    r = Ok res ∧
    range_order (Analyzer.pkgs ProgramSample.repo) order ∧
    AnalysisResult.Functions res = declarations (functionAt ProgramSample.repo) order ∧
    AnalysisResult.Variables res = declarations (variableAt ProgramSample.repo) order ∧
    AnalysisResult.Constants res = declarations (constantAt ProgramSample.repo) order.
Proof.
  destruct AnalyzeRepository_ProgramSample as (r & Hr & Hrun).
  destruct (AnalyzeRepository_declarations ProgramSample.repo r eq_refl Hrun)
    as (res & order & Hres).
  exists r, res, order. split; [exact Hr|exact Hres].
Defined.

(** X9. On an initialized analyzer whose scopes are well formed the
    types [AnalyzeRepository] returns are, declaration by declaration,
    descriptors [LookupType] returns for the names of the type
    declarations; the count of types is the number of type
    declarations, and the names are those [SearchTypes] returns for
    the empty query. *)
Theorem AnalyzeRepository_types (unicodeLower : string → string)
    (a : Analyzer.t) (r : result AnalysisResult.t) :
  Analyzer.initialized a = true → wellFormed a → AnalyzeRepository a r →
  ∃ res order,
    r = Ok res ∧
    range_order (Analyzer.pkgs a) order ∧
    Forall2 (λ name typeInfo, LookupType a name (Ok typeInfo))
      (allTypeNames order) (AnalysisResult.Types res) ∧
    map TypeInfo.Name (AnalysisResult.Types res) = hits unicodeLower order "" ∧
    AnalysisMetrics.TotalTypes (AnalysisResult.Metrics res) = length (allTypeNames order).
Proof.
  intros Hinit Hwf (order & order' & mid & Ho & Ho' & Hfold & ->)%AnalyzeRepository_Ok;
    [|done].
  eexists. exists order. split; [reflexivity|]. split; [done|].
  apply (analyzePackages_types a Hinit Hwf) in Hfold as (found & Ht & Hfound).
  2:{ intros [k p] Hin. by apply (range_order_lookup _ order). }
  destruct (addPackages_spec a order' mid) as (Ht' & _).
  simpl in *. rewrite Ht', Ht. split; [done|]. split.
  - rewrite hits_empty. clear Ht.
    induction Hfound as [|name typeInfo names found Hlookup _ IH]; [done|]. simpl.
    apply LookupType_Ok in Hlookup as (_ & k & p & o & _ & _ & ->).
    by rewrite buildTypeInfo_Name, IH.
  - symmetry. by eapply Forall2_length.
Qed.

Lemma AnalyzeRepository_types_witness :
  ∃ r res order,
    AnalyzeRepository_in ProgramSample.repo
      (map_to_list (Analyzer.pkgs ProgramSample.repo))
      (map_to_list (Analyzer.pkgs ProgramSample.repo))
      (map_to_list (Analyzer.pkgs ProgramSample.repo)) = Returns r ∧
    r = Ok res ∧
    range_order (Analyzer.pkgs ProgramSample.repo) order ∧
    Forall2 (λ name typeInfo, LookupType ProgramSample.repo name (Ok typeInfo))
      (allTypeNames order) (AnalysisResult.Types res) ∧
    map TypeInfo.Name (AnalysisResult.Types res) = hits strings.lowerBytes order "" ∧
    AnalysisMetrics.TotalTypes (AnalysisResult.Metrics res) = length (allTypeNames order).
Proof.
  destruct AnalyzeRepository_ProgramSample as (r & Hr & Hrun).
  destruct (AnalyzeRepository_types strings.lowerBytes ProgramSample.repo r eq_refl)
    as (res & order & Hres); [|exact Hrun|].
  - apply wellFormedb_spec. vm_compute. reflexivity.
  - exists r, res, order. split; [exact Hr|exact Hres].
Defined.

(** ** What a build leaves behind *)

Section Build.
#[local] Set Warnings "-clear-no-such-hyp".

Lemma scopeDoc_bare pkgName scope : bare (scopeDoc pkgName scope).
Proof.
  unfold scopeDoc.
  assert (bare (doc.Package.mk pkgName "" [] [] [])) as Hstart by by repeat split.
  revert Hstart. generalize (doc.Package.mk pkgName "" [] [] []).
  induction (types.Scope.Names scope) as [|name names IH]; intros docPkg Hbare; simpl;
    [done|].
  apply IH. destruct (types.Scope.Lookup scope name) as [obj|]; [|done].
  destruct Hbare as (Hdoc & Hex & Htypes & Hfuncs).
  destruct (types.Object.Class obj); try done; repeat split; simpl; try done.
  - apply Forall_app. split; [done|]. by repeat constructor.
  - apply Forall_app. split; [done|]. by repeat constructor.
Qed.

(** A bare documentation package contributes no example. *)
Lemma packageExamples_bare (unicodeLower : string → string) docPkg topic examples :
  bare docPkg → packageExamples unicodeLower docPkg topic examples = examples.
Proof.
  intros (_ & Hex & Htypes & Hfuncs). unfold packageExamples. rewrite Hex. simpl.
  assert (fold_left
            (λ examples docType,
               if matchesTopic unicodeLower (doc.Type_.Name docType) topic
               then examples ++ map exampleText (doc.Type_.Examples docType)
               else examples)
            (doc.Package.Types docPkg) examples = examples) as ->.
  { induction Htypes as [|docType types [_ Hnone] _ IH]; simpl; [done|].
    rewrite Hnone. simpl. rewrite app_nil_r.
    by destruct (matchesTopic unicodeLower (doc.Type_.Name docType) topic). }
  induction Hfuncs as [|docFunc funcs Hnone _ IH]; simpl; [done|].
  rewrite Hnone. simpl. rewrite app_nil_r.
  by destruct (matchesTopic unicodeLower (doc.Func.Name docFunc) topic).
Qed.

Lemma GetExample_bare (unicodeLower : string → string) a topic r :
  (∀ pkgName docPkg, Analyzer.docPkgs a !! pkgName = Some docPkg → bare docPkg) →
  GetExample unicodeLower a topic r → r = Err (ErrNoExamples topic).
Proof.
  intros Hbare (order & Ho & <-). unfold GetExample_in.
  assert (∀ entry, entry ∈ order → bare entry.2) as Hall.
  { intros [k d] Hin. apply (Hbare k). by apply (range_order_lookup _ order). }
  assert (fold_left (λ examples entry, packageExamples unicodeLower entry.2 topic examples) order []
          = []) as ->; [|done].
  clear Ho. induction order as [|entry order IH]; simpl; [done|].
  rewrite packageExamples_bare by (apply Hall; left).
  apply IH. intros e He. apply Hall. by right.
Qed.

(** [generateDocumentation] rewrites the documentation of the
    packages it visits and nothing else. *)
Lemma generateDocumentation_spec a order :
  let a' := generateDocumentation a order in
  Analyzer.pkgs a' = Analyzer.pkgs a ∧
  Analyzer.files a' = Analyzer.files a ∧
  Analyzer.config a' = Analyzer.config a ∧
  dom (Analyzer.docPkgs a') = dom (Analyzer.docPkgs a) ∪ list_to_set order.*1 ∧
  ∀ pkgName docPkg,
    Analyzer.docPkgs a' !! pkgName = Some docPkg →
    bare docPkg ∨ Analyzer.docPkgs a !! pkgName = Some docPkg.
Proof.
  unfold generateDocumentation. revert a.
  induction order as [|[k p] order IH]; intros a; simpl.
  - repeat split; [set_solver|]. intros ? ? ?. by right.
  - destruct (IH (setDocPkg k (scopeDoc k (types.Package.Scope p)) a))
      as (Hp & Hf & Hc & Hd & Hb).
    simpl in *. rewrite Hp, Hf, Hc, Hd. repeat split.
    + rewrite dom_insert_L. set_solver.
    + intros pkgName docPkg Hlookup. apply Hb in Hlookup as [?|Hlookup]; [by left|].
      apply lookup_insert_Some in Hlookup as [[_ <-]|[_ ?]]; [left|by right].
      apply scopeDoc_bare.
Qed.

(** [typeCheckPackages] replaces packages under the names it visits
    and touches neither the files nor the documentation. *)
Lemma typeCheckPackages_spec a env order :
  let a' := typeCheckPackages a env order in
  Analyzer.files a' = Analyzer.files a ∧
  Analyzer.docPkgs a' = Analyzer.docPkgs a ∧
  Analyzer.config a' = Analyzer.config a ∧
  dom (Analyzer.pkgs a) ⊆ dom (Analyzer.pkgs a') ∧
  dom (Analyzer.pkgs a') ⊆ dom (Analyzer.pkgs a) ∪ list_to_set order.*1.
Proof.
  unfold typeCheckPackages. revert a.
  induction order as [|[k fs] order IH]; intros a; simpl.
  - repeat split; set_solver.
  - match goal with |- context [fold_left _ order ?a1] => destruct (IH a1) as
        (Hf & Hd & Hc & Hsub & Hsup) end.
    rewrite Hf, Hd, Hc.
    destruct (Rechecked.checked (Env.recheck env k fs)) as [pkg|]; simpl in *.
    + rewrite dom_insert_L in Hsub, Hsup. repeat split; set_solver.
    + repeat split; set_solver.
Qed.

Lemma parseFile_docPkgs a filename parsed :
  Analyzer.docPkgs (parseFile a filename parsed) = Analyzer.docPkgs a.
Proof.
  unfold parseFile. destruct parsed as [file|]; [|done].
  by destruct (ParsedFile.checked file).
Qed.

Lemma parseRepository_walk_docPkgs a entries :
  Analyzer.docPkgs (parseRepository_walk a entries).1 = Analyzer.docPkgs a.
Proof.
  revert a. induction entries as [|entry entries IH]; intros a; simpl; [done|].
  destruct (WalkEntry.err entry); [done|].
  repeat (match goal with |- context [if ?b then _ else _] => destruct b end;
          [apply IH|]).
  rewrite IH. apply parseFile_docPkgs.
Qed.

Lemma existsb_false_Forall {A : Type} (f : A → bool) (l : list A) :
  existsb f l = false → Forall (λ x, f x = false) l.
Proof.
  induction l as [|x l IH]; simpl; [constructor|].
  intros [? ?]%orb_false_iff. constructor; [done|by apply IH].
Qed.

Lemma parseRepository_walk_keeps config all entries a :
  (∀ entry, entry ∈ entries → entry ∈ all) →
  walkKeeps config all a → walkKeeps config all (parseRepository_walk a entries).1.
Proof.
  revert a. induction entries as [|entry entries IH]; intros a Hall Hkeeps; simpl; [done|].
  assert (∀ e, e ∈ entries → e ∈ all) as Hrest by (intros e He; apply Hall; by right).
  destruct (WalkEntry.err entry) eqn:Herr; [done|].
  destruct (WalkEntry.IsDir entry || negb (strings.HasSuffix (WalkEntry.path entry) ".go"))
    eqn:Hgo; [by apply IH|].
  destruct (existsb _ (Config.ExcludePatterns (Analyzer.config a))) eqn:Hexcl;
    [by apply IH|].
  destruct (negb (Config.IncludeTests (Analyzer.config a))
            && strings.HasSuffix (WalkEntry.path entry) "_test.go") eqn:Htest;
    [by apply IH|].
  destruct (Config.MaxFileSize (Analyzer.config a) <? WalkEntry.Size entry)%Z eqn:Hsize;
    [by apply IH|].
  apply IH; [done|]. destruct Hkeeps as (Hconfig & Hdom & Hsome & Hfiles).
  unfold parseFile. destruct (WalkEntry.parsed entry) as [file|]; [|done].
  destruct (ParsedFile.checked file) as [pkg|]; [|done].
  split; [done|]. split; [simpl; rewrite !dom_insert_L; by rewrite Hdom|].
  split.
  { intros pkgName. simpl. intros [[_ Hnil]|[_ Hold]]%lookup_insert_Some;
      [by apply app_nil in Hnil as [_ ?]|by apply (Hsome pkgName)]. }
  intros pkgName recorded path. simpl.
  intros [[<- <-]|[_ Hold]]%lookup_insert_Some Hin; [|by eapply Hfiles].
  apply elem_of_app in Hin as [Hin|Hin].
  - destruct (Analyzer.files a !! ParsedFile.pkgName file) as [old|] eqn:Hold;
      [|by apply elem_of_nil in Hin].
    by eapply Hfiles.
  - apply list_elem_of_singleton in Hin as ->.
    apply orb_false_iff in Hgo as [Hdir Hgo]. apply negb_false_iff in Hgo.
    rewrite Hconfig in *. split.
    + split; [done|]. split; [by apply existsb_false_Forall|].
      intros Hinclude. rewrite Hinclude in Htest. by simpl in Htest.
    + exists entry. split; [apply Hall; left|].
      repeat split; try done. by apply Z.ltb_ge.
Qed.

Lemma blank_keeps a entries : blank a → walkKeeps (Analyzer.config a) entries a.
Proof.
  intros (Hp & _ & Hf). split; [done|]. split; [by rewrite Hp, Hf|].
  split; [intros k; by rewrite Hf, lookup_empty|].
  intros k recorded file. by rewrite Hf, lookup_empty.
Qed.

(** From a blank state a build, failed or not, leaves the files of
    the packages it kept and nothing but bare documentation; when it
    succeeds every package is documented. *)
Lemma initialize_leaves a env a' err :
  blank a → initialize a env a' err →
  walkKeeps (Analyzer.config a) (Env.walk env) a' ∧
  (∀ pkgName docPkg, Analyzer.docPkgs a' !! pkgName = Some docPkg → bare docPkg) ∧
  match err with
  | None => dom (Analyzer.docPkgs a') = dom (Analyzer.pkgs a')
  | Some _ => Analyzer.docPkgs a' = ∅
  end.
Proof.
  intros Hblank. unfold initialize, parseRepository.
  pose proof (parseRepository_walk_keeps (Analyzer.config a) (Env.walk env) (Env.walk env) a
                (λ _ H, H) (blank_keeps a _ Hblank)) as Hkeeps.
  pose proof (parseRepository_walk_docPkgs a (Env.walk env)) as Hdocs.
  destruct Hblank as (_ & Hnodocs & _). rewrite Hnodocs in Hdocs.
  destruct (parseRepository_walk a (Env.walk env)) as [a1 [cause|]]; simpl in *.
  - intros [-> ->]. split; [done|]. split; [|done].
    intros k d. by rewrite Hdocs, lookup_empty.
  - intros (order & order' & Ho & Ho' & -> & ->).
    destruct (typeCheckPackages_spec a1 env order) as (Hf & Hd & Hc & Hsub & Hsup).
    destruct (generateDocumentation_spec (typeCheckPackages a1 env order) order')
      as (Hp' & Hf' & Hc' & Hd' & Hb').
    simpl in *. destruct Hkeeps as (Hconfig & Hdom & Hsome & Hfiles).
    assert (list_to_set order.*1 = dom (Analyzer.files a1)) as Hkeys.
    { unfold range_order in Ho. apply set_eq. intros k.
      rewrite elem_of_list_to_set, Ho, elem_of_dom.
      rewrite list_elem_of_fmap. split.
      - intros ([k' fs] & -> & Hin). apply elem_of_map_to_list in Hin. by exists fs.
      - intros [fs Hfs]. exists (k, fs). split; [done|]. by apply elem_of_map_to_list. }
    assert (dom (Analyzer.pkgs (typeCheckPackages a1 env order)) = dom (Analyzer.pkgs a1))
      as Hsame by (rewrite Hkeys, Hdom in Hsup; set_solver).
    split; [|split].
    + unfold walkKeeps. simpl. rewrite Hc', Hc, Hp', Hf', Hf, Hsame. done.
    + intros k d Hlookup. apply Hb' in Hlookup as [?|Hlookup]; [done|].
      rewrite Hd, Hdocs, lookup_empty in Hlookup. done.
    + rewrite Hd', Hp', Hd, Hdocs, dom_empty_L.
      assert (list_to_set order'.*1 = dom (Analyzer.pkgs (typeCheckPackages a1 env order)))
        as ->; [|set_solver].
      unfold range_order in Ho'. apply set_eq. intros k.
      rewrite elem_of_list_to_set, Ho', elem_of_dom, list_elem_of_fmap. split.
      * intros ([k' p] & -> & Hin). apply elem_of_map_to_list in Hin. by exists p.
      * intros [p Hp]. exists (k, p). split; [done|]. by apply elem_of_map_to_list.
Qed.

Lemma clear_blank a : blank (clear a).
Proof. by repeat split. Qed.

Lemma buildTypeInfo_Doc a typeName pkgName pkg obj :
  TypeInfo.Doc (buildTypeInfo a typeName pkgName pkg obj) = typeDoc a pkgName typeName.
Proof.
  unfold buildTypeInfo, analyzeUnderlying.
  by destruct (types.Type_.Underlying (types.Object.Type' obj)).
Qed.

Lemma typeDoc_bare a pkgName typeName :
  (∀ k docPkg, Analyzer.docPkgs a !! k = Some docPkg → bare docPkg) →
  typeDoc a pkgName typeName = "".
Proof.
  intros Hbare. unfold typeDoc.
  destruct (Analyzer.docPkgs a !! pkgName) as [docPkg|] eqn:Hdoc; [|done].
  destruct (Hbare _ _ Hdoc) as (_ & _ & Htypes & _).
  destruct (find _ (doc.Package.Types docPkg)) as [docType|] eqn:Hfind; [|done].
  apply find_some in Hfind as [Hin _]. rewrite Forall_forall in Htypes.
  by apply list_elem_of_In, Htypes in Hin as [? _].
Qed.

(** The walk up to its first error. *)
Lemma parseRepository_walk_app a before rest :
  Forall (λ entry, WalkEntry.err entry = None) before →
  parseRepository_walk a (before ++ rest) =
  parseRepository_walk (parseRepository_walk a before).1 rest.
Proof.
  intros Hnone. revert a.
  induction Hnone as [|entry before Herr _ IH]; intros a; simpl; [done|].
  rewrite Herr.
  repeat (match goal with |- context [if ?b then _ else _] => destruct b end;
          [apply IH|]).
  apply IH.
Qed.

End Build.

Lemma Refresh_rebuilt : Refresh Samples.shapesRepo Samples.soundWalk rebuilt None.
Proof.
  apply (initialize_succeeds _ _
           (parseRepository (clear Samples.shapesRepo) Samples.soundWalk).1).
  vm_compute. reflexivity.
Qed.

(** X10. An analyzer as [Refresh] leaves it, or as
    [NewAnalyzerWithConfig] hands it out, holds no example: whatever
    the topic, [GetExample] returns the error that no example was
    found. *)
Theorem GetExample_finds_nothing (unicodeLower : string → string) :
  (∀ a env a' err, Refresh a env a' err →
     ∀ topic r, GetExample unicodeLower a' topic r → r = Err (ErrNoExamples topic)) ∧
  (∀ repoPath config env a', NewAnalyzerWithConfig repoPath config env (Ok a') →
     ∀ topic r, GetExample unicodeLower a' topic r → r = Err (ErrNoExamples topic)).
Proof.
  split.
  - intros a env a' err Hr topic r. apply GetExample_bare.
    by apply (initialize_leaves _ _ _ _ (clear_blank a)) in Hr as (_ & ? & _).
  - intros repoPath config env a'. unfold NewAnalyzerWithConfig.
    destruct (Env.stat env); simpl; [|done].
    intros (b & err & Hinit & Hr) topic r. destruct err; [done|]. injection Hr as ->.
    apply GetExample_bare.
    apply initialize_leaves in Hinit as (_ & ? & _); [done|by repeat split].
Qed.

Lemma GetExample_finds_nothing_witness :
  GetExample_in strings.lowerBytes rebuilt (map_to_list (Analyzer.docPkgs rebuilt))
    "Circle" =
  Err (ErrNoExamples "Circle").
Proof.
  apply (proj1 (GetExample_finds_nothing strings.lowerBytes) Samples.shapesRepo
           Samples.soundWalk rebuilt None).
  - apply (initialize_succeeds _ _
             (parseRepository (clear Samples.shapesRepo) Samples.soundWalk).1).
    vm_compute. reflexivity.
  - exists (map_to_list (Analyzer.docPkgs rebuilt)).
    split; [apply range_order_map_to_list|reflexivity].
Defined.

(** X11. On an analyzer as [Refresh] leaves it no documentation text
    is ever attached: the [Doc] of every descriptor [LookupType]
    returns and of every summary [GetPackageInfo] returns is empty. *)
Theorem no_documentation_after_Refresh (a a' : Analyzer.t) (env : Env.t)
    (err : option Error) :
  Refresh a env a' err →
  (∀ typeName typeInfo, LookupType a' typeName (Ok typeInfo) → TypeInfo.Doc typeInfo = "") ∧
  (∀ packageName info, GetPackageInfo a' packageName = Ok info → PackageInfo.Doc info = "").
Proof.
  intros Hr. apply (initialize_leaves _ _ _ _ (clear_blank a)) in Hr as (_ & Hbare & _).
  split.
  - intros typeName typeInfo (_ & k & p & o & _ & _ & ->)%LookupType_Ok.
    rewrite buildTypeInfo_Doc. by apply typeDoc_bare.
  - intros packageName info. unfold GetPackageInfo.
    destruct (Analyzer.pkgs a' !! packageName) as [pkg|]; [|done].
    intros [= <-]. simpl.
    destruct (Analyzer.docPkgs a' !! packageName) as [docPkg|] eqn:Hdoc; [|done].
    by destruct (Hbare _ _ Hdoc) as (? & _).
Qed.

Lemma no_documentation_after_Refresh_witness :
  TypeInfo.Doc (buildTypeInfo rebuilt "Circle" "shapes" Samples.shapes Samples.Circle) = "".
Proof.
  apply (proj1 (no_documentation_after_Refresh Samples.shapesRepo rebuilt Samples.soundWalk
                  None Refresh_rebuilt) "Circle").
  exists (map_to_list (Analyzer.pkgs rebuilt)).
  split; [apply range_order_map_to_list|vm_compute; reflexivity].
Defined.

(** X12. After [Refresh], failed or not, the analyzer records at
    least one source file for each package it holds and holds a
    package for each name it records files for; after a [Refresh]
    that succeeds it also holds a documentation entry for exactly the
    packages, and after one that fails it holds none. *)
Theorem Refresh_records (a a' : Analyzer.t) (env : Env.t) (err : option Error) :
  Refresh a env a' err →
  dom (Analyzer.files a') = dom (Analyzer.pkgs a') ∧
  (∀ packageName pkg, Analyzer.pkgs a' !! packageName = Some pkg →
     ∃ info, GetPackageInfo a' packageName = Ok info ∧ PackageInfo.Files info ≠ []) ∧
  match err with
  | None => dom (Analyzer.docPkgs a') = dom (Analyzer.pkgs a')
  | Some _ => Analyzer.docPkgs a' = ∅
  end.
Proof.
  intros Hr.
  apply (initialize_leaves _ _ _ _ (clear_blank a)) in Hr
    as ((_ & Hdom & Hsome & _) & _ & Hdocs).
  split; [done|]. split; [|done].
  intros packageName pkg Hpkg. unfold GetPackageInfo. rewrite Hpkg.
  eexists. split; [reflexivity|]. simpl.
  assert (packageName ∈ dom (Analyzer.files a')) as [recorded Hrec]%elem_of_dom
    by (rewrite Hdom; by apply elem_of_dom).
  rewrite Hrec. simpl. intros ->. by apply (Hsome packageName).
Qed.

Lemma Refresh_records_witness :
  dom (Analyzer.files rebuilt) = dom (Analyzer.pkgs rebuilt) ∧
  (∀ packageName pkg, Analyzer.pkgs rebuilt !! packageName = Some pkg →
     ∃ info, GetPackageInfo rebuilt packageName = Ok info ∧ PackageInfo.Files info ≠ []) ∧
  dom (Analyzer.docPkgs rebuilt) = dom (Analyzer.pkgs rebuilt).
Proof.
  apply (Refresh_records Samples.shapesRepo rebuilt Samples.soundWalk None).
  apply (initialize_succeeds _ _
           (parseRepository (clear Samples.shapesRepo) Samples.soundWalk).1).
  vm_compute. reflexivity.
Defined.

(** X13. Every source file the analyzer records after [Refresh] was
    met by the walk without an error, is not a directory, ends in
    [.go], contains none of the excluded patterns, is not a test file
    unless tests are included, and is no larger than the configured
    maximum. *)
Theorem Refresh_records_admitted_files (a a' : Analyzer.t) (env : Env.t)
    (err : option Error) (pkgName file : string) (recorded : list string) :
  Refresh a env a' err →
  Analyzer.files a' !! pkgName = Some recorded → file ∈ recorded →
  admitted (Analyzer.config a) file ∧
  ∃ entry, entry ∈ Env.walk env ∧ WalkEntry.path entry = file ∧
           WalkEntry.err entry = None ∧ WalkEntry.IsDir entry = false ∧
           (WalkEntry.Size entry ≤ Config.MaxFileSize (Analyzer.config a))%Z.
Proof.
  intros Hr.
  apply (initialize_leaves _ _ _ _ (clear_blank a)) in Hr as ((_ & _ & _ & Hfiles) & _).
  apply Hfiles.
Qed.

Lemma Refresh_records_admitted_files_witness :
  admitted (Analyzer.config Samples.shapesRepo) "/repo/shapes.go".
Proof.
  apply (Refresh_records_admitted_files Samples.shapesRepo rebuilt Samples.soundWalk None
           "shapes" "/repo/shapes.go" ["/repo/shapes.go"]).
  - apply (initialize_succeeds _ _
             (parseRepository (clear Samples.shapesRepo) Samples.soundWalk).1).
    vm_compute. reflexivity.
  - vm_compute. reflexivity.
  - left.
Defined.

(** X14. When the walk reports an error for an entry, [Refresh] fails
    with that error, and the analyzer it leaves is the one the
    entries before it made: the entries after it are not looked
    at. *)
Theorem Refresh_stops_at_first_error (a a' : Analyzer.t) (env : Env.t)
    (before after : list WalkEntry.t) (entry : WalkEntry.t) (cause : string)
    (err : option Error) :
  Env.walk env = before ++ entry :: after →
  Forall (λ earlier, WalkEntry.err earlier = None) before →
  WalkEntry.err entry = Some cause →
  Refresh a env a' err ↔
  a' = (parseRepository_walk (clear a) before).1 ∧ err = Some (ErrParseRepository cause).
Proof.
  intros Hwalk Hbefore Hcause. unfold Refresh, initialize, parseRepository.
  rewrite Hwalk, (parseRepository_walk_app _ _ _ Hbefore). simpl. by rewrite Hcause.
Qed.

Lemma Refresh_stops_at_first_error_witness :
  Refresh Samples.shapesRepo Samples.brokenWalk
    (parseRepository_walk (clear Samples.shapesRepo)
       [WalkEntry.mk "/repo/shapes.go" None false 100
          (Some (ParsedFile.mk (λ _, None) "shapes" (Some Samples.shapes)))]).1
    (Some (ErrParseRepository "lstat /repo/gone: permission denied")).
Proof.
  apply (Refresh_stops_at_first_error Samples.shapesRepo _ Samples.brokenWalk
           [WalkEntry.mk "/repo/shapes.go" None false 100
              (Some (ParsedFile.mk (λ _, None) "shapes" (Some Samples.shapes)))]
           [] (WalkEntry.mk "/repo/gone" (Some "lstat /repo/gone: permission denied")
                 true 0 None) "lstat /repo/gone: permission denied").
  - reflexivity.
  - repeat constructor.
  - reflexivity.
  - split; reflexivity.
Defined.

(** ** Runs of calls on the cache *)

Section CacheRuns.
Context {V : Type}.

Lemma run_app (c : cache.Cache.t V) (calls calls' : list (cacheCall.t V)) :
  cacheCall.run c (calls ++ calls') = cacheCall.run (cacheCall.run c calls) calls'.
Proof. unfold cacheCall.run. apply fold_left_app. Qed.

(** Calls that do not write a key leave its entry alone. *)
Lemma run_keeps (c : cache.Cache.t V) (calls : list (cacheCall.t V)) (key : string) :
  Forall (λ call, cacheCall.writes key call = false) calls →
  cache.Cache.data (cacheCall.run c calls) !! key = cache.Cache.data c !! key.
Proof.
  intros Hcalls. revert c.
  induction Hcalls as [|call calls Hcall _ IH]; intros c; [done|].
  change (cacheCall.run c (call :: calls))
    with (cacheCall.run (cacheCall.apply c call) calls).
  rewrite IH. destruct call as [now key' value duration saved|saved]; [|done].
  simpl in *. apply String.eqb_neq in Hcall. by rewrite lookup_insert_ne.
Qed.

Lemma Get_entry (c c' : cache.Cache.t V) (now : Z) (key : string) :
  cache.Cache.data c !! key = cache.Cache.data c' !! key →
  cache.Get c now key = cache.Get c' now key.
Proof. unfold cache.Get. by intros ->. Qed.

End CacheRuns.

(** X15. In a run of [Set] and [Clear] calls the last call that
    writes a key decides what [Get] returns for it: after a [Set] of
    the key followed only by [Set] calls on other keys, [Get] answers
    as it does right after that [Set]; after a [Clear] followed only
    by such calls, the key is not found. *)
Theorem last_write_decides {V : Type} (c : cache.Cache.t V)
    (before after : list (cacheCall.t V)) (key : string) (later : Z) :
  Forall (λ call, cacheCall.writes key call = false) after →
  (∀ now value duration saved,
     cache.Get
       (cacheCall.run c (before ++ cacheCall.Set_ now key value duration saved :: after))
       later key =
     cache.Get (cache.Set_ c now key value duration saved).1 later key) ∧
  (∀ saved,
     cache.Get (cacheCall.run c (before ++ cacheCall.Clear saved :: after)) later key =
     (None, false)).
Proof.
  intros Hafter. split.
  - intros now value duration saved. apply Get_entry.
    rewrite run_app.
    change (cacheCall.run ?c0 (?call :: after))
      with (cacheCall.run (cacheCall.apply c0 call) after).
    rewrite run_keeps by done. simpl. by rewrite !lookup_insert_eq.
  - intros saved. rewrite run_app.
    change (cacheCall.run ?c0 (?call :: after))
      with (cacheCall.run (cacheCall.apply c0 call) after).
    unfold cache.Get. rewrite run_keeps by done. simpl. by rewrite lookup_empty.
Qed.

Lemma last_write_decides_witness :
  let c : cache.Cache.t string := cache.Cache.mk ∅ "/tmp/scope.cache" in
  cache.Get
    (cacheCall.run c
       [cacheCall.Set_ 10 "type:Circle" "old" 0 None;
        cacheCall.Clear None;
        cacheCall.Set_ 20 "type:Circle" "new" 0 None;
        cacheCall.Set_ 30 "methods:Circle" "Area" 5 (Some "disk full")])
    40 "type:Circle" = (Some "new", true).
Proof.
  intros c.
  apply (proj1 (last_write_decides c
                  [cacheCall.Set_ 10 "type:Circle" "old" 0 None; cacheCall.Clear None]
                  [cacheCall.Set_ 30 "methods:Circle" "Area" 5 (Some "disk full")]
                  "type:Circle" 40 ltac:(repeat constructor)) 20%Z "new" 0%Z None).
Defined.

(** X16. Time only takes entries away: with clock readings within
    [int64] nanoseconds, a key [Get] does not find at one instant is
    not found at any later instant either, as long as the cache is
    not written. *)
Theorem expired_stays_expired {V : Type} (c : cache.Cache.t V) (key : string)
    (now later : Z) :
  (- 2 ^ 63 ≤ now)%Z → (now ≤ later)%Z → (later ≤ cache.maxInt64)%Z →
  cache.Get c now key = (None, false) → cache.Get c later key = (None, false).
Proof.
  intros Hmin Hle Hmax. unfold cache.Get, cache.UnixNano.
  destruct (cache.Cache.data c !! key) as [entry|]; [|done].
  rewrite !wrap64_small by lia.
  destruct (0 <? cache.cacheEntry.Expiration entry)%Z; simpl; [|done].
  destruct (cache.cacheEntry.Expiration entry <? now)%Z eqn:Hnow; [|done].
  intros _. apply Z.ltb_lt in Hnow.
  by assert ((cache.cacheEntry.Expiration entry <? later)%Z = true) as ->
    by (apply Z.ltb_lt; lia).
Qed.

Lemma expired_stays_expired_witness :
  let c : cache.Cache.t string :=
    (cache.Set_ (cache.Cache.mk ∅ "/tmp/scope.cache") 1000 "expired-key" "expired-value"
       1000000 None).1 in
  cache.Get c 3001000 "expired-key" = (None, false).
Proof.
  intros c.
  apply (expired_stays_expired c "expired-key" 2001000 3001000);
    [lia|lia|unfold cache.maxInt64; lia|vm_compute; reflexivity].
Defined.

(** ** The tool manager *)

Section ToolManager.
Context {ToolConfig : Type} (Name : ToolConfig → string).

Lemma registerAll_lookup (tm : tools.ToolManager) (configs : list ToolConfig)
    (name : string) :
  tools.tools (tools.registerAll Name tm configs) !! name =
  match last (filter (λ config, Name config = name) configs) with
  | Some config => Some (tools.NewTool config)
  | None => tools.tools tm !! name
  end.
Proof.
  unfold tools.registerAll. revert tm.
  induction configs as [|config configs IH]; intros tm; simpl; [done|].
  rewrite IH. rewrite filter_cons. simpl.
  destruct (decide (Name config = name)) as [<-|Hne].
  - rewrite last_cons.
    destruct (last (filter (λ config', Name config' = Name config) configs)); [done|].
    by rewrite lookup_insert_eq.
  - destruct (last (filter (λ config', Name config' = name) configs)); [done|].
    by rewrite lookup_insert_ne.
Qed.

Lemma ListTools_in_names (order : list (string * tools.Tool (ToolConfig:=ToolConfig))) :
  tools.ListTools_in order = order.*1.
Proof.
  unfold tools.ListTools_in. rewrite (fold_left_snoc_map fst). by rewrite map_fmap.
Qed.

End ToolManager.

(** X17. After the tools of a configuration are registered in order,
    [GetTool] finds under a name the tool made of the last
    configuration entry with that name, and that tool reports the
    name as its own; a name no entry has is not found. *)
Theorem GetTool_after_registration {ToolConfig : Type} (Name : ToolConfig → string)
    (configs : list ToolConfig) (name : string) :
  let tm := tools.registerAll Name tools.NewToolManager configs in
  tools.GetTool tm name =
    match last (filter (λ config, Name config = name) configs) with
    | Some config => (Some (tools.NewTool config), true)
    | None => (None, false)
    end ∧
  ∀ tool, tools.GetTool tm name = (Some tool, true) → tools.GetName Name tool = name.
Proof.
  intros tm. subst tm. unfold tools.GetTool. rewrite registerAll_lookup. simpl.
  destruct (last (filter (λ config, Name config = name) configs)) as [config|] eqn:Hlast.
  - split; [done|]. intros tool [= <-]. simpl.
    apply last_Some_elem_of in Hlast. by apply list_elem_of_filter in Hlast as [? _].
  - by rewrite lookup_empty.
Qed.

Lemma GetTool_after_registration_witness :
  tools.GetName fst (tools.NewTool ("code_search", "rg")) = "code_search".
Proof.
  apply (proj2 (GetTool_after_registration fst
                  [("code_search", "grep"); ("code_edit", "sed"); ("code_search", "rg")]
                  "code_search")).
  vm_compute. reflexivity.
Defined.

(** X18. After the tools of a configuration are registered,
    [ListTools] returns each registered name once, in some order, and
    nothing else, however many entries share a name. *)
Theorem ListTools_after_registration {ToolConfig : Type} (Name : ToolConfig → string)
    (configs : list ToolConfig) (names : list string) :
  tools.ListTools (tools.registerAll Name tools.NewToolManager configs) names →
  NoDup names ∧
  ∀ name, name ∈ names ↔ ∃ config, config ∈ configs ∧ Name config = name.
Proof.
  intros (order & Ho & <-). unfold range_order in Ho. rewrite ListTools_in_names.
  split; [rewrite Ho; apply NoDup_fst_map_to_list|].
  intros name. rewrite Ho, list_elem_of_fmap. split.
  - intros ([k tool] & -> & Hin). apply elem_of_map_to_list in Hin. simpl.
    rewrite registerAll_lookup in Hin. simpl in Hin.
    destruct (last (filter (λ config, Name config = k) configs)) as [config|] eqn:Hlast;
      [|by rewrite lookup_empty in Hin].
    apply last_Some_elem_of, list_elem_of_filter in Hlast as [? ?]. by exists config.
  - intros (config & Hin & Hname).
    destruct (last (filter (λ config', Name config' = name) configs)) as [config'|]
      eqn:Hlast.
    + exists (name, tools.NewTool config'). split; [done|].
      apply elem_of_map_to_list. by rewrite registerAll_lookup, Hlast.
    + apply last_None in Hlast.
      assert (config ∈ filter (λ config', Name config' = name) configs) as Hf
        by by apply list_elem_of_filter.
      rewrite Hlast in Hf. by apply elem_of_nil in Hf.
Qed.

Lemma ListTools_after_registration_witness :
  NoDup
    (tools.ListTools_in
       (map_to_list
          (tools.tools
             (tools.registerAll fst tools.NewToolManager
                [("code_search", "grep"); ("code_edit", "sed"); ("code_search", "rg")])))).
Proof.
  apply (ListTools_after_registration fst
           [("code_search", "grep"); ("code_edit", "sed"); ("code_search", "rg")]).
  eexists. split; [apply range_order_map_to_list|reflexivity].
Defined.

(** ** The first analyzer's [ListMethods] *)

Section LegacyListMethods.

Lemma methodNames_spec mset methods :
  legacy.methodNames mset methods = methods ++ selectedNames mset.
Proof.
  unfold legacy.methodNames, selectedNames. revert methods.
  induction mset as [|s mset IH]; intros methods; simpl; [by rewrite app_nil_r|].
  rewrite IH. destruct (isMethodVal s); simpl; [|done]. by rewrite <- app_assoc.
Qed.

Lemma packageMethods_spec typeName order methods :
  fold_left (legacy.packageMethods typeName) order methods =
  methods ++ flat_map (contributed typeName) order.
Proof.
  revert methods. induction order as [|entry order IH]; intros methods; simpl;
    [by rewrite app_nil_r|].
  rewrite IH. unfold legacy.packageMethods, contributed.
  destruct (types.Scope.Lookup (types.Package.Scope entry.2) typeName) as [obj|];
    [|done].
  by rewrite !methodNames_spec, <- !app_assoc.
Qed.

Lemma selectedNames_selects name mset :
  name ∈ selectedNames mset ↔ ∃ s, s ∈ mset ∧ selects name s.
Proof.
  unfold selectedNames, selects. rewrite list_elem_of_In, in_map_iff.
  split.
  - intros (s & <- & Hs). apply filter_In in Hs as [Hs Hk].
    exists s. by rewrite list_elem_of_In.
  - intros (s & Hs & Hk & <-). exists s. split; [done|].
    apply filter_In. by rewrite <- list_elem_of_In.
Qed.

Lemma occurs_once (name : string) (names : list string) :
  name ∈ names → 1 ≤ length (filter (λ n, n = name) names).
Proof.
  induction names as [|n names IH]; [by intros ?%elem_of_nil|].
  rewrite filter_cons. intros [->|Hin]%elem_of_cons.
  - rewrite decide_True by done. simpl. lia.
  - destruct (decide (n = name)); simpl; [lia|by apply IH].
Qed.

End LegacyListMethods.

(** X19. The first analyzer's [ListMethods] does not merge the two
    method sets: a method name selected both by the method set of the
    type and by that of its pointer form, as every value-receiver
    method is, is listed at least twice. *)
Theorem legacy_ListMethods_repeats (a : legacy.Analyzer.t) (typeName pkgName name : string)
    (pkg : types.Package.t) (obj : types.Object.t) (s s' : types.Selection.t)
    (r : list string + legacy.Error) :
  legacy.Analyzer.pkgs a !! pkgName = Some pkg →
  types.Scope.Lookup (types.Package.Scope pkg) typeName = Some obj →
  s ∈ types.Type_.MethodSet (types.Object.Type' obj) → selects name s →
  s' ∈ types.Type_.PtrMethodSet (types.Object.Type' obj) → selects name s' →
  legacy.ListMethods a typeName r →
  ∃ methods, r = inl methods ∧ 2 ≤ length (filter (λ n, n = name) methods).
Proof.
  intros Hpkg Hobj Hs Hsel Hs' Hsel' (order & Ho & <-).
  unfold legacy.ListMethods_in. rewrite packageMethods_spec. simpl.
  assert ((pkgName, pkg) ∈ order) as Hin
    by by apply (range_order_lookup (legacy.Analyzer.pkgs a) order).
  apply list_elem_of_split in Hin as (order1 & order2 & ->).
  assert (2 ≤ length (filter (λ n, n = name)
                        (flat_map (contributed typeName) (order1 ++ (pkgName, pkg) :: order2))))
    as Htwice.
  { rewrite flat_map_app. simpl. rewrite !filter_app, !length_app.
    unfold contributed at 2. simpl. rewrite Hobj, filter_app, length_app.
    pose proof (occurs_once name
                  (selectedNames (types.Type_.MethodSet (types.Object.Type' obj)))) as H1.
    pose proof (occurs_once name
                  (selectedNames (types.Type_.PtrMethodSet (types.Object.Type' obj)))) as H2.
    rewrite selectedNames_selects in H1, H2.
    specialize (H1 (ex_intro _ s (conj Hs Hsel))).
    specialize (H2 (ex_intro _ s' (conj Hs' Hsel'))). lia. }
  destruct (flat_map (contributed typeName) (order1 ++ (pkgName, pkg) :: order2))
    as [|n names]; [simpl in Htwice; lia|].
  by eexists.
Qed.

Lemma legacy_ListMethods_repeats_witness :
  ∃ methods,
    legacy.ListMethods_in (map_to_list (Analyzer.pkgs Samples.shapesRepo)) "Point" =
      inl methods ∧
    2 ≤ length (filter (λ n, n = "String") methods).
Proof.
  apply (legacy_ListMethods_repeats
           (legacy.Analyzer.mk "/repo" Samples.fset (Analyzer.pkgs Samples.shapesRepo))
           "Point" "shapes" "String" Samples.shapes Samples.Point
           (Samples.viaValue Samples.String_) (Samples.viaPointer Samples.String_)).
  - vm_compute. reflexivity.
  - vm_compute. reflexivity.
  - left.
  - split; reflexivity.
  - right. left.
  - split; reflexivity.
  - eexists. split; [apply range_order_map_to_list|reflexivity].
Defined.

(** X20. The first analyzer's [ListMethods] fails in the same way for
    a name no package has and for a type without methods: when no
    package contributes a method name, it returns the error that no
    methods were found; otherwise it returns the names of all
    packages that have the type, and never an empty list. *)
Theorem legacy_ListMethods_error (a : legacy.Analyzer.t) (typeName : string)
    (r : list string + legacy.Error) :
  legacy.ListMethods a typeName r →
  ∃ order,
    range_order (legacy.Analyzer.pkgs a) order ∧
    match r with
    | inl methods => methods = flat_map (contributed typeName) order ∧ methods ≠ []
    | inr err =>
        err = legacy.ErrNoMethods typeName ∧
        ∀ pkgName pkg, legacy.Analyzer.pkgs a !! pkgName = Some pkg →
                       contributed typeName (pkgName, pkg) = []
    end.
Proof.
  intros (order & Ho & <-). exists order. split; [done|].
  unfold legacy.ListMethods_in. rewrite packageMethods_spec. simpl.
  destruct (flat_map (contributed typeName) order) as [|n names] eqn:Hall; [|done].
  split; [done|]. intros pkgName pkg Hpkg.
  apply (range_order_lookup _ order) in Hpkg; [|done].
  apply list_elem_of_split in Hpkg as (order1 & order2 & ->).
  rewrite flat_map_app in Hall. simpl in Hall.
  apply app_eq_nil in Hall as [_ Hall]. by apply app_eq_nil in Hall as [? _].
Qed.

Lemma legacy_ListMethods_error_witness :
  ∃ order,
    range_order (Analyzer.pkgs Samples.twoConfigs) order ∧
    ∀ pkgName pkg, Analyzer.pkgs Samples.twoConfigs !! pkgName = Some pkg →
                   contributed "Config" (pkgName, pkg) = [].
Proof.
  destruct (legacy_ListMethods_error
              (legacy.Analyzer.mk "/repo" Samples.fset (Analyzer.pkgs Samples.twoConfigs))
              "Config" (inr (legacy.ErrNoMethods "Config")))
    as (order & Ho & _ & Hnone).
  - eexists. split; [apply range_order_map_to_list|vm_compute; reflexivity].
  - by exists order.
Defined.

(** ** Handing out an analyzer *)

(** X21. [NewAnalyzerWithConfig] hands out initialized analyzers
    only.  It fails when the repository path does not exist, and when
    the walk reports an error it fails with that error wrapped twice,
    as a parse failure and as an initialization failure. *)
Theorem NewAnalyzerWithConfig_initialized (repoPath : string) (config : Config.t)
    (env : Env.t) (r : result Analyzer.t) :
  NewAnalyzerWithConfig repoPath config env r →
  match r with
  | Ok a =>
      Env.stat env = true ∧ Analyzer.initialized a = true ∧
      Analyzer.repoPath a = repoPath ∧ Analyzer.config a = config ∧
      Forall (λ entry, WalkEntry.err entry = None) (Env.walk env)
  | Err err =>
      (Env.stat env = false ∧ err = ErrNoRepository repoPath) ∨
      ∃ cause entry,
        entry ∈ Env.walk env ∧ WalkEntry.err entry = Some cause ∧
        err = ErrInitialize (ErrParseRepository cause) ∧
        Error_message err =
          "failed to initialize analyzer: failed to parse repository: " +:+ cause
  end.
Proof.
  unfold NewAnalyzerWithConfig. destruct (Env.stat env); simpl; [|intros ->; by left].
  intros (a' & err & Hinit & ->).
  set (start := Analyzer.mk repoPath token.NewFileSet ∅ ∅ false config ∅) in *.
  assert (∀ entries a1 outcome,
            parseRepository_walk start entries = (a1, outcome) →
            Analyzer.repoPath a1 = repoPath ∧
            match outcome with
            | Some cause => ∃ entry, entry ∈ entries ∧ WalkEntry.err entry = Some cause
            | None => Forall (λ entry, WalkEntry.err entry = None) entries
            end) as Hwalk.
  { assert (Analyzer.repoPath start = repoPath) as Hpath by done.
    revert Hpath. generalize start. intros b Hb entries. revert b Hb.
    induction entries as [|entry entries IH]; intros b Hb a1 outcome; simpl.
    - intros [= <- <-]. by split.
    - destruct (WalkEntry.err entry) as [cause|] eqn:Herr.
      + intros [= <- <-]. split; [done|]. exists entry. split; [left|done].
      + assert (∀ b', Analyzer.repoPath b' = repoPath →
                  parseRepository_walk b' entries = (a1, outcome) →
                  Analyzer.repoPath a1 = repoPath ∧
                  match outcome with
                  | Some cause =>
                      ∃ entry', entry' ∈ entry :: entries ∧ WalkEntry.err entry' = Some cause
                  | None => Forall (λ entry', WalkEntry.err entry' = None) (entry :: entries)
                  end) as Hnext.
        { intros b' Hb' Hrest. destruct (IH b' Hb' a1 outcome Hrest) as [Hp Hout].
          split; [done|]. destruct outcome as [cause|].
          - destruct Hout as (entry' & Hin & He). exists entry'. split; [by right|done].
          - by constructor. }
        repeat (match goal with |- context [if ?c then _ else _] => destruct c end;
                [by apply Hnext|]).
        apply Hnext. unfold parseFile. destruct (WalkEntry.parsed entry) as [file|]; [|done].
        by destruct (ParsedFile.checked file). }
  unfold initialize, parseRepository in Hinit.
  destruct (parseRepository_walk start (Env.walk env)) as [a1 [cause|]] eqn:Hparse.
  - destruct Hinit as [-> ->]. right.
    destruct (Hwalk _ _ _ Hparse) as [_ (entry & Hin & Herr)].
    exists cause, entry. by repeat split.
  - destruct Hinit as (order & order' & _ & _ & -> & ->). simpl.
    destruct (Hwalk _ _ _ Hparse) as [Hpath Hnone].
    pose proof (parseRepository_walk_keeps config (Env.walk env) (Env.walk env) start
                  (λ _ H, H) (blank_keeps start _ ltac:(by repeat split))) as Hkeeps.
    rewrite Hparse in Hkeeps. destruct Hkeeps as (Hconfig & _).
    destruct (typeCheckPackages_spec a1 env order) as (_ & _ & Hc & _).
    destruct (generateDocumentation_spec (typeCheckPackages a1 env order) order')
      as (_ & _ & Hc' & _).
    simpl in *. repeat split; try done; [|by rewrite Hc', Hc].
    clear -Hpath.
    assert (∀ b fs, Analyzer.repoPath (typeCheckPackages b env fs) = Analyzer.repoPath b)
      as Htc.
    { intros b fs. unfold typeCheckPackages. revert b.
      induction fs as [|[k f] fs IH]; intros b; simpl; [done|]. rewrite IH.
      by destruct (Rechecked.checked (Env.recheck env k f)). }
    assert (∀ b ps, Analyzer.repoPath (generateDocumentation b ps) = Analyzer.repoPath b)
      as Hgd.
    { intros b ps. unfold generateDocumentation. revert b.
      induction ps as [|[k p] ps IH]; intros b; simpl; [done|]. by rewrite IH. }
    by rewrite Hgd, Htc.
Qed.

Lemma NewAnalyzerWithConfig_initialized_witness :
  Error_message (ErrInitialize (ErrParseRepository "lstat /repo/gone: permission denied")) =
  "failed to initialize analyzer: failed to parse repository: "
    +:+ "lstat /repo/gone: permission denied".
Proof.
  destruct (NewAnalyzerWithConfig_initialized "/repo" DefaultConfig Samples.brokenWalk
              (Err (ErrInitialize
                      (ErrParseRepository "lstat /repo/gone: permission denied"))))
    as [[Hstat _]|(cause & entry & _ & _ & Herr & Hmessage)].
  - unfold NewAnalyzerWithConfig. simpl.
    exists (parseRepository
              (Analyzer.mk "/repo" token.NewFileSet ∅ ∅ false DefaultConfig ∅)
              Samples.brokenWalk).1,
      (Some (ErrParseRepository "lstat /repo/gone: permission denied")).
    split; [|reflexivity]. unfold initialize. vm_compute. split; reflexivity.
  - discriminate Hstat.
  - injection Herr as <-. exact Hmessage.
Defined.
